(** * PixelPunk: the AI tagging queue, its executor and duplicate propagation

    A shallow embedding of package [ai] (the queue entry points
    [InitGlobalTaggingQueue], [RecoverPendingOnStartup], [AddFileToQueue] and
    the executor [AiImageTaggingAndSaveWithBase64], [processAIResponse],
    [propagateAIToDuplicates], [updateFileStatus]) over an in-memory model of
    the relational store; of the reuse of an analysis at upload time
    ([reuseAnalysisAndVectorForDuplicate] of package [file]), which writes
    the same tables; and of the template service of package [category] with
    the errors of package [errors] it returns.

    Conventions.
    - A table is the list of its rows, in primary-key order; an
      [UPDATE ... WHERE p] is a [map] that rewrites the rows satisfying [p].
    - A Go [error] is its message; [nil] is [None].
    - Every database statement of the source carries a label of type [Stmt];
      the world holds a fault plan saying which statements fail. A failing
      statement returns its error and changes nothing.
    - Calls into collaborators whose bodies are not part of the sources at
      hand, and goroutines started with [go], are recorded in a trace.
    - [logger.*] calls have no effect on the modelled state and are left
      out. *)

From Stdlib Require Import String Ascii List ZArith QArith Bool Lia.
From Stdlib Require Import DecimalString Permutation.
Import ListNotations.

Close Scope Q_scope.
Open Scope string_scope.
Open Scope Z_scope.

(* ================================================================== *)
(** ** Strings, the way package [strings] is used *)

(** [strings.Contains]: byte-wise substring test. *)
Fixpoint Contains (s substr : string) : bool :=
  if String.prefix substr s then true
  else match s with
       | EmptyString => false
       | String _ s' => Contains s' substr
       end.

Definition lower_ascii (c : ascii) : ascii :=
  let n := nat_of_ascii c in
  if (Nat.leb 65 n && Nat.leb n 90)%bool then ascii_of_nat (n + 32) else c.

(** [strings.ToLower] as it acts on a string of ASCII bytes, the path the
    library takes when no byte is 128 or more: the letters [A] to [Z] are
    lowered and every other byte stays. On a string with a byte of 128 or
    more the library decodes runes and lowers them by the Unicode tables,
    which are not modelled: what is stated below about the outcome of a
    lowering is stated for messages that are [isASCII]. *)
Fixpoint ToLower (s : string) : string :=
  match s with
  | EmptyString => EmptyString
  | String c s' => String (lower_ascii c) (ToLower s')
  end.

(** No byte of the string is [utf8.RuneSelf] (128) or more. *)
Fixpoint isASCII (s : string) : bool :=
  match s with
  | EmptyString => true
  | String c s' => (Nat.ltb (nat_of_ascii c) 128 && isASCII s')%bool
  end.

Definition error := string.

(* ================================================================== *)
(** ** Constants *)

Module common.

  (** The values of [ai_tagging_status]. *)
Inductive AITaggingStatus :=
  | AITaggingStatusNone
  | AITaggingStatusPending
  | AITaggingStatusProcessing
  | AITaggingStatusDone
  | AITaggingStatusFailed
  | AITaggingStatusSkipped.

Definition status_eqb (a b : AITaggingStatus) : bool :=
    match a, b with
    | AITaggingStatusNone, AITaggingStatusNone
    | AITaggingStatusPending, AITaggingStatusPending
    | AITaggingStatusProcessing, AITaggingStatusProcessing
    | AITaggingStatusDone, AITaggingStatusDone
    | AITaggingStatusFailed, AITaggingStatusFailed
    | AITaggingStatusSkipped, AITaggingStatusSkipped => true
    | _, _ => false
    end.

(** The value of this constant is declared elsewhere; nothing below depends
    on it. *)
Definition TaggingActionAuto : string := "auto".

End common.
Export common.

Module constants.
Definition AIMaxRetries : Z := 3.
Definition FileStatusNormal : string := "normal".
Definition FileStatusPendingReview : string := "pending_review".
Definition FileStatusPendingDeletion : string := "pending_deletion".
Definition FileStatusDeleted : string := "deleted".
End constants.

(* ================================================================== *)
(** ** Rows *)

(** [models.File], restricted to the columns package [ai] reads or writes. *)
Record File := mkFile {
  ID : string;
  UserID : Z;
  OriginalFileID : string;
  Status : string;
  Resolution : string;
  Description : string;
  NSFW : bool;
  IsRecommended : bool;
  CategoryID : option Z;
  CategorySource : string;
  AITaggingStatus_ : AITaggingStatus;
  AITaggingTries : Z;
  AILastHeartbeatAt : Z
}.

Definition set_Status (v : string) (f : File) : File :=
  mkFile (ID f) (UserID f) (OriginalFileID f) v (Resolution f) (Description f)
         (NSFW f) (IsRecommended f) (CategoryID f) (CategorySource f)
         (AITaggingStatus_ f) (AITaggingTries f) (AILastHeartbeatAt f).

Definition set_Description (v : string) (f : File) : File :=
  mkFile (ID f) (UserID f) (OriginalFileID f) (Status f) (Resolution f) v
         (NSFW f) (IsRecommended f) (CategoryID f) (CategorySource f)
         (AITaggingStatus_ f) (AITaggingTries f) (AILastHeartbeatAt f).

Definition set_NSFW (v : bool) (f : File) : File :=
  mkFile (ID f) (UserID f) (OriginalFileID f) (Status f) (Resolution f)
         (Description f) v (IsRecommended f) (CategoryID f) (CategorySource f)
         (AITaggingStatus_ f) (AITaggingTries f) (AILastHeartbeatAt f).

Definition set_IsRecommended (v : bool) (f : File) : File :=
  mkFile (ID f) (UserID f) (OriginalFileID f) (Status f) (Resolution f)
         (Description f) (NSFW f) v (CategoryID f) (CategorySource f)
         (AITaggingStatus_ f) (AITaggingTries f) (AILastHeartbeatAt f).

Definition set_Category (c : Z) (src : string) (f : File) : File :=
  mkFile (ID f) (UserID f) (OriginalFileID f) (Status f) (Resolution f)
         (Description f) (NSFW f) (IsRecommended f) (Some c) src
         (AITaggingStatus_ f) (AITaggingTries f) (AILastHeartbeatAt f).

Definition set_AITaggingStatus (v : AITaggingStatus) (f : File) : File :=
  mkFile (ID f) (UserID f) (OriginalFileID f) (Status f) (Resolution f)
         (Description f) (NSFW f) (IsRecommended f) (CategoryID f)
         (CategorySource f) v (AITaggingTries f) (AILastHeartbeatAt f).

Definition set_AITaggingTries (v : Z) (f : File) : File :=
  mkFile (ID f) (UserID f) (OriginalFileID f) (Status f) (Resolution f)
         (Description f) (NSFW f) (IsRecommended f) (CategoryID f)
         (CategorySource f) (AITaggingStatus_ f) v (AILastHeartbeatAt f).

Definition set_AILastHeartbeatAt (v : Z) (f : File) : File :=
  mkFile (ID f) (UserID f) (OriginalFileID f) (Status f) (Resolution f)
         (Description f) (NSFW f) (IsRecommended f) (CategoryID f)
         (CategorySource f) (AITaggingStatus_ f) (AITaggingTries f) v.

(** The part of [AITaggingResult] the executor looks at. *)
Record ContentSafety := mkContentSafety {
  IsNSFW : bool;
  NSFWScore : Q;
  NSFWReason : string
}.

Record AITaggingResult := mkAITaggingResult {
  BasicInfo_Resolution : string;
  Safety : ContentSafety;
  ResultDescription : string;
  ResultIsRecommended : bool;
  Tags : list string
}.

Definition set_BasicInfo_Resolution (v : string) (r : AITaggingResult) :=
  mkAITaggingResult v (Safety r) (ResultDescription r) (ResultIsRecommended r)
                    (Tags r).

Record Usage := mkUsage {
  PromptTokens : Z;
  CompletionTokens : Z;
  TotalTokens : Z
}.

(** [AIFileResponse]; [Data] is the untyped payload, kept by its JSON text. *)
Record AIFileResponse := mkAIFileResponse {
  Success : bool;
  ErrMsg : string;
  RawResponse : string;
  Data : string;
  RespUsage : option Usage
}.

(** [models.FileAIInfo]: one row per file, [AI_ID] the primary key. *)
Record FileAIInfo := mkFileAIInfo {
  AI_ID : Z;
  AI_FileID : string;
  AI_Description : string;
  AI_Tags : list string;
  AI_Resolution : string;
  AI_IsNSFW : bool;
  AI_NSFWScore : Q;
  AI_NSFWReason : string;
  AI_TotalTokens : Z
}.

Definition zeroFileAIInfo : FileAIInfo :=
  mkFileAIInfo 0 "" "" [] "" false 0%Q "" 0.

Definition set_AI_ID (v : Z) (r : FileAIInfo) : FileAIInfo :=
  mkFileAIInfo v (AI_FileID r) (AI_Description r) (AI_Tags r) (AI_Resolution r)
               (AI_IsNSFW r) (AI_NSFWScore r) (AI_NSFWReason r)
               (AI_TotalTokens r).

Definition set_AI_FileID (v : string) (r : FileAIInfo) : FileAIInfo :=
  mkFileAIInfo (AI_ID r) v (AI_Description r) (AI_Tags r) (AI_Resolution r)
               (AI_IsNSFW r) (AI_NSFWScore r) (AI_NSFWReason r)
               (AI_TotalTokens r).

(** [models.FileGlobalTagRelation]. *)
Record FileGlobalTagRelation := mkRel {
  Rel_FileID : string;
  Rel_TagID : Z;
  Rel_UserID : Z;
  Rel_AccessLevel : string;
  Rel_Source : string;
  Rel_Confidence : Q
}.

Record GlobalTag := mkGlobalTag {
  Tag_ID : Z;
  Tag_Name : string
}.

(** [models.FileTaggingLog]. *)
Record FileTaggingLog := mkLog {
  Log_FileID : string;
  Log_Status : AITaggingStatus;
  Log_Action : string;
  Log_Type : string;
  Log_Data : option Usage
}.

(* ================================================================== *)
(** ** Settings, the queue service and the world *)

(** The settings package [ai] reads, each absent ([None]) or set. The getters
    take the default the call site passes. *)
Record Settings := mkSettings {
  ai_enabled : option bool;
  ai_auto_processing_enabled : option bool;
  pending_stuck_threshold_minutes : option Z;
  nsfw_threshold : option Q;
  content_detection_enabled : option bool;
  sensitive_content_handling : option string;
  ai_analysis_enabled : option bool
}.

Module setting.
Definition GetBool (v : option bool) (defaultValue : bool) : bool :=
    match v with Some b => b | None => defaultValue end.
Definition GetString (v : option string) (defaultValue : string) : string :=
    match v with Some s => s | None => defaultValue end.
Definition GetFloat (v : option Q) (defaultValue : Q) : Q :=
    match v with Some q => q | None => defaultValue end.
End setting.

Record TaskQueue := mkTaskQueue {
  capacity : nat;
  queued : list string;
  inflight : list string
}.

Record TaggingService := mkTaggingService {
  paused : bool;
  taskQueue : option TaskQueue
}.

(** The labelled database statements. *)
Inductive Stmt :=
| StmtUpdateFileStatus
| StmtUpdateFileNSFWStatus
| StmtMarkFileForDeletion
| StmtMarkFileForReview
| StmtSaveFileAIInfo
| StmtUpdateIsRecommended
| StmtFileExists
| StmtCreateTagsFromNames
| StmtReplaceFileTags
| StmtCreatePendingVectorRecord
| StmtCreateTaggingLog
| StmtSetSkipped
| StmtTakeFile
| StmtSaveCategoryResult
| StmtSetDone
| StmtRecoverPluck
| StmtRecoverUpdates
| StmtRecoverFind
| StmtSetPending
| StmtResetStuck
| StmtPropFirstFile
| StmtPropFirstAIInfo
| StmtPropFindDups
| StmtPropUpsertAIInfo
| StmtPropUpdateDescription
| StmtPropCountRelations
| StmtPropFindRelations
| StmtPropCreateRelation
| StmtPropUpdates.

Inductive Task :=
| GoPropagateAIToDuplicates (originalID : string)
| GoStartupRecovery
| GoStuckRecoveryLoop
| GoRetentionLoop.

Inductive Event :=
| EvGo (t : Task)
| EvMarkFileForDeletion (fileID : string)
| EvMarkFileForReview (fileID reason : string)
| EvPerformAIImageCategorization (fileID : string)
| EvPerformAITagging (fileID : string)
| EvSaveCategoryResult (fileID : string)
| EvCreatePendingVectorRecord (fileID description : string)
| EvProcessSingleFile (fileID : string)
| EvBatchProcessFiles (fileIDs : list string)
| EvEnqueueAllPending (limit : Z)
| EvNotifyQueueStatsChange
| EvBroadcastToAdmins (fileID : string).

Record World := mkWorld {
  db_conn : bool;                       (* GetDBFromContext() != nil *)
  db_fault : Stmt -> option error;
  tbl_file : list File;
  tbl_file_ai_info : list FileAIInfo;
  tbl_file_global_tag_relation : list FileGlobalTagRelation;
  tbl_global_tag : list GlobalTag;
  tbl_file_tagging_log : list FileTaggingLog;
  settings : Settings;
  globalTaggingService : option TaggingService;
  newTaggingService : option TaggingService;   (* what the constructor yields *)
  now : Z;                              (* time.Now(), in minutes *)
  trace : list Event
}.

Definition with_file (v : list File) (w : World) : World :=
  mkWorld (db_conn w) (db_fault w) v (tbl_file_ai_info w)
          (tbl_file_global_tag_relation w) (tbl_global_tag w)
          (tbl_file_tagging_log w) (settings w) (globalTaggingService w)
          (newTaggingService w) (now w) (trace w).

Definition with_file_ai_info (v : list FileAIInfo) (w : World) : World :=
  mkWorld (db_conn w) (db_fault w) (tbl_file w) v
          (tbl_file_global_tag_relation w) (tbl_global_tag w)
          (tbl_file_tagging_log w) (settings w) (globalTaggingService w)
          (newTaggingService w) (now w) (trace w).

Definition with_relation (v : list FileGlobalTagRelation) (w : World) : World :=
  mkWorld (db_conn w) (db_fault w) (tbl_file w) (tbl_file_ai_info w) v
          (tbl_global_tag w) (tbl_file_tagging_log w) (settings w)
          (globalTaggingService w) (newTaggingService w) (now w) (trace w).

Definition with_global_tag (v : list GlobalTag) (w : World) : World :=
  mkWorld (db_conn w) (db_fault w) (tbl_file w) (tbl_file_ai_info w)
          (tbl_file_global_tag_relation w) v (tbl_file_tagging_log w)
          (settings w) (globalTaggingService w) (newTaggingService w) (now w)
          (trace w).

Definition with_tagging_log (v : list FileTaggingLog) (w : World) : World :=
  mkWorld (db_conn w) (db_fault w) (tbl_file w) (tbl_file_ai_info w)
          (tbl_file_global_tag_relation w) (tbl_global_tag w) v (settings w)
          (globalTaggingService w) (newTaggingService w) (now w) (trace w).

Definition with_service (v : option TaggingService) (w : World) : World :=
  mkWorld (db_conn w) (db_fault w) (tbl_file w) (tbl_file_ai_info w)
          (tbl_file_global_tag_relation w) (tbl_global_tag w)
          (tbl_file_tagging_log w) (settings w) v (newTaggingService w)
          (now w) (trace w).

Definition with_trace (v : list Event) (w : World) : World :=
  mkWorld (db_conn w) (db_fault w) (tbl_file w) (tbl_file_ai_info w)
          (tbl_file_global_tag_relation w) (tbl_global_tag w)
          (tbl_file_tagging_log w) (settings w) (globalTaggingService w)
          (newTaggingService w) (now w) v.

(* ================================================================== *)
(** ** The state monad the code runs in *)

Definition M (A : Type) : Type := World -> A * World.

Definition ret {A} (a : A) : M A := fun w => (a, w).

Definition bind {A B} (c : M A) (k : A -> M B) : M B :=
  fun w => let (a, w') := c w in k a w'.

Declare Scope go_scope.
Delimit Scope go_scope with go.
Notation "x <- c ;; k" := (bind c (fun x => k))
  (at level 61, c at next level, right associativity) : go_scope.
Notation "c ;;; k" := (bind c (fun _ => k))
  (at level 61, right associativity) : go_scope.
Open Scope go_scope.

Definition gets {A} (f : World -> A) : M A := fun w => (f w, w).

Definition modify (f : World -> World) : M unit := fun w => (tt, f w).

Definition emit (e : Event) : M unit :=
  modify (fun w => with_trace (trace w ++ [e]) w).

(** A statement that writes: it fails as the fault plan says, or applies. *)
Definition exec (s : Stmt) (f : World -> World) : M (option error) :=
  fun w => match db_fault w s with
           | Some e => (Some e, w)
           | None => (None, f w)
           end.

(** A statement that reads. *)
Definition query {A} (s : Stmt) (q : World -> A) : M (error + A) :=
  fun w => match db_fault w s with
           | Some e => (inl e, w)
           | None => (inr (q w), w)
           end.

(** [UPDATE file SET ... WHERE p]. *)
Definition update_file (p : File -> bool) (f : File -> File) (w : World)
  : World :=
  with_file (map (fun r => if p r then f r else r) (tbl_file w)) w.

Definition has_id (fileID : string) (r : File) : bool := String.eqb (ID r) fileID.

Definition ErrRecordNotFound : error := "record not found".
Definition errFileDeleted : error := "ai:file_deleted".
Definition errNoDB : error := "无法获取数据库连接".

(** A step that may end the enclosing function with an error ([Some err]);
    [None] lets it go on. *)
Notation "'check' c ;; k" :=
  (bind c (fun e => match e with Some err => ret (Some err) | None => k end))
  (at level 61, c at next level, right associativity) : go_scope.

(* ================================================================== *)
(** ** What the sources at hand take from elsewhere *)

(** [json.Unmarshal] of the raw provider reply into the OpenAI reply shape,
    giving the [message.content] of every choice ([None]: not decodable);
    the decoder of the provider payload; the confidence constant. *)
Class Externals := {
  jsonUnmarshalChoices : string -> option (list string);
  parseAITaggingResult : string -> error + AITaggingResult;
  AIDefaultConfidence : Q
}.

(** What the two provider calls of one run return. *)
Record Provider := mkProvider {
  performAIImageCategorizationOutsideTx : error + option Z;
  performAITagging : error + option AIFileResponse
}.

(* ================================================================== *)
(** ** The executor's helpers *)

(** The [updates] map of [updateFileStatus], applied to a row: the status,
    and [ai_tagging_tries + 1] when the status is [failed]. *)
Definition statusUpdates (status : AITaggingStatus) (r : File) : File :=
  let r' := set_AITaggingStatus status r in
  if status_eqb status AITaggingStatusFailed
  then set_AITaggingTries (AITaggingTries r + 1) r'
  else r'.

Definition updateFileStatus (fileID : string) (status : AITaggingStatus)
  : M (option error) :=
  exec StmtUpdateFileStatus
       (update_file (has_id fileID) (statusUpdates status)).

Definition updateFileNSFWStatus (fileID : string) (nsfw : bool)
  : M (option error) :=
  exec StmtUpdateFileNSFWStatus (update_file (has_id fileID) (set_NSFW nsfw)).

Definition fileExists (fileID : string) : M bool :=
  r <- query StmtFileExists
         (fun w => Z.of_nat (length (filter (has_id fileID) (tbl_file w)))) ;;
  match r with
  | inl _ => ret false
  | inr n => ret (0 <? n)%Z
  end.

Definition isDeadlockError (err : option error) : bool :=
  match err with
  | None => false
  | Some e =>
      let s := ToLower e in
      Contains s "deadlock found" || Contains s "error 1213"
  end.

Definition isNSFWRejection `{Externals} (aiResp : AIFileResponse) : bool :=
  if String.eqb (RawResponse aiResp) "" then false
  else match jsonUnmarshalChoices (RawResponse aiResp) with
       | None => false
       | Some contents =>
           existsb (fun content =>
                      Contains content "抱歉" ||
                      Contains content "无法处理" ||
                      Contains content "无法协助" ||
                      Contains content "不适合" ||
                      Contains content "不适当" ||
                      Contains content "违反") contents
       end.

(** Modelled from the spec: [markFileForDeletion] is not part of the sources
    at hand. The delete disposition soft-deletes the file: its row is marked
    [pending_deletion], the value [propagateAIToDuplicates] filters on. *)
Definition markFileForDeletion (fileID : string) : M (option error) :=
  emit (EvMarkFileForDeletion fileID) ;;;
  exec StmtMarkFileForDeletion
       (update_file (has_id fileID)
                    (set_Status constants.FileStatusPendingDeletion)).

(** Modelled from the spec: [markFileForReview] is not part of the sources at
    hand. The quarantine disposition puts the file in the moderation queue,
    that is in status [pending_review], with the detector's reason. *)
Definition markFileForReview (fileID nsfwReason : string) : M (option error) :=
  emit (EvMarkFileForReview fileID nsfwReason) ;;;
  exec StmtMarkFileForReview
       (update_file (has_id fileID)
                    (set_Status constants.FileStatusPendingReview)).

(** [INSERT ... ON CONFLICT (file_id) DO UPDATE] with [UpdateAll]: a row of
    that [file_id] takes every column of the new row but the primary key; with
    no such row the new one is appended under a fresh key. *)
Definition next_ai_id (t : list FileAIInfo) : Z :=
  1 + fold_right Z.max 0 (map AI_ID t).

Definition same_file (fileID : string) (r : FileAIInfo) : bool :=
  String.eqb (AI_FileID r) fileID.

Definition upsert_ai_info (row : FileAIInfo) (t : list FileAIInfo)
  : list FileAIInfo :=
  if existsb (same_file (AI_FileID row)) t
  then map (fun r => if same_file (AI_FileID row) r
                     then set_AI_ID (AI_ID r) row else r) t
  else t ++ [set_AI_ID (next_ai_id t) row].

(** Modelled from the spec: [saveFileAIInfo] is not part of the sources at
    hand. It persists the parsed result by an UPSERT keyed by fileID. *)
Definition saveFileAIInfo (fileID : string) (result : AITaggingResult)
           (usage : option Usage) : M (option error) :=
  let row :=
    mkFileAIInfo 0 fileID (ResultDescription result) (Tags result)
                 (BasicInfo_Resolution result) (IsNSFW (Safety result))
                 (NSFWScore (Safety result)) (NSFWReason (Safety result))
                 (match usage with Some u => TotalTokens u | None => 0 end) in
  exec StmtSaveFileAIInfo
       (fun w => with_file_ai_info (upsert_ai_info row (tbl_file_ai_info w)) w).

(** Modelled from the spec: [createPendingVectorRecord] is not part of the
    sources at hand. It hands the description to the vector-indexing stage. *)
Definition createPendingVectorRecord (fileID description : string)
  : M (option error) :=
  emit (EvCreatePendingVectorRecord fileID description) ;;;
  exec StmtCreatePendingVectorRecord (fun w => w).

Definition next_tag_id (t : list GlobalTag) : Z :=
  1 + fold_right Z.max 0 (map Tag_ID t).

(** Modelled from the spec: [CreateTagsFromNames] is not part of the sources
    at hand. A tag row is created only when no row has that name; the tags
    come back in the order of the names. *)
Fixpoint create_tags_from_names (names : list string) (t : list GlobalTag)
  : list GlobalTag * list GlobalTag :=
  match names with
  | [] => ([], t)
  | n :: names' =>
      match find (fun g => String.eqb (Tag_Name g) n) t with
      | Some g =>
          let (gs, t') := create_tags_from_names names' t in (g :: gs, t')
      | None =>
          let g := mkGlobalTag (next_tag_id t) n in
          let (gs, t') := create_tags_from_names names' (t ++ [g]) in
          (g :: gs, t')
      end
  end.

(** The statement around [create_tags_from_names]. *)
Definition CreateTagsFromNames (names : list string) (userID : Z)
           (source : string) : M (error + list GlobalTag) :=
  fun w => match db_fault w StmtCreateTagsFromNames with
           | Some e => (inl e, w)
           | None =>
               let (gs, t') := create_tags_from_names names (tbl_global_tag w) in
               (inr gs, with_global_tag t' w)
           end.

(** Modelled from the spec: [ReplaceFileTagsTx] is not part of the sources at
    hand. The file's associations of the given source are replaced by one
    association per tag ID. *)
Definition replace_file_tags (fileID : string) (tagIDs : list Z)
           (source : string) (confidence : Q)
           (t : list FileGlobalTagRelation) : list FileGlobalTagRelation :=
  filter (fun r => negb (String.eqb (Rel_FileID r) fileID
                         && String.eqb (Rel_Source r) source)) t
  ++ map (fun tagID => mkRel fileID tagID 0 "" source confidence) tagIDs.

(** The statement around [replace_file_tags]. *)
Definition ReplaceFileTagsTx (fileID : string) (tagIDs : list Z)
           (source : string) (confidence : Q) : M (option error) :=
  exec StmtReplaceFileTags
       (fun w => with_relation
                   (replace_file_tags fileID tagIDs source confidence
                      (tbl_file_global_tag_relation w)) w).

Definition processAndSaveTags `{Externals} (file : File) (tags : list string)
  : M (option error) :=
  match tags with
  | [] => ret None
  | _ =>
      r <- CreateTagsFromNames tags (UserID file) "ai" ;;
      match r with
      | inl err => ret (Some err)
      | inr globalTags =>
          let tagIDs := map Tag_ID globalTags in
          ReplaceFileTagsTx (ID file) tagIDs "ai" AIDefaultConfidence
      end
  end.

(* ================================================================== *)
(** ** processAIResponse *)

(** The error branch the source repeats after each persistence step:
    a deadlock on a file that is gone reports [errFileDeleted]; anything else
    marks the job failed and returns the error. *)
Definition onPersistError (fileID : string) (err : error) : M (option error) :=
  gone <- (if isDeadlockError (Some err)
           then (e <- fileExists fileID ;; ret (negb e))
           else ret false) ;;
  if gone then ret (Some errFileDeleted)
  else updateFileStatus fileID AITaggingStatusFailed ;;; ret (Some err).

Definition saveTags `{Externals} (file : File) (tags : list string)
  : M (option error) :=
  e <- processAndSaveTags file tags ;;
  match e with
  | Some err => onPersistError (ID file) err
  | None => ret None
  end.

Definition processAIResponse `{Externals} (file : File)
           (aiResp : option AIFileResponse) (contentDetectionEnabled : bool)
           (sensitiveContentHandling : string) (base64Data imageFormat : string)
  : M (option error) :=
  let fileID := ID file in
  match match aiResp with
        | Some r => if Success r then Some r else None
        | None => None
        end with
  | None =>
      (* aiResp == nil || !aiResp.Success *)
      let errMsg :=
        match aiResp with
        | Some r => if String.eqb (ErrMsg r) "" then "AI分析返回无效结果"
                    else ErrMsg r
        | None => "AI分析返回无效结果"
        end in
      let rejection :=
        match aiResp with
        | Some r => contentDetectionEnabled && isNSFWRejection r
        | None => false
        end in
      if rejection then
        (if String.eqb sensitiveContentHandling "auto_delete"
         then markFileForDeletion fileID ;;; ret tt
         else
           updateFileNSFWStatus fileID true ;;;
           (if String.eqb sensitiveContentHandling "pending_review"
            then
              let nsfwReason :=
                match aiResp with
                | Some r => if String.eqb (ErrMsg r) ""
                            then "AI检测到违规内容，详细原因不可用"
                            else ErrMsg r
                | None => "AI检测到违规内容，详细原因不可用"
                end in
              markFileForReview fileID nsfwReason ;;; ret tt
            else ret tt)) ;;;
        updateFileStatus fileID AITaggingStatusDone ;;;
        ret (Some ("文件 " ++ fileID ++ " 疑似违规内容，AI拒绝处理"))
      else
        updateFileStatus fileID AITaggingStatusFailed ;;;
        ret (Some errMsg)
  | Some resp =>
      match parseAITaggingResult (Data resp) with
      | inl err =>
          updateFileStatus fileID AITaggingStatusFailed ;;; ret (Some err)
      | inr parsed =>
          let result :=
            if String.eqb (Resolution file) "" then parsed
            else set_BasicInfo_Resolution (Resolution file) parsed in
          (* UPSERT of the AI information *)
          check (e <- saveFileAIInfo fileID result (RespUsage resp) ;;
                 match e with
                 | Some err => onPersistError fileID err
                 | None => ret None
                 end) ;;
          (* the recommendation is written back only when the AI recommends *)
          check (if ResultIsRecommended result
                 then
                   e <- exec StmtUpdateIsRecommended
                          (update_file (has_id fileID) (set_IsRecommended true)) ;;
                   match e with
                   | Some err =>
                       if isDeadlockError (Some err)
                       then (ex <- fileExists fileID ;;
                             if negb ex then ret (Some errFileDeleted)
                             else ret None)
                       else ret None
                   | None => ret None
                   end
                 else ret None) ;;
          (* tags *)
          check (if negb contentDetectionEnabled
                    || negb (IsNSFW (Safety result))
                 then saveTags file (Tags result)
                 else if String.eqb sensitiveContentHandling "auto_delete"
                 then markFileForDeletion fileID ;;; ret None
                 else if String.eqb sensitiveContentHandling "pending_review"
                 then
                   markFileForReview fileID (NSFWReason (Safety result)) ;;;
                   saveTags file (Tags result)
                 else saveTags file (Tags result)) ;;
          (* the NSFW flag *)
          check (if contentDetectionEnabled && IsNSFW (Safety result)
                 then
                   e <- updateFileNSFWStatus fileID true ;;
                   match e with
                   | Some err => onPersistError fileID err
                   | None => ret None
                   end
                 else ret None) ;;
          updateFileStatus fileID AITaggingStatusDone ;;;
          (if negb (String.eqb (ResultDescription result) "")
           then createPendingVectorRecord fileID (ResultDescription result) ;;;
                ret tt
           else ret tt) ;;;
          (match RespUsage resp with
           | Some u =>
               exec StmtCreateTaggingLog
                    (fun w => with_tagging_log
                                (tbl_file_tagging_log w ++
                                 [mkLog fileID AITaggingStatusDone
                                        TaggingActionAuto
                                        "tagging.ai_completed" (Some u)]) w) ;;;
               ret tt
           | None => ret tt
           end) ;;;
          emit (EvGo (GoPropagateAIToDuplicates fileID)) ;;;
          ret None
      end
  end.

(* ================================================================== *)
(** ** propagateAIToDuplicates *)

Definition is_duplicate_of (originalID : string) (r : File) : bool :=
  String.eqb (OriginalFileID r) originalID
  && negb (String.eqb (Status r) "pending_deletion").

Definition relations_of (fileID : string) (t : list FileGlobalTagRelation)
  : list FileGlobalTagRelation :=
  filter (fun r => String.eqb (Rel_FileID r) fileID) t.

(** The relation [nr] built for a duplicate from a relation of the original. *)
Definition retarget (dupID : string) (r : FileGlobalTagRelation)
  : FileGlobalTagRelation :=
  mkRel dupID (Rel_TagID r) (Rel_UserID r) (Rel_AccessLevel r) (Rel_Source r)
        (Rel_Confidence r).

(** One [db.Create(&nr)] of the inner loop; its error is dropped. *)
Definition copyRelation (dupID : string) (r : FileGlobalTagRelation)
  : M unit :=
  exec StmtPropCreateRelation
       (fun w => with_relation
                   (tbl_file_global_tag_relation w ++ [retarget dupID r]) w) ;;;
  ret tt.

(** The [clone] of the original's AI information made for a duplicate. *)
Definition cloneFor (dupID : string) (origAI : FileAIInfo) : FileAIInfo :=
  set_AI_FileID dupID (set_AI_ID 0 origAI).

(** The [updates] map of [propagateAIToDuplicates], applied to a row. *)
Definition doneUpdates (orig : File) (r : File) : File :=
  let r' := set_AITaggingStatus AITaggingStatusDone r in
  match CategoryID orig with
  | Some c => set_Category c (CategorySource orig) r'
  | None => r'
  end.

Fixpoint forEach {A} (body : A -> M unit) (l : list A) : M unit :=
  match l with
  | [] => ret tt
  | x :: l' => body x ;;; forEach body l'
  end.

(** The body of [for _, dup := range dups]. *)
Definition propagateToDuplicate (originalID : string) (orig : File)
           (origAI : FileAIInfo) (dup : File) : M unit :=
  (* the AI information, by UPSERT *)
  (if negb (String.eqb (AI_FileID origAI) "")
   then
     let clone := cloneFor (ID dup) origAI in
     exec StmtPropUpsertAIInfo
          (fun w => with_file_ai_info
                      (upsert_ai_info clone (tbl_file_ai_info w)) w) ;;;
     (if negb (String.eqb (AI_Description clone) "")
      then exec StmtPropUpdateDescription
                (update_file (has_id (ID dup))
                             (set_Description (AI_Description clone))) ;;;
           ret tt
      else ret tt)
   else ret tt) ;;;
  (* the tags, when the duplicate has none *)
  (c <- query StmtPropCountRelations
          (fun w => Z.of_nat (length (relations_of (ID dup)
                                        (tbl_file_global_tag_relation w)))) ;;
   match c with
   | inr 0 =>
       rels <- query StmtPropFindRelations
                 (fun w => relations_of originalID
                             (tbl_file_global_tag_relation w)) ;;
       match rels with
       | inr rs => forEach (copyRelation (ID dup)) rs
       | inl _ => ret tt
       end
   | _ => ret tt
   end) ;;;
  (* the job is done, under the original's category *)
  exec StmtPropUpdates (update_file (has_id (ID dup)) (doneUpdates orig)) ;;;
  ret tt.

Definition propagateAIToDuplicates (originalID : string) : M unit :=
  up <- gets db_conn ;;
  if negb up then ret tt
  else
    o <- query StmtPropFirstFile
           (fun w => find (has_id originalID) (tbl_file w)) ;;
    match o with
    | inl _ | inr None => ret tt
    | inr (Some orig) =>
        a <- query StmtPropFirstAIInfo
               (fun w => find (same_file originalID) (tbl_file_ai_info w)) ;;
        let origAI := match a with
                      | inr (Some r) => r
                      | _ => zeroFileAIInfo
                      end in
        d <- query StmtPropFindDups
               (fun w => filter (is_duplicate_of originalID) (tbl_file w)) ;;
        match d with
        | inl _ => ret tt
        | inr dups => forEach (propagateToDuplicate originalID orig origAI) dups
        end
    end.

(* ================================================================== *)
(** ** AiImageTaggingAndSaveWithBase64 *)

Definition setSkipped (fileID : string) : M (option error) :=
  exec StmtSetSkipped
       (update_file (has_id fileID)
                    (set_AITaggingStatus AITaggingStatusSkipped)).

(** [saveCategoryResultIfNeeded] is not part of the sources at hand; the call
    is recorded, its writes (the file's category columns) are not modelled. *)
Definition saveCategoryResultIfNeeded (fileID : string)
           (categoryResult : option Z) : M (option error) :=
  emit (EvSaveCategoryResult fileID) ;;;
  exec StmtSaveCategoryResult (fun w => w).

Definition AiImageTaggingAndSaveWithBase64 `{Externals} (prov : Provider)
           (file : File) (base64Data imageFormat : string)
  : M (option error) :=
  up <- gets db_conn ;;
  if negb up then ret (Some errNoDB)
  else
    s <- gets settings ;;
    let contentDetectionEnabled :=
      setting.GetBool (content_detection_enabled s) true in
    let sensitiveContentHandling :=
      setting.GetString (sensitive_content_handling s) "mark_only" in
    let aiAnalysisEnabled := setting.GetBool (ai_analysis_enabled s) true in
    if negb aiAnalysisEnabled then setSkipped (ID file)
    else
      emit (EvPerformAIImageCategorization (ID file)) ;;;
      match performAIImageCategorizationOutsideTx prov with
      | inl _ => setSkipped (ID file) ;;; ret None
      | inr categoryResult =>
          emit (EvPerformAITagging (ID file)) ;;;
          match performAITagging prov with
          | inl _ => setSkipped (ID file) ;;; ret None
          | inr aiResponse =>
              t <- query StmtTakeFile
                     (fun w => find (has_id (ID file)) (tbl_file w)) ;;
              match t with
              | inl err =>
                  if String.eqb err ErrRecordNotFound
                  then ret (Some errFileDeleted) else ret (Some err)
              | inr None => ret (Some errFileDeleted)
              | inr (Some _) =>
                  saveCategoryResultIfNeeded (ID file) categoryResult ;;;
                  processAIResponse file aiResponse contentDetectionEnabled
                                    sensitiveContentHandling base64Data
                                    imageFormat ;;;
                  exec StmtSetDone
                       (update_file (has_id (ID file))
                          (set_AITaggingStatus AITaggingStatusDone))
              end
          end
      end.

(* ================================================================== *)
(** ** The queue service *)

Definition GetGlobalTaggingService : M (option TaggingService) :=
  gets globalTaggingService.

Definition SetGlobalTaggingService (service : option TaggingService)
  : M unit :=
  modify (with_service service).

(** Modelled from the spec: [Pause] and [IsPaused] are not part of the sources
    at hand. Pausing raises the flag that stops workers from pulling new
    items; the pool stays. It acts on the instance the global pointer
    holds. *)
Definition Pause : M unit :=
  modify (fun w =>
            match globalTaggingService w with
            | Some s => with_service (Some (mkTaggingService true (taskQueue s))) w
            | None => w
            end).

Definition IsPaused : M bool :=
  gets (fun w => match globalTaggingService w with
                 | Some s => paused s
                 | None => false
                 end).

(** Modelled from the spec: [EnqueueUnique] is not part of the sources at
    hand. An ID already queued or in flight is left alone without an error; a
    saturated queue answers with an error; otherwise the ID is queued. *)
Definition enqueue_unique (fileID : string) (q : TaskQueue)
  : option error * TaskQueue :=
  if existsb (String.eqb fileID) (queued q ++ inflight q)%list then (None, q)
  else if Nat.leb (capacity q) (length (queued q)) then (Some "queue full", q)
  else (None, mkTaskQueue (capacity q) (queued q ++ [fileID]) (inflight q)).

Definition EnqueueUnique (fileID : string) (priority : Z) : M (option error) :=
  fun w =>
    match globalTaggingService w with
    | Some s =>
        match taskQueue s with
        | Some q =>
            let (e, q') := enqueue_unique fileID q in
            (e, with_service (Some (mkTaggingService (paused s) (Some q'))) w)
        | None => (None, w)
        end
    | None => (None, w)
    end.

(** Calls into the service whose bodies are not part of the sources at hand.
    The call is recorded with its argument; what the callee goes on to do to
    the store is not modelled. [ProcessSingleFile] and [BatchProcessFiles]
    run in the caller's goroutine, so a run that makes one of these calls is
    described up to the call. *)
Definition ProcessSingleFile (file : File) : M unit :=
  emit (EvProcessSingleFile (ID file)).

Definition BatchProcessFiles (files : list File) : M unit :=
  emit (EvBatchProcessFiles (map ID files)).


Definition notifyQueueStatsChange : M unit := emit EvNotifyQueueStatsChange.

Definition is_pending (r : File) : bool :=
  status_eqb (AITaggingStatus_ r) AITaggingStatusPending.

Definition id_in (ids : list string) (r : File) : bool :=
  existsb (String.eqb (ID r)) ids.

(** [q.Limit(limit)] is applied only for a positive limit. *)
Definition limited {A} (limit : Z) (rows : list A) : list A :=
  if (0 <? limit)%Z then firstn (Z.to_nat limit) rows else rows.

Definition RecoverPendingOnStartup (limit : Z) : M (Z * option error) :=
  up <- gets db_conn ;;
  if negb up then ret (0, Some errNoDB)
  else
    (* the transaction: pluck the ids, then update those rows *)
    p <- query StmtRecoverPluck
           (fun w => map ID (limited limit (filter is_pending (tbl_file w)))) ;;
    match p with
    | inl err => ret (0, Some err)
    | inr affectedIDs =>
        e <- match affectedIDs with
             | [] => ret None
             | _ =>
                 exec StmtRecoverUpdates
                      (update_file (id_in affectedIDs)
                         (fun r => set_AITaggingTries 0
                                     (set_AITaggingStatus AITaggingStatusNone r)))
             end ;;
        match e with
        | Some err => ret (0, Some err)
        | None =>
            let n := Z.of_nat (length affectedIDs) in
            (if (0 <? n)%Z
             then
               svc <- GetGlobalTaggingService ;;
               match svc with
               | Some _ =>
                   images <- query StmtRecoverFind
                               (fun w => filter (id_in affectedIDs) (tbl_file w)) ;;
                   match images with
                   | inr (i :: is') => BatchProcessFiles (i :: is')
                   | _ => ret tt
                   end
               | None => ret tt
               end
             else ret tt) ;;;
            ret (n, None)
        end
    end.

Definition InitGlobalTaggingQueue : M (option error) :=
  g <- GetGlobalTaggingService ;;
  match g with
  | Some _ => ret None
  | None =>
      s <- gets settings ;;
      if negb (setting.GetBool (ai_enabled s) false) then ret None
      else
        up <- gets db_conn ;;
        if negb up then ret (Some errNoDB)
        else
          svc <- gets newTaggingService ;;       (* NewTaggingServiceWithConfig *)
          match svc with
          | None => ret (Some "创建TaggingService失败")
          | Some svc =>
              SetGlobalTaggingService (Some svc) ;;;
              (if negb (setting.GetBool (ai_auto_processing_enabled s) true)
               then Pause else ret tt) ;;;
              emit (EvGo GoStartupRecovery) ;;;
              emit (EvGo GoStuckRecoveryLoop) ;;;
              emit (EvGo GoRetentionLoop) ;;;
              ret None
          end
  end.

Definition AddFileToQueue (file : File) : M (option error) :=
  g <- GetGlobalTaggingService ;;
  svc <- match g with
         | None => InitGlobalTaggingQueue ;;; GetGlobalTaggingService
         | Some _ => ret g
         end ;;
  match svc with
  | None => ret None
  | Some s =>
      up <- gets db_conn ;;
      if negb up then ret (Some errNoDB)
      else
        t <- gets now ;;
        exec StmtSetPending
             (update_file (has_id (ID file))
                (fun r => set_AILastHeartbeatAt t
                            (set_AITaggingStatus AITaggingStatusPending r))) ;;;
        match taskQueue s with
        | Some _ =>
            e <- EnqueueUnique (ID file) 0 ;;
            match e with
            | Some _ =>
                p <- IsPaused ;;
                if p then ret None
                else ProcessSingleFile file ;;; ret None
            | None =>
                notifyQueueStatsChange ;;;
                p <- IsPaused ;;
                (if p then emit (EvBroadcastToAdmins (ID file)) else ret tt) ;;;
                ret None
            end
        | None =>
            p <- IsPaused ;;
            if p then ret None
            else ProcessSingleFile file ;;; ret None
        end
  end.

(* ================================================================== *)
(** ** The stuck-job recovery loop *)






(* ================================================================== *)
(** ** Observations *)

(** What a run did to the file, read off the trace it added and the row it
    left: the file was marked for deletion, or sent to review, or stays
    served (with or without the NSFW flag). *)
Inductive Disposition :=
| Publish (flagged : bool)
| Quarantine
| Delete.

Definition is_deletion_of (fileID : string) (e : Event) : bool :=
  match e with
  | EvMarkFileForDeletion f => String.eqb f fileID
  | _ => false
  end.

Definition is_review_of (fileID : string) (e : Event) : bool :=
  match e with
  | EvMarkFileForReview f _ => String.eqb f fileID
  | _ => false
  end.

Definition appliedDisposition (fileID : string) (before after : World)
  : Disposition :=
  let added := skipn (length (trace before)) (trace after) in
  if existsb (is_deletion_of fileID) added then Delete
  else if existsb (is_review_of fileID) added then Quarantine
  else Publish (existsb (fun r => has_id fileID r && NSFW r) (tbl_file after)).

Definition is_provider_call (e : Event) : bool :=
  match e with
  | EvPerformAIImageCategorization _ | EvPerformAITagging _ => true
  | _ => false
  end.

Definition no_faults (w : World) : Prop := forall s, db_fault w s = None.




Definition reset_for_recovery (r : File) : File :=
  set_AITaggingTries 0 (set_AITaggingStatus AITaggingStatusNone r).

(* ================================================================== *)
(** ** Sample data for the concrete runs *)

Definition sampleResult (nsfw : bool) (score : Q) (tags : list string)
  : AITaggingResult :=
  mkAITaggingResult "" (mkContentSafety nsfw score "reason") "a photo" false
                    tags.

(** A stand-in for the two decoders, for the concrete runs only: the raw
    reply counts as the content of its single choice, and the payload is one
    of a few named results. *)
#[local] Instance sampleExternals : Externals := {|
  jsonUnmarshalChoices := fun raw => Some [raw];
  parseAITaggingResult := fun data =>
    if String.eqb data "unflagged-0.9" then inr (sampleResult false (9 # 10)%Q ["cat"])
    else if String.eqb data "flagged-0.3" then inr (sampleResult true (3 # 10)%Q ["cat"])
    else if String.eqb data "flagged-0.9" then inr (sampleResult true (9 # 10)%Q ["cat"])
    else inl "invalid payload";
  AIDefaultConfidence := 1%Q
|}.

Definition sampleFile (id original status : string) (st : AITaggingStatus)
           (tries heartbeat : Z) : File :=
  mkFile id 7 original status "" "" false false None "" st tries heartbeat.

Definition sampleSettings : Settings :=
  mkSettings (Some true) (Some true) (Some 5) (Some (6 # 10)%Q) (Some true)
             (Some "auto_delete") (Some true).

Definition sampleWorld (files : list File) (svc : option TaggingService)
  : World :=
  mkWorld true (fun _ => None) files [] [] [] [] sampleSettings svc
          (Some (mkTaggingService false (Some (mkTaskQueue 2 [] []))))
          100 [].

Definition sampleResponse (data : string) : AIFileResponse :=
  mkAIFileResponse true "" "" data None.

(** A reply the provider refused: unsuccessful, with a refusal text. *)
Definition sampleRefusal : AIFileResponse :=
  mkAIFileResponse false "refused" "抱歉，我无法处理这张图片" "" None.

(** *** What a fault-free run of [processAIResponse] leaves

    For a successful response whose payload decodes to [parsed], the tables
    and the trace a run without store faults ends with, written out step by
    step in the order of the source. *)

Definition effectiveResult (file : File) (parsed : AITaggingResult)
  : AITaggingResult :=
  if String.eqb (Resolution file) "" then parsed
  else set_BasicInfo_Resolution (Resolution file) parsed.

Definition aiInfoRow (fileID : string) (result : AITaggingResult)
           (usage : option Usage) : FileAIInfo :=
  mkFileAIInfo 0 fileID (ResultDescription result) (Tags result)
               (BasicInfo_Resolution result) (IsNSFW (Safety result))
               (NSFWScore (Safety result)) (NSFWReason (Safety result))
               (match usage with Some u => TotalTokens u | None => 0 end).

(** The detection counts: content detection is on and the result is flagged. *)
Definition sensitive (contentDetectionEnabled : bool)
           (result : AITaggingResult) : bool :=
  contentDetectionEnabled && IsNSFW (Safety result).

(** Tags are saved unless the detection counts under [auto_delete]. *)
Definition savesTags (contentDetectionEnabled : bool)
           (sensitiveContentHandling : string) (result : AITaggingResult)
  : bool :=
  negb (sensitive contentDetectionEnabled result
        && String.eqb sensitiveContentHandling "auto_delete").

Definition relationsAfterTags `{Externals} (fileID : string)
           (tags : list string) (tg : list GlobalTag)
           (t : list FileGlobalTagRelation) : list FileGlobalTagRelation :=
  match tags with
  | [] => t
  | _ => replace_file_tags fileID
           (map Tag_ID (fst (create_tags_from_names tags tg))) "ai"
           AIDefaultConfidence t
  end.

Definition globalTagsAfterTags (tags : list string) (tg : list GlobalTag)
  : list GlobalTag :=
  match tags with
  | [] => tg
  | _ => snd (create_tags_from_names tags tg)
  end.

Definition policyEvents (fileID : string) (contentDetectionEnabled : bool)
           (sensitiveContentHandling : string) (result : AITaggingResult)
  : list Event :=
  if sensitive contentDetectionEnabled result
  then if String.eqb sensitiveContentHandling "auto_delete"
       then [EvMarkFileForDeletion fileID]
       else if String.eqb sensitiveContentHandling "pending_review"
            then [EvMarkFileForReview fileID (NSFWReason (Safety result))]
            else []
  else [].

Definition vectorEvents (fileID : string) (result : AITaggingResult)
  : list Event :=
  if String.eqb (ResultDescription result) "" then []
  else [EvCreatePendingVectorRecord fileID (ResultDescription result)].

Definition rowAfterRun (contentDetectionEnabled : bool)
           (sensitiveContentHandling : string) (result : AITaggingResult)
           (r : File) : File :=
  let r1 := if ResultIsRecommended result then set_IsRecommended true r else r in
  let r2 :=
    if sensitive contentDetectionEnabled result
    then if String.eqb sensitiveContentHandling "auto_delete"
         then set_Status constants.FileStatusPendingDeletion r1
         else if String.eqb sensitiveContentHandling "pending_review"
              then set_Status constants.FileStatusPendingReview r1
              else r1
    else r1 in
  let r3 := if sensitive contentDetectionEnabled result
            then set_NSFW true r2 else r2 in
  statusUpdates AITaggingStatusDone r3.

(** The steps of a fault-free run, as world transformers, and their
    composition. *)
Definition stepSaveAIInfo (row : FileAIInfo) (w : World) : World :=
  with_file_ai_info (upsert_ai_info row (tbl_file_ai_info w)) w.

Definition stepRecommended (fileID : string) (result : AITaggingResult)
           (w : World) : World :=
  if ResultIsRecommended result
  then update_file (has_id fileID) (set_IsRecommended true) w else w.

Definition stepSaveTags `{Externals} (fileID : string) (tags : list string)
           (w : World) : World :=
  match tags with
  | [] => w
  | _ =>
      with_relation
        (relationsAfterTags fileID tags (tbl_global_tag w)
                            (tbl_file_global_tag_relation w))
        (with_global_tag (globalTagsAfterTags tags (tbl_global_tag w)) w)
  end.

Definition stepMark (e : Event) (status : string) (fileID : string) (w : World)
  : World :=
  update_file (has_id fileID) (set_Status status)
              (with_trace (trace w ++ [e]) w).

Definition stepPolicy `{Externals} (fileID : string) (cde : bool) (sch : string)
           (result : AITaggingResult) (w : World) : World :=
  if sensitive cde result
  then if String.eqb sch "auto_delete"
       then stepMark (EvMarkFileForDeletion fileID)
                     constants.FileStatusPendingDeletion fileID w
       else if String.eqb sch "pending_review"
            then stepSaveTags fileID (Tags result)
                   (stepMark (EvMarkFileForReview fileID
                                (NSFWReason (Safety result)))
                             constants.FileStatusPendingReview fileID w)
            else stepSaveTags fileID (Tags result) w
  else stepSaveTags fileID (Tags result) w.

Definition stepNSFW (fileID : string) (cde : bool) (result : AITaggingResult)
           (w : World) : World :=
  if sensitive cde result
  then update_file (has_id fileID) (set_NSFW true) w else w.

Definition stepDone (fileID : string) (w : World) : World :=
  update_file (has_id fileID) (statusUpdates AITaggingStatusDone) w.

Definition stepVector (fileID : string) (result : AITaggingResult) (w : World)
  : World :=
  if String.eqb (ResultDescription result) "" then w
  else with_trace (trace w ++
                   [EvCreatePendingVectorRecord fileID
                      (ResultDescription result)]) w.

Definition stepLog (fileID : string) (usage : option Usage) (w : World)
  : World :=
  match usage with
  | Some u =>
      with_tagging_log
        (tbl_file_tagging_log w ++
         [mkLog fileID AITaggingStatusDone TaggingActionAuto
                "tagging.ai_completed" (Some u)]) w
  | None => w
  end.

Definition stepGo (fileID : string) (w : World) : World :=
  with_trace (trace w ++ [EvGo (GoPropagateAIToDuplicates fileID)]) w.

Definition afterRun `{Externals} (file : File) (usage : option Usage)
           (cde : bool) (sch : string) (result : AITaggingResult) (w : World)
  : World :=
  stepGo (ID file)
    (stepLog (ID file) usage
       (stepVector (ID file) result
          (stepDone (ID file)
             (stepNSFW (ID file) cde result
                (stepPolicy (ID file) cde sch result
                   (stepRecommended (ID file) result
                      (stepSaveAIInfo (aiInfoRow (ID file) result usage)
                                      w))))))).

(** A computation that leaves the two tag tables as it found them. *)
Definition keeps_tags {A} (c : M A) : Prop :=
  forall w,
    tbl_file_global_tag_relation (snd (c w)) = tbl_file_global_tag_relation w /\
    tbl_global_tag (snd (c w)) = tbl_global_tag w.

(** One of the two provider calls of the run returns an error. *)
Definition providerFails (prov : Provider) : bool :=
  match performAIImageCategorizationOutsideTx prov with
  | inl _ => true
  | inr _ => match performAITagging prov with
             | inl _ => true
             | inr _ => false
             end
  end.

Definition sampleOutage : Provider :=
  mkProvider (inl "provider timeout") (inl "provider timeout").

(** The events a run added to the trace. *)
Definition addedEvents (before after : World) : list Event :=
  skipn (length (trace before)) (trace after).

(** The queue does not take the ID: there is no queue, or [EnqueueUnique]
    answers with an error. *)
Definition refusedByQueue (s : TaggingService) (fileID : string) : bool :=
  match taskQueue s with
  | Some q => match fst (enqueue_unique fileID q) with
              | Some _ => true
              | None => false
              end
  | None => true
  end.

Definition markedPending (now_ : Z) (r : File) : File :=
  set_AILastHeartbeatAt now_ (set_AITaggingStatus AITaggingStatusPending r).

Definition disabledSettings : Settings :=
  mkSettings (Some false) (Some true) (Some 5) (Some (6 # 10)%Q) (Some true)
             (Some "auto_delete") (Some true).

(** The feature switched off: no service instance, [ai_enabled] false. *)
Definition disabledWorld (files : list File) : World :=
  mkWorld true (fun _ => None) files [] [] [] [] disabledSettings None
          (Some (mkTaggingService false (Some (mkTaskQueue 2 [] []))))
          100 [].

(** A paused service whose queue of capacity 1 is full. *)
Definition pausedFullService : TaggingService :=
  mkTaggingService true (Some (mkTaskQueue 1 ["z"] [])).

Definition runningFullService : TaggingService :=
  mkTaggingService false (Some (mkTaskQueue 1 ["z"] [])).


Definition runningService : TaggingService :=
  mkTaggingService false (Some (mkTaskQueue 2 [] [])).

(** *** What a fault-free propagation leaves

    The three writes of the loop body of [propagateAIToDuplicates] for one
    duplicate, as functions on the tables. *)

Definition copyAIInfo (origAI : FileAIInfo) (dupID : string)
           (t : list FileAIInfo) : list FileAIInfo :=
  if String.eqb (AI_FileID origAI) "" then t
  else upsert_ai_info (cloneFor dupID origAI) t.

Definition copyTags (originalID dupID : string)
           (t : list FileGlobalTagRelation) : list FileGlobalTagRelation :=
  match relations_of dupID t with
  | [] => (t ++ map (retarget dupID) (relations_of originalID t))%list
  | _ :: _ => t
  end.

Definition copyToRow (orig : File) (origAI : FileAIInfo) (r : File) : File :=
  doneUpdates orig
    (if String.eqb (AI_FileID origAI) "" then r
     else if String.eqb (AI_Description origAI) "" then r
          else set_Description (AI_Description origAI) r).

Definition propagateStep (originalID : string) (orig : File)
           (origAI : FileAIInfo) (dupID : string) (w : World) : World :=
  with_file (map (fun r => if has_id dupID r then copyToRow orig origAI r
                           else r) (tbl_file w))
    (with_relation (copyTags originalID dupID
                             (tbl_file_global_tag_relation w))
       (with_file_ai_info (copyAIInfo origAI dupID (tbl_file_ai_info w)) w)).

Definition originalAIInfo (originalID : string) (w : World) : FileAIInfo :=
  match find (same_file originalID) (tbl_file_ai_info w) with
  | Some r => r
  | None => zeroFileAIInfo
  end.

Definition duplicateIDs (originalID : string) (w : World) : list string :=
  map ID (filter (is_duplicate_of originalID) (tbl_file w)).

Definition isnil {A} (l : list A) : bool :=
  match l with [] => true | _ :: _ => false end.

(** The AI information of [dupID] is a copy of [origAI]: the table has a row
    for it, and every row it has is the clone, up to the primary key. *)
Definition clonedTo (origAI : FileAIInfo) (dupID : string)
           (t : list FileAIInfo) : Prop :=
  (exists r, In r t /\ AI_FileID r = dupID) /\
  (forall r, In r t -> AI_FileID r = dupID ->
             r = set_AI_ID (AI_ID r) (cloneFor dupID origAI)).

(** What [propagateAIToDuplicates] may do to a row, whatever the store does:
    the tries counter stays, and the job status stays or becomes [done]. *)
Definition doneOrKept (r r' : File) : Prop :=
  ID r' = ID r /\
  AITaggingTries r' = AITaggingTries r /\
  (AITaggingStatus_ r' = AITaggingStatus_ r \/
   AITaggingStatus_ r' = AITaggingStatusDone).

Definition keeps_jobs {A} (c : M A) : Prop :=
  forall w, Forall2 doneOrKept (tbl_file w) (tbl_file (snd (c w))) /\
            trace (snd (c w)) = trace w.

(** An original ["a"] with its AI information and one tag, and three files
    recorded as its duplicates: ["b"] is marked [pending_deletion], ["c"]
    already has a tag of its own, ["d"] has nothing yet. *)
Definition propagationWorld : World :=
  mkWorld true (fun _ => None)
          [sampleFile "a" "" "normal" AITaggingStatusDone 0 0;
           sampleFile "b" "a" "pending_deletion" AITaggingStatusPending 0 0;
           sampleFile "c" "a" "normal" AITaggingStatusPending 0 0;
           sampleFile "d" "a" "normal" AITaggingStatusPending 0 0]
          [mkFileAIInfo 1 "a" "a photo" ["cat"] "" false (1 # 10)%Q "" 0]
          [mkRel "a" 1 7 "" "ai" 1%Q; mkRel "c" 9 7 "" "manual" 1%Q]
          [mkGlobalTag 1 "cat"; mkGlobalTag 9 "mine"] [] sampleSettings None
          None 100 [].

(** *** What a run of the executor may do to the jobs, whatever the store does

    A row of another file stays as it is. The row of the job keeps its ID, a
    recommendation and an NSFW flag it has are never taken back, and its tries
    counter grows by at most [d]. *)
Definition jobStep (fileID : string) (d : Z) (r r' : File) : Prop :=
  ID r' = ID r /\
  (has_id fileID r = false -> r' = r) /\
  (IsRecommended r = true -> IsRecommended r' = true) /\
  (NSFW r = true -> NSFW r' = true) /\
  AITaggingTries r <= AITaggingTries r' <= AITaggingTries r + d.

(** A computation that leaves the tries counters alone. *)
Definition calm {A} (fileID : string) (c : M A) : Prop :=
  forall w, Forall2 (jobStep fileID 0) (tbl_file w) (tbl_file (snd (c w))).

(** The failed attempts a run may count: one when it reports an error, none
    when it does not. *)
Definition failureBudget (e : option error) : Z :=
  match e with Some _ => 1 | None => 0 end.

Definition guarded (fileID : string) (c : M (option error)) : Prop :=
  forall w, Forall2 (jobStep fileID (failureBudget (fst (c w))))
                    (tbl_file w) (tbl_file (snd (c w))).

(** The goroutines a run starts for the propagation to duplicates. *)
Definition is_propagation (e : Event) : bool :=
  match e with
  | EvGo (GoPropagateAIToDuplicates _) => true
  | _ => false
  end.

(** A computation that only appends to the trace, and starts no propagation. *)
Definition noPropagation {A} (c : M A) : Prop :=
  forall w, exists added,
    trace (snd (c w)) = (trace w ++ added)%list /\
    filter is_propagation added = [].

(** A computation that starts the propagation for [fileID] once when it
    reports no error, and not at all when it reports one. *)
Definition propagatesIffOk (fileID : string) (c : M (option error)) : Prop :=
  forall w, exists added,
    trace (snd (c w)) = (trace w ++ added)%list /\
    filter is_propagation added =
    match fst (c w) with
    | None => [EvGo (GoPropagateAIToDuplicates fileID)]
    | Some _ => []
    end.

(** The message [processAIResponse] returns for a reply it cannot use. *)
Definition unusableReplyMessage (aiResp : option AIFileResponse) : error :=
  match aiResp with
  | Some r => if String.eqb (ErrMsg r) "" then "AI分析返回无效结果" else ErrMsg r
  | None => "AI分析返回无效结果"
  end.

(** The row [updateFileStatus] leaves for a failed attempt. *)
Definition failedAttempt (r : File) : File :=
  set_AITaggingTries (AITaggingTries r + 1)
                     (set_AITaggingStatus AITaggingStatusFailed r).

(** A reply without the payload the decoder accepts. *)
Definition sampleFailure : AIFileResponse :=
  mkAIFileResponse false "quota exceeded" "" "" None.

(** A computation that leaves one component of the world, read by [proj], as
    it found it. *)
Definition preserves {A B} (proj : World -> B) (c : M A) : Prop :=
  forall w, proj (snd (c w)) = proj w.

(** MySQL's report of a deadlock, and a store that answers the UPSERT of the
    AI information with it. *)
Definition deadlockError : error :=
  "Error 1213: Deadlock found when trying to get lock".

Definition deadlockOnSave (s : Stmt) : option error :=
  match s with
  | StmtSaveFileAIInfo => Some deadlockError
  | _ => None
  end.

Definition deadlockWorld (files : list File) : World :=
  mkWorld true deadlockOnSave files [] [] [] [] sampleSettings None None 100 [].

(** The row a skipped job is left with. *)
Definition skippedRow (r : File) : File :=
  set_AITaggingStatus AITaggingStatusSkipped r.

(** Both provider calls answer; the second with [aiResponse]. *)
Definition answers (aiResponse : option AIFileResponse) : Provider :=
  mkProvider (inr None) (inr aiResponse).

(** The settings with the AI analysis of uploads switched off. *)
Definition analysisOffSettings : Settings :=
  mkSettings (Some true) (Some true) (Some 5) (Some (6 # 10)%Q) (Some true)
             (Some "auto_delete") (Some false).

Definition analysisOffWorld (files : list File) : World :=
  mkWorld true (fun _ => None) files [] [] [] [] analysisOffSettings None None
          100 [].

(** The rows [RecoverPendingOnStartup] selects, and the table it leaves. *)
Definition recoveredIDs (limit : Z) (w : World) : list string :=
  map ID (limited limit (filter is_pending (tbl_file w))).

Definition recoveredRows (limit : Z) (w : World) : list File :=
  map (fun r => if id_in (recoveredIDs limit w) r
                then reset_for_recovery r else r) (tbl_file w).

(** What a computation may do to the store when it works for the files
    [ids] only: tag relations are appended, each for one of [ids]; the AI
    information of the other files and the rows of the other files stay; IDs
    stay; the global tags stay. *)
Definition worksFor (ids : list string) (w w' : World) : Prop :=
  (exists more,
      tbl_file_global_tag_relation w' =
        (tbl_file_global_tag_relation w ++ more)%list /\
      Forall (fun x => In (Rel_FileID x) ids) more) /\
  (forall i, ~ In i ids ->
             filter (same_file i) (tbl_file_ai_info w') =
             filter (same_file i) (tbl_file_ai_info w)) /\
  Forall2 (fun r r' => ID r' = ID r /\ (~ In (ID r) ids -> r' = r))
          (tbl_file w) (tbl_file w') /\
  tbl_global_tag w' = tbl_global_tag w /\
  tbl_file_tagging_log w' = tbl_file_tagging_log w.

Definition touchesOnly {A} (ids : list string) (c : M A) : Prop :=
  forall w, worksFor ids w (snd (c w)).

(** The world in which [processAIResponse] is called: the two provider calls
    and the saving of the category are on the trace. *)
Definition beforeResponse (file : File) (w : World) : World :=
  with_trace (trace w ++ [EvPerformAIImageCategorization (ID file);
                          EvPerformAITagging (ID file);
                          EvSaveCategoryResult (ID file)]) w.

(* ================================================================== *)
(** ** The reuse of an analysis at upload time

    [reuseAnalysisAndVectorForDuplicate] of package [file]: the caller starts
    it for an upload whose content is already stored ([OriginalFileID] is
    set). It works on the same tables as [propagateAIToDuplicates], through
    [database.DB], taken to be set. Every error of the store is logged and
    dropped, so a failing statement only leaves its write undone. *)

Record UploadContext := mkUploadContext {
  Ctx_FileID : string;
  Ctx_OriginalFileID : string
}.

(** The labelled database statements of the function. *)
Inductive ReuseStmt :=
| ReuseFirstAIInfo
| ReuseDeleteAIInfo
| ReuseCreateAIInfo
| ReuseUpdateDescription
| ReuseFindRelations
| ReuseCreateRelation
| ReuseFirstFile
| ReuseUpdates.

(** A write whose error is dropped. *)
Definition attempt (plan : ReuseStmt -> option error) (s : ReuseStmt)
           (f : World -> World) : M unit :=
  fun w => match plan s with
           | Some _ => (tt, w)
           | None => (tt, f w)
           end.

(** A read that is used only when it succeeds. *)
Definition lookup {A} (plan : ReuseStmt -> option error) (s : ReuseStmt)
           (q : World -> option A) : M (option A) :=
  fun w => match plan s with
           | Some _ => (None, w)
           | None => (q w, w)
           end.

(** [db.Create(&clone)] with [clone.ID = 0]: the row is appended under a
    fresh key. *)
Definition create_ai_info (row : FileAIInfo) (t : list FileAIInfo)
  : list FileAIInfo :=
  (t ++ [set_AI_ID (next_ai_id t) row])%list.

(** [db.Where("file_id = ?", newID).Delete(&models.FileAIInfo{})]. *)
Definition delete_ai_info (fileID : string) (t : list FileAIInfo)
  : list FileAIInfo :=
  filter (fun r => negb (same_file fileID r)) t.

(** The last block of the function reads the AI information of the new file
    for [desc] and, when [vector.IsVectorEnabled()] holds and the global
    engine is there and enabled ([vectorOn] below), calls
    [eng.CloneVectorFrom(origID, newID, desc)], whose error is only logged.
    The engine is not part of the sources at hand: the call is returned
    beside the error, by its two IDs ([desc] comes from a column the rows
    here do not carry). *)
Definition VectorClone : Type := string * string.

(** The first block: the AI information. The rows of the new file are
    deleted and the clone of the original's row is created. *)
Definition reuseAIInfo (plan : ReuseStmt -> option error) (ctx : UploadContext)
  : M unit :=
  let newID := Ctx_FileID ctx in
  let origID := Ctx_OriginalFileID ctx in
  a <- lookup plan ReuseFirstAIInfo
         (fun w => find (same_file origID) (tbl_file_ai_info w)) ;;
  match a with
  | Some origAI =>
      let clone := cloneFor newID origAI in
      attempt plan ReuseDeleteAIInfo
              (fun w => with_file_ai_info
                          (delete_ai_info newID (tbl_file_ai_info w)) w) ;;;
      attempt plan ReuseCreateAIInfo
              (fun w => with_file_ai_info
                          (create_ai_info clone (tbl_file_ai_info w)) w) ;;;
      (if negb (String.eqb (AI_Description clone) "")
       then attempt plan ReuseUpdateDescription
                    (update_file (has_id newID)
                                 (set_Description (AI_Description clone)))
       else ret tt)
  | None => ret tt
  end.

(** The second block: one new relation for each tag relation of the
    original. *)
Definition reuseTagRelations (plan : ReuseStmt -> option error)
           (ctx : UploadContext) : M unit :=
  let newID := Ctx_FileID ctx in
  let origID := Ctx_OriginalFileID ctx in
  rels <- lookup plan ReuseFindRelations
            (fun w => Some (relations_of origID
                              (tbl_file_global_tag_relation w))) ;;
  match rels with
  | Some rs =>
      forEach (fun r => attempt plan ReuseCreateRelation
                          (fun w => with_relation
                                      (tbl_file_global_tag_relation w
                                       ++ [retarget newID r]) w)) rs
  | None => ret tt
  end.

(** The third block: the category of the original. *)
Definition reuseCategory (plan : ReuseStmt -> option error)
           (ctx : UploadContext) : M unit :=
  let newID := Ctx_FileID ctx in
  let origID := Ctx_OriginalFileID ctx in
  o <- lookup plan ReuseFirstFile
         (fun w => find (has_id origID) (tbl_file w)) ;;
  match o with
  | Some origImg =>
      match CategoryID origImg with
      | Some c =>
          attempt plan ReuseUpdates
                  (update_file (has_id newID)
                               (set_Category c (CategorySource origImg)))
      | None => ret tt
      end
  | None => ret tt
  end.

Definition reuseAnalysisAndVectorForDuplicate
           (plan : ReuseStmt -> option error) (vectorOn : bool)
           (ctx : UploadContext) : M (option error * option VectorClone) :=
  reuseAIInfo plan ctx ;;;
  reuseTagRelations plan ctx ;;;
  reuseCategory plan ctx ;;;
  ret (None, if vectorOn
             then Some (Ctx_OriginalFileID ctx, Ctx_FileID ctx) else None).

(** A store that carries out every statement. *)
Definition noReuseFaults : ReuseStmt -> option error := fun _ => None.

(** After a reuse, the AI information of [newID] is one row, the clone of
    [origAI]. *)
Definition onlyClone (origAI : FileAIInfo) (newID : string)
           (t : list FileAIInfo) : Prop :=
  exists k, filter (same_file newID) t = [set_AI_ID k (cloneFor newID origAI)].

(** An upload ["n"] of the content of ["a"], which carries AI information
    and one tag; ["n"] has a stale row of AI information and a tag already. *)
Definition reuseWorld : World :=
  mkWorld true (fun _ => None)
          [sampleFile "a" "" "normal" AITaggingStatusDone 0 0;
           sampleFile "n" "a" "normal" AITaggingStatusNone 0 0]
          [mkFileAIInfo 1 "a" "a photo" ["cat"] "" false (1 # 10)%Q "" 0;
           mkFileAIInfo 2 "n" "stale" [] "" false 0%Q "" 0]
          [mkRel "a" 1 7 "" "ai" 1%Q; mkRel "n" 9 7 "" "manual" 1%Q]
          [mkGlobalTag 1 "cat"; mkGlobalTag 9 "mine"] [] sampleSettings None
          None 100 [].

(** A computation after which every row of the file table is related by [R]
    to the row it was. *)
Definition keepsRows (R : File -> File -> Prop) {A} (c : M A) : Prop :=
  forall w, Forall2 R (tbl_file w) (tbl_file (snd (c w))).

(** What the reuse at upload time may do to a row: only the description and
    the category of the new file are written. *)
Definition sameJob (newID : string) (r r' : File) : Prop :=
  ID r' = ID r /\ UserID r' = UserID r /\
  OriginalFileID r' = OriginalFileID r /\ Status r' = Status r /\
  Resolution r' = Resolution r /\ NSFW r' = NSFW r /\
  IsRecommended r' = IsRecommended r /\
  AITaggingStatus_ r' = AITaggingStatus_ r /\
  AITaggingTries r' = AITaggingTries r /\
  AILastHeartbeatAt r' = AILastHeartbeatAt r /\
  (has_id newID r = false -> r' = r).

(** The row of the new file after a reuse the store carries out. *)
Definition reusedRow (origAI : option FileAIInfo) (orig : option File)
           (r : File) : File :=
  let r1 := match origAI with
            | Some a => if String.eqb (AI_Description a) "" then r
                        else set_Description (AI_Description a) r
            | None => r
            end in
  match orig with
  | Some o => match CategoryID o with
              | Some c => set_Category c (CategorySource o) r1
              | None => r1
              end
  | None => r1
  end.

(* ================================================================== *)
(** ** Package [errors], as the template service uses it

    An [*Error] is kept by its code, message and detail; the stack, the time
    and the metadata play no part below. A Go [error] is a plain error of
    the store, by its text, or an [*Error]. *)

Record Error := mkError {
  Code : Z;
  Message : string;
  Detail : string
}.

Inductive GoError :=
| PlainError (msg : string)
| CodedError (e : Error).

Definition CodeInternal : Z := 2.
Definition CodeNotFound : Z := 104.
Definition CodeConflict : Z := 107.
Definition CodeDBQueryFailed : Z := 2001.
Definition CodeDBCreateFailed : Z := 2002.
Definition CodeDBUpdateFailed : Z := 2003.
Definition CodeDBDeleteFailed : Z := 2004.
Definition CodeDBDuplicate : Z := 2006.

(** [errors.New]; [errorCodeToMessage] is the table of default messages. *)
Definition New (errorCodeToMessage : Z -> option string) (code : Z)
           (detail : string) : Error :=
  let message := match errorCodeToMessage code with
                 | Some m => m
                 | None => "未知错误"
                 end in
  let finalMessage := if String.eqb message detail then message else detail in
  mkError code finalMessage detail.

(** [%d] of package [fmt]. *)
Definition itoa (n : Z) : string := NilZero.string_of_int (Z.to_int n).

(** [(e *Error) Error()]. *)
Definition ErrorText (e : Error) : string :=
  if negb (String.eqb (Detail e) "")
  then "[" ++ itoa (Code e) ++ "] " ++ Message e ++ ": " ++ Detail e
  else "[" ++ itoa (Code e) ++ "] " ++ Message e.

Definition GoErrorText (err : GoError) : string :=
  match err with
  | PlainError msg => msg
  | CodedError e => ErrorText e
  end.

(** [errors.Wrap] of an error that is not nil. *)
Definition Wrap (errorCodeToMessage : Z -> option string)
           (err : GoError) (code : Z) (detail : string) : Error :=
  match err with
  | CodedError e => e
  | PlainError _ =>
      let e := New errorCodeToMessage code detail in
      mkError (Code e) (Message e) (detail ++ ": " ++ GoErrorText err)
  end.

(* ================================================================== *)
(** ** Package [category]: the template service

    The store of the service: the table of templates with its
    auto-increment counter, and the table of user categories, of which only
    [template_id] is read. A statement fails as the fault plan says, with an
    error other than [gorm.ErrRecordNotFound], and then changes nothing. *)

(** Go's [int], 64 bits wide on the targets the server is built for: a sum
    that leaves the range wraps around. *)
Definition MaxInt : Z := 2 ^ 63 - 1.
Definition MinInt : Z := - 2 ^ 63.

Definition wrap_int (z : Z) : Z := (z + 2 ^ 63) mod 2 ^ 64 - 2 ^ 63.

Record CategoryTemplate := mkCategoryTemplate {
  T_ID : Z;
  T_Name : string;
  T_Description : string;
  T_Icon : string;
  T_IsPopular : bool;
  T_SortOrder : Z;
  T_UsageCount : Z
}.

Record FileCategory := mkFileCategory {
  FC_ID : Z;
  FC_TemplateID : option Z
}.

Record CreateTemplateRequest := mkCreateTemplateRequest {
  Req_Name : string;
  Req_Description : string;
  Req_Icon : string;
  Req_IsPopular : bool;
  Req_SortOrder : Z
}.

Record UpdateTemplateRequest := mkUpdateTemplateRequest {
  Upd_Name : string;
  Upd_Description : string;
  Upd_Icon : string;
  Upd_IsPopular : option bool;
  Upd_SortOrder : option Z
}.

Inductive TemplateStmt :=
| TFirstByName
| TScanMaxOrder
| TCreate
| TFirst
| TFirstOtherByName
| TUpdates
| TReread
| TCountCategories
| TDelete
| TIncrement
| TBegin
| TUpdateSortOrder (templateID : Z)
| TCommit.

Record Catalog := mkCatalog {
  service_db : bool;                    (* s.db != nil *)
  database_DB : bool;                   (* database.DB != nil *)
  catalog_fault : TemplateStmt -> option string;
  tbl_category_template : list CategoryTemplate;
  next_template_id : Z;
  tbl_file_category : list FileCategory
}.

Definition with_service_db (v : bool) (c : Catalog) : Catalog :=
  mkCatalog v (database_DB c) (catalog_fault c) (tbl_category_template c)
            (next_template_id c) (tbl_file_category c).

Definition with_templates (v : list CategoryTemplate) (c : Catalog) : Catalog :=
  mkCatalog (service_db c) (database_DB c) (catalog_fault c) v
            (next_template_id c) (tbl_file_category c).

Definition with_next_template_id (v : Z) (c : Catalog) : Catalog :=
  mkCatalog (service_db c) (database_DB c) (catalog_fault c)
            (tbl_category_template c) v (tbl_file_category c).

(** The outcome of a [First]: a row, [gorm.ErrRecordNotFound], or another
    error. *)
Inductive Lookup (A : Type) :=
| Found (a : A)
| NotFound
| Failed (e : string).
Arguments Found {A} a.
Arguments NotFound {A}.
Arguments Failed {A} e.

Definition First {A} (c : Catalog) (s : TemplateStmt) (p : A -> bool)
           (rows : list A) : Lookup A :=
  match catalog_fault c s with
  | Some e => Failed e
  | None => match find p rows with
            | Some a => Found a
            | None => NotFound
            end
  end.

Definition has_template_id (id : Z) (t : CategoryTemplate) : bool :=
  Z.eqb (T_ID t) id.

Definition has_name (name : string) (t : CategoryTemplate) : bool :=
  String.eqb (T_Name t) name.

(** [COALESCE(MAX(sort_order), 0)]. *)
Definition max_sort_order (rows : list CategoryTemplate) : Z :=
  match rows with
  | [] => 0
  | t :: rows' => fold_left Z.max (map T_SortOrder rows') (T_SortOrder t)
  end.

Definition set_T_SortOrder (v : Z) (t : CategoryTemplate) : CategoryTemplate :=
  mkCategoryTemplate (T_ID t) (T_Name t) (T_Description t) (T_Icon t)
                     (T_IsPopular t) v (T_UsageCount t).

Definition set_T_UsageCount (v : Z) (t : CategoryTemplate) : CategoryTemplate :=
  mkCategoryTemplate (T_ID t) (T_Name t) (T_Description t) (T_Icon t)
                     (T_IsPopular t) (T_SortOrder t) v.

(** [UPDATE category_template SET ... WHERE id = ?]. *)
Definition update_template (id : Z) (f : CategoryTemplate -> CategoryTemplate)
           (c : Catalog) : Catalog :=
  with_templates (map (fun t => if has_template_id id t then f t else t)
                      (tbl_category_template c)) c.

Section TemplateService.
Variable errorCodeToMessage : Z -> option string.

Definition getDB (c : Catalog) : option Error * Catalog :=
  let c1 := if service_db c then c else with_service_db (database_DB c) c in
  if service_db c1 then (None, c1)
  else (Some (New errorCodeToMessage CodeInternal "数据库未初始化"), c1).

Definition CreateTemplate (req : CreateTemplateRequest) (c : Catalog)
  : (Error + CategoryTemplate) * Catalog :=
  match getDB c with
  | (Some err, c1) => (inl err, c1)
  | (None, c1) =>
      match First c1 TFirstByName (has_name (Req_Name req))
                  (tbl_category_template c1) with
      | Found _ =>
          (inl (New errorCodeToMessage CodeDBDuplicate "分类模板名称已存在"), c1)
      | Failed e =>
          (inl (Wrap errorCodeToMessage (PlainError e) CodeDBQueryFailed
                     "检查分类模板名称失败"), c1)
      | NotFound =>
          let sortOrder :=
            if Z.eqb (Req_SortOrder req) 0
            then (* the error of the Scan is not looked at *)
              let maxOrder :=
                match catalog_fault c1 TScanMaxOrder with
                | Some _ => 0
                | None => max_sort_order (tbl_category_template c1)
                end in
              wrap_int (maxOrder + 1)
            else Req_SortOrder req in
          match catalog_fault c1 TCreate with
          | Some e =>
              (inl (Wrap errorCodeToMessage (PlainError e)
                         CodeDBCreateFailed "创建分类模板失败"), c1)
          | None =>
              let template :=
                mkCategoryTemplate (next_template_id c1) (Req_Name req)
                                   (Req_Description req) (Req_Icon req)
                                   (Req_IsPopular req) sortOrder 0 in
              (inr template,
               with_next_template_id (next_template_id c1 + 1)
                 (with_templates (tbl_category_template c1 ++ [template]) c1))
          end
      end
  end.

Definition GetTemplate (id : Z) (c : Catalog)
  : (Error + CategoryTemplate) * Catalog :=
  match getDB c with
  | (Some err, c1) => (inl err, c1)
  | (None, c1) =>
      match First c1 TFirst (has_template_id id) (tbl_category_template c1) with
      | Found template => (inr template, c1)
      | NotFound =>
          (inl (New errorCodeToMessage CodeNotFound "分类模板不存在"), c1)
      | Failed e =>
          (inl (Wrap errorCodeToMessage (PlainError e) CodeDBQueryFailed
                     "获取分类模板失败"), c1)
      end
  end.

(** The [updates] map of [UpdateTemplate], applied to a row. *)
Definition templateUpdates (req : UpdateTemplateRequest) (t : CategoryTemplate)
  : CategoryTemplate :=
  mkCategoryTemplate
    (T_ID t)
    (if negb (String.eqb (Upd_Name req) "") then Upd_Name req else T_Name t)
    (if negb (String.eqb (Upd_Description req) "")
     then Upd_Description req else T_Description t)
    (if negb (String.eqb (Upd_Icon req) "") then Upd_Icon req else T_Icon t)
    (match Upd_IsPopular req with Some b => b | None => T_IsPopular t end)
    (match Upd_SortOrder req with Some n => n | None => T_SortOrder t end)
    (T_UsageCount t).

(** [len(updates) > 0]. *)
Definition hasUpdates (req : UpdateTemplateRequest) : bool :=
  negb (String.eqb (Upd_Name req) "")
  || negb (String.eqb (Upd_Description req) "")
  || negb (String.eqb (Upd_Icon req) "")
  || (match Upd_IsPopular req with Some _ => true | None => false end)
  || (match Upd_SortOrder req with Some _ => true | None => false end).

Definition UpdateTemplate (id : Z) (req : UpdateTemplateRequest) (c : Catalog)
  : (Error + CategoryTemplate) * Catalog :=
  match getDB c with
  | (Some err, c1) => (inl err, c1)
  | (None, c1) =>
      match First c1 TFirst (has_template_id id) (tbl_category_template c1) with
      | NotFound =>
          (inl (New errorCodeToMessage CodeNotFound "分类模板不存在"), c1)
      | Failed e =>
          (inl (Wrap errorCodeToMessage (PlainError e) CodeDBQueryFailed
                     "获取分类模板失败"), c1)
      | Found template =>
          let nameCheck :=
            if negb (String.eqb (Upd_Name req) "")
               && negb (String.eqb (Upd_Name req) (T_Name template))
            then
              match First c1 TFirstOtherByName
                          (fun t => has_name (Upd_Name req) t
                                    && negb (has_template_id id t))
                          (tbl_category_template c1) with
              | Found _ =>
                  Some (New errorCodeToMessage CodeDBDuplicate
                            "分类模板名称已存在")
              | Failed e =>
                  Some (Wrap errorCodeToMessage (PlainError e)
                             CodeDBQueryFailed "检查分类模板名称失败")
              | NotFound => None
              end
            else None in
          match nameCheck with
          | Some err => (inl err, c1)
          | None =>
              let written :=
                if hasUpdates req
                then match catalog_fault c1 TUpdates with
                     | Some e =>
                         inl (Wrap errorCodeToMessage (PlainError e)
                                   CodeDBUpdateFailed "更新分类模板失败")
                     | None =>
                         inr (update_template (T_ID template)
                                              (templateUpdates req) c1)
                     end
                else inr c1 in
              match written with
              | inl err => (inl err, c1)
              | inr c2 =>
                  match First c2 TReread (has_template_id id)
                              (tbl_category_template c2) with
                  | Found t => (inr t, c2)
                  | NotFound =>
                      (inl (Wrap errorCodeToMessage
                                 (PlainError ErrRecordNotFound)
                                 CodeDBQueryFailed "获取更新后的分类模板失败"),
                       c2)
                  | Failed e =>
                      (inl (Wrap errorCodeToMessage (PlainError e)
                                 CodeDBQueryFailed "获取更新后的分类模板失败"),
                       c2)
                  end
              end
          end
      end
  end.

Definition uses_template (id : Z) (fc : FileCategory) : bool :=
  match FC_TemplateID fc with
  | Some t => Z.eqb t id
  | None => false
  end.

Definition DeleteTemplate (id : Z) (c : Catalog) : option Error * Catalog :=
  match getDB c with
  | (Some err, c1) => (Some err, c1)
  | (None, c1) =>
      match First c1 TFirst (has_template_id id) (tbl_category_template c1) with
      | NotFound =>
          (Some (New errorCodeToMessage CodeNotFound "分类模板不存在"), c1)
      | Failed e =>
          (Some (Wrap errorCodeToMessage (PlainError e) CodeDBQueryFailed
                      "获取分类模板失败"), c1)
      | Found template =>
          match catalog_fault c1 TCountCategories with
          | Some e =>
              (Some (Wrap errorCodeToMessage (PlainError e)
                          CodeDBQueryFailed "检查模板使用情况失败"), c1)
          | None =>
              let userCategoryCount :=
                Z.of_nat (length (filter (uses_template id)
                                         (tbl_file_category c1))) in
              if (0 <? userCategoryCount)%Z
              then (Some (New errorCodeToMessage CodeConflict
                              ("该模板正在被 " ++ itoa userCategoryCount
                               ++ " 个用户分类使用，无法删除")), c1)
              else
                match catalog_fault c1 TDelete with
                | Some e =>
                    (Some (Wrap errorCodeToMessage (PlainError e)
                                CodeDBDeleteFailed "删除分类模板失败"), c1)
                | None =>
                    (None,
                     with_templates
                       (filter (fun t => negb (has_template_id (T_ID template) t))
                               (tbl_category_template c1)) c1)
                end
          end
      end
  end.

Definition IncrementUsageCount (templateID : Z) (c : Catalog)
  : option Error * Catalog :=
  match getDB c with
  | (Some err, c1) => (Some err, c1)
  | (None, c1) =>
      match catalog_fault c1 TIncrement with
      | Some e =>
          (Some (Wrap errorCodeToMessage (PlainError e) CodeDBUpdateFailed
                      "增加模板使用次数失败"), c1)
      | None =>
          (None, update_template templateID
                   (fun t => set_T_UsageCount (T_UsageCount t + 1) t) c1)
      end
  end.

(** The loop of [BatchUpdateSortOrder] inside its transaction, over the
    entries of the map in the order the iteration yields them. *)
Fixpoint updateSortOrders (sortOrders : list (Z * Z)) (c : Catalog)
  : option string * Catalog :=
  match sortOrders with
  | [] => (None, c)
  | (templateID, sortOrder) :: rest =>
      match catalog_fault c (TUpdateSortOrder templateID) with
      | Some e => (Some e, c)
      | None =>
          updateSortOrders rest
            (update_template templateID (set_T_SortOrder sortOrder) c)
      end
  end.

(** [sortOrders] is a Go map: its keys are distinct, and the list gives them
    in the order of one iteration. [db.Transaction] begins, runs the loop and
    commits; a transaction that fails anywhere is rolled back. *)
Definition BatchUpdateSortOrder (sortOrders : list (Z * Z)) (c : Catalog)
  : option GoError * Catalog :=
  match getDB c with
  | (Some err, c1) => (Some (CodedError err), c1)
  | (None, c1) =>
      match catalog_fault c1 TBegin with
      | Some e => (Some (PlainError e), c1)
      | None =>
          match updateSortOrders sortOrders c1 with
          | (Some e, _) => (Some (PlainError e), c1)
          | (None, c2) =>
              match catalog_fault c1 TCommit with
              | Some e => (Some (PlainError e), c1)
              | None => (None, c2)
              end
          end
      end
  end.

End TemplateService.

(** The store is well formed: keys are distinct and below the counter, and
    names are distinct, as [CreateTemplate] and [UpdateTemplate] see to. *)
Definition catalog_wf (c : Catalog) : Prop :=
  NoDup (map T_ID (tbl_category_template c)) /\
  NoDup (map T_Name (tbl_category_template c)) /\
  Forall (fun t => T_ID t < next_template_id c) (tbl_category_template c).

(** Sample data: no default messages, and two templates, the second one in
    use by a user category. *)
Definition noMessages : Z -> option string := fun _ => None.

Definition sampleCatalog : Catalog :=
  mkCatalog true true (fun _ => None)
            [mkCategoryTemplate 1 "Nature" "" "" true 1 0;
             mkCategoryTemplate 2 "People" "portraits" "" false 2 5]
            3
            [mkFileCategory 1 (Some 2); mkFileCategory 2 None].

(** The sort order a map of sort orders gives a template: the one under its
    key, or the one it has. *)
Definition has_key (id : Z) (p : Z * Z) : bool := Z.eqb (fst p) id.

Definition sortOrderFrom (sortOrders : list (Z * Z)) (t : CategoryTemplate)
  : CategoryTemplate :=
  match find (has_key (T_ID t)) sortOrders with
  | Some p => set_T_SortOrder (snd p) t
  | None => t
  end.

(** One update of the loop of [BatchUpdateSortOrder], on a row. *)
Definition sortOrderStep (t : CategoryTemplate) (p : Z * Z) : CategoryTemplate :=
  if has_template_id (fst p) t then set_T_SortOrder (snd p) t else t.

(** No update of the map fails. *)
Definition updatesGoThrough (c : Catalog) (sortOrders : list (Z * Z)) : bool :=
  forallb (fun p => match catalog_fault c (TUpdateSortOrder (fst p)) with
                    | Some _ => false
                    | None => true
                    end) sortOrders.

(* ================================================================== *)
(** * Properties *)

(** ** Tables *)

Lemma Forall2_map_pointwise {A} (P : A -> A -> Prop) (g : A -> A) (t : list A) :
  (forall r, In r t -> P r (g r)) -> Forall2 P t (map g t).
Proof.
  induction t as [|r t IH]; simpl; intros Hp; constructor.
  - apply Hp; now left.
  - apply IH; intros; apply Hp; now right.
Qed.



Lemma updateFileStatus_ok fileID status w :
  db_fault w StmtUpdateFileStatus = None ->
  updateFileStatus fileID status w =
  (None, update_file (has_id fileID) (statusUpdates status) w).
Proof. intros H; unfold updateFileStatus, exec; now rewrite H. Qed.



(** ** Startup recovery *)

Lemma limited_length {A} (limit : Z) (l : list A) :
  0 < limit -> Z.of_nat (length (limited limit l)) <= limit.
Proof.
  intros H. unfold limited.
  destruct (0 <? limit) eqn:E; [|apply Z.ltb_ge in E; lia].
  rewrite length_firstn. lia.
Qed.

Lemma limited_nonpositive {A} (limit : Z) (l : list A) :
  limit <= 0 -> limited limit l = l.
Proof.
  intros H. unfold limited.
  destruct (0 <? limit) eqn:E; [apply Z.ltb_lt in E; lia | reflexivity].
Qed.

Lemma In_limited {A} (limit : Z) (l : list A) (x : A) :
  In x (limited limit l) -> In x l.
Proof.
  unfold limited. destruct (0 <? limit); [|trivial].
  intros H. rewrite <- (firstn_skipn (Z.to_nat limit) l).
  apply in_or_app; now left.
Qed.

Lemma selected_are_pending (limit : Z) (t : list File) (i : string) :
  In i (map ID (limited limit (filter is_pending t))) ->
  exists r, In r t /\ ID r = i /\ AITaggingStatus_ r = AITaggingStatusPending.
Proof.
  intros H. apply in_map_iff in H as (r & Hid & Hin).
  apply In_limited, filter_In in Hin as [Hin Hp].
  exists r; repeat split; trivial.
  unfold is_pending in Hp. now destruct (AITaggingStatus_ r).
Qed.

Lemma Forall2_same {A} (t : list A) : Forall2 (fun r r' => r' = r) t t.
Proof. induction t; constructor; auto. Qed.

(** C10 (as amended). Startup recovery either fails, and then reports zero
    and leaves the file table as it was, or succeeds, and then: the files it
    selected all had status [pending]; their number is what it returns and,
    for a positive limit, is at most the limit, while a limit that is not
    positive selects every pending file; exactly the rows of the selected ids
    now have status [none] and a tries counter of 0, and every other row is
    unchanged. *)
Theorem RecoverPendingOnStartup_resets_selected (limit : Z) (w : World) :
  let ids := map ID (limited limit (filter is_pending (tbl_file w))) in
  let res := RecoverPendingOnStartup limit w in
  match snd (fst res) with
  | Some _ => fst (fst res) = 0 /\ tbl_file (snd res) = tbl_file w
  | None =>
      fst (fst res) = Z.of_nat (length ids) /\
      (0 < limit -> fst (fst res) <= limit) /\
      (limit <= 0 -> ids = map ID (filter is_pending (tbl_file w))) /\
      (forall i, In i ids ->
                 exists r, In r (tbl_file w) /\ ID r = i /\
                           AITaggingStatus_ r = AITaggingStatusPending) /\
      Forall2 (fun r r' => if id_in ids r
                           then r' = reset_for_recovery r else r' = r)
              (tbl_file w) (tbl_file (snd res))
  end.
Proof.
  intros ids res.
  assert (Hlen : 0 < limit -> Z.of_nat (length ids) <= limit).
  { intros H. unfold ids. rewrite length_map. now apply limited_length. }
  assert (Hall : limit <= 0 -> ids = map ID (filter is_pending (tbl_file w))).
  { intros H. unfold ids. now rewrite limited_nonpositive. }
  assert (Hpend : forall i, In i ids ->
                 exists r, In r (tbl_file w) /\ ID r = i /\
                           AITaggingStatus_ r = AITaggingStatusPending).
  { intros i. apply selected_are_pending. }
  unfold res, RecoverPendingOnStartup, bind, gets, query, exec, ret.
  destruct (db_conn w); cbn -[Z.of_nat]; [|auto].
  destruct (db_fault w StmtRecoverPluck) eqn:Epl; cbn -[Z.of_nat]; [auto|].
  fold ids. destruct ids as [|i ids'] eqn:Eids.
  - cbn. repeat split; auto; try lia; try tauto. apply Forall2_same.
  - destruct (db_fault w StmtRecoverUpdates) eqn:Eup; cbn -[Z.of_nat id_in]; [auto|].
    assert (Hrows : Forall2 (fun r r' => if id_in (i :: ids') r
                           then r' = reset_for_recovery r else r' = r)
              (tbl_file w)
              (tbl_file (update_file (id_in (i :: ids'))
                           (fun r => set_AITaggingTries 0
                              (set_AITaggingStatus AITaggingStatusNone r)) w))).
    { cbn -[id_in]. apply Forall2_map_pointwise. intros r _.
      destruct (id_in (i :: ids') r); reflexivity. }
    replace (0 <? Z.of_nat (S (length ids'))) with true
      by (symmetry; apply Z.ltb_lt; lia).
    cbn -[Z.of_nat id_in].
    destruct (globalTaggingService w); cbn -[Z.of_nat id_in];
      [destruct (db_fault w StmtRecoverFind); cbn -[Z.of_nat id_in];
       [|match goal with
         | |- context [match filter ?p ?l with _ => _ end] =>
             destruct (filter p l)
         end; cbn -[Z.of_nat id_in]]|];
      repeat split; auto.
Qed.

(** C10, the claim as stated fails: with limit 0 the recovery selects, and
    resets, both pending files, not at most 0 of them. *)
Lemma RecoverPendingOnStartup_limit_zero_selects_all :
  let w := sampleWorld
             [sampleFile "a" "" "normal" AITaggingStatusPending 2 0;
              sampleFile "b" "" "normal" AITaggingStatusPending 1 0] None in
  let res := RecoverPendingOnStartup 0 w in
  fst res = (2, None) /\ ~ (fst (fst res) <= 0) /\
  map (fun r => (AITaggingStatus_ r, AITaggingTries r)) (tbl_file (snd res)) =
  [(AITaggingStatusNone, 0); (AITaggingStatusNone, 0)].
Proof. vm_compute. repeat split. intros H; apply H; reflexivity. Qed.

(** ** The tries counter *)




Lemma Forall2_pointwise_same {A} (P : A -> A -> Prop) (t : list A) :
  (forall r, P r r) -> Forall2 P t t.
Proof. intros HP; induction t; constructor; auto. Qed.

Ltac row_cases fileID :=
  rewrite ?map_map;
  let r := fresh "r" in
  let Eid := fresh "Eid" in
  ((apply Forall2_map_pointwise; intros r _)
   || (apply Forall2_pointwise_same; intros r));
  unfold has_id; cbn;
  destruct (String.eqb (ID r) fileID) eqn:Eid; cbn;
  repeat (rewrite Eid; cbn);
  rewrite ?Z.add_0_r; repeat split; intros; try congruence; try reflexivity.

(** ** The refusal branch of [processAIResponse] *)

(** C9. With content detection enabled, an unsuccessful response recognised
    as a refusal over sensitive content makes [processAIResponse] return an
    error, and yet it leaves the tries counter of every row as it was,
    touches no row of another file and, its status update going through,
    leaves the job in status [done]. *)
Theorem processAIResponse_rejection_done_with_error
        `{Externals} (file : File) (resp : AIFileResponse)
        (sensitiveContentHandling base64Data imageFormat : string) (w : World) :
  Success resp = false ->
  isNSFWRejection resp = true ->
  let res := processAIResponse file (Some resp) true sensitiveContentHandling
                               base64Data imageFormat w in
  fst res <> None /\
  Forall2 (fun r r' =>
             AITaggingTries r' = AITaggingTries r /\
             (has_id (ID file) r = false -> r' = r) /\
             (db_fault w StmtUpdateFileStatus = None ->
              has_id (ID file) r = true ->
              AITaggingStatus_ r' = AITaggingStatusDone))
          (tbl_file w) (tbl_file (snd res)).
Proof.
  intros Hs Hr res. unfold res, processAIResponse.
  rewrite Hs, Hr. cbn [andb].
  unfold markFileForDeletion, markFileForReview, updateFileNSFWStatus,
    updateFileStatus, exec, emit, modify, bind, ret.
  destruct w as [conn fl tf ta trl tg tl st g n t trc].
  destruct (String.eqb sensitiveContentHandling "auto_delete");
    [|destruct (String.eqb sensitiveContentHandling "pending_review")];
    cbn -[append];
    repeat match goal with
           | |- context [match fl ?s with _ => _ end] =>
               destruct (fl s) eqn:?; cbn -[append]
           end;
    (split; [discriminate|]).
  all: row_cases (ID file).
Qed.

Lemma processAIResponse_rejection_done_with_error_witness :
  let file := sampleFile "a" "" "normal" AITaggingStatusProcessing 1 0 in
  let w := sampleWorld [file] None in
  let res := processAIResponse file (Some sampleRefusal) true "mark_only"
                               "" "png" w in
  Success sampleRefusal = false /\
  isNSFWRejection sampleRefusal = true /\
  fst res <> None /\
  Forall2 (fun r r' =>
             AITaggingTries r' = AITaggingTries r /\
             (has_id (ID file) r = false -> r' = r) /\
             (db_fault w StmtUpdateFileStatus = None ->
              has_id (ID file) r = true ->
              AITaggingStatus_ r' = AITaggingStatusDone))
          (tbl_file w) (tbl_file (snd res)).
Proof.
  intros file w res. split; [reflexivity|]. split; [reflexivity|].
  exact (processAIResponse_rejection_done_with_error
           file sampleRefusal "mark_only" "" "png" w eq_refl eq_refl).
Defined.

(** ** A fault-free run of [processAIResponse] *)

Lemma exec_ok s f w : db_fault w s = None -> exec s f w = (None, f w).
Proof. intros E; unfold exec; now rewrite E. Qed.

Lemma check_run (c k : M (option error)) w w1 :
  c w = (None, w1) ->
  (check c ;; k) w = k w1.
Proof. intros E; unfold bind; now rewrite E. Qed.

Lemma bind_run {A B} (c : M A) (k : A -> M B) w a w1 :
  c w = (a, w1) -> bind c k w = k a w1.
Proof. intros E; unfold bind; now rewrite E. Qed.

Section FaultFree.
Context `{Externals}.

Ltac unchanged :=
    intros;
    unfold stepSaveAIInfo, stepRecommended, stepPolicy, stepSaveTags, stepMark,
      stepNSFW, stepDone, stepVector, stepLog, stepGo;
    repeat match goal with
           | |- context [if ?b then _ else _] => destruct b
           | |- context [match ?x with _ => _ end] => destruct x
           end;
    reflexivity.

Lemma saveFileAIInfo_run fileID result usage w :
    no_faults w ->
    saveFileAIInfo fileID result usage w =
    (None, stepSaveAIInfo (aiInfoRow fileID result usage) w).
Proof. intros Hnf. unfold saveFileAIInfo. now rewrite exec_ok. Qed.

Lemma saveTags_run file tags w :
    no_faults w ->
    saveTags file tags w = (None, stepSaveTags (ID file) tags w).
Proof.
    intros Hnf. unfold saveTags, processAndSaveTags, stepSaveTags,
      relationsAfterTags, globalTagsAfterTags.
    destruct tags as [|tag tags]; [reflexivity|].
    unfold bind, CreateTagsFromNames. rewrite Hnf.
    destruct (create_tags_from_names (tag :: tags) (tbl_global_tag w))
      as [gs tg'].
    unfold ReplaceFileTagsTx. rewrite exec_ok by apply Hnf. reflexivity.
Qed.

Lemma no_faults_step (f : World -> World) w :
    (forall w, db_fault (f w) = db_fault w) ->
    no_faults w -> no_faults (f w).
Proof. intros Hf Hnf s. now rewrite Hf. Qed.

Lemma fault_stepSaveAIInfo row w :
    db_fault (stepSaveAIInfo row w) = db_fault w.
Proof. unchanged. Qed.
Lemma fault_stepRecommended i r w :
    db_fault (stepRecommended i r w) = db_fault w.
Proof. unchanged. Qed.
Lemma fault_stepMark e s i w : db_fault (stepMark e s i w) = db_fault w.
Proof. unchanged. Qed.
Lemma fault_stepSaveTags i t w : db_fault (stepSaveTags i t w) = db_fault w.
Proof. unchanged. Qed.
Lemma fault_stepPolicy i c s r w :
    db_fault (stepPolicy i c s r w) = db_fault w.
Proof. unchanged. Qed.
Lemma fault_stepNSFW i c r w : db_fault (stepNSFW i c r w) = db_fault w.
Proof. unchanged. Qed.
Lemma fault_stepDone i w : db_fault (stepDone i w) = db_fault w.
Proof. unchanged. Qed.
Lemma fault_stepVector i r w : db_fault (stepVector i r w) = db_fault w.
Proof. unchanged. Qed.
Lemma fault_stepLog i u w : db_fault (stepLog i u w) = db_fault w.
Proof. unchanged. Qed.
Lemma fault_stepGo i w : db_fault (stepGo i w) = db_fault w.
Proof. unchanged. Qed.

End FaultFree.

Section FaultFreeRun.
Context `{Externals}.

Lemma recommended_run fileID result w :
    no_faults w ->
    (if ResultIsRecommended result
     then
       e <- exec StmtUpdateIsRecommended
              (update_file (has_id fileID) (set_IsRecommended true)) ;;
       match e with
       | Some err =>
           if isDeadlockError (Some err)
           then (ex <- fileExists fileID ;;
                 if negb ex then ret (Some errFileDeleted) else ret None)
           else ret None
       | None => ret None
       end
     else ret None) w = (None, stepRecommended fileID result w).
Proof.
    intros Hnf. unfold stepRecommended.
    destruct (ResultIsRecommended result); [|reflexivity].
    erewrite bind_run by (apply exec_ok, Hnf). reflexivity.
Qed.

Lemma markFileForDeletion_run fileID w :
    no_faults w ->
    markFileForDeletion fileID w =
    (None, stepMark (EvMarkFileForDeletion fileID)
                    constants.FileStatusPendingDeletion fileID w).
Proof.
    intros Hnf. unfold markFileForDeletion, emit, modify, bind, stepMark.
    now rewrite exec_ok by (intros; apply Hnf).
Qed.

Lemma markFileForReview_run fileID reason w :
    no_faults w ->
    markFileForReview fileID reason w =
    (None, stepMark (EvMarkFileForReview fileID reason)
                    constants.FileStatusPendingReview fileID w).
Proof.
    intros Hnf. unfold markFileForReview, emit, modify, bind, stepMark.
    now rewrite exec_ok by (intros; apply Hnf).
Qed.

Lemma policy_run file cde sch result w :
    no_faults w ->
    (if negb cde || negb (IsNSFW (Safety result))
     then saveTags file (Tags result)
     else if String.eqb sch "auto_delete"
     then markFileForDeletion (ID file) ;;; ret None
     else if String.eqb sch "pending_review"
     then
       markFileForReview (ID file) (NSFWReason (Safety result)) ;;;
       saveTags file (Tags result)
     else saveTags file (Tags result)) w =
    (None, stepPolicy (ID file) cde sch result w).
Proof.
    intros Hnf. unfold stepPolicy, sensitive.
    destruct cde, (IsNSFW (Safety result)); cbn [negb orb andb];
      try (now apply saveTags_run).
    destruct (String.eqb sch "auto_delete").
    - erewrite bind_run by (apply markFileForDeletion_run, Hnf). reflexivity.
    - destruct (String.eqb sch "pending_review").
      + erewrite bind_run by (apply markFileForReview_run, Hnf).
        apply saveTags_run, no_faults_step;
          [apply fault_stepMark | exact Hnf].
      + now apply saveTags_run.
Qed.

Lemma nsfw_run fileID cde result w :
    no_faults w ->
    (if cde && IsNSFW (Safety result)
     then
       e <- updateFileNSFWStatus fileID true ;;
       match e with
       | Some err => onPersistError fileID err
       | None => ret None
       end
     else ret None) w = (None, stepNSFW fileID cde result w).
Proof.
    intros Hnf. unfold stepNSFW, sensitive.
    destruct (cde && IsNSFW (Safety result)); [|reflexivity].
    unfold updateFileNSFWStatus.
    erewrite bind_run by (apply exec_ok, Hnf). reflexivity.
Qed.

Lemma vector_run fileID result w :
    no_faults w ->
    (if negb (String.eqb (ResultDescription result) "")
     then createPendingVectorRecord fileID (ResultDescription result) ;;; ret tt
     else ret tt) w = (tt, stepVector fileID result w).
Proof.
    intros Hnf. unfold stepVector.
    destruct (String.eqb (ResultDescription result) ""); [reflexivity|].
    cbn [negb]. unfold createPendingVectorRecord, emit, modify, bind.
    now rewrite exec_ok by (intros; apply Hnf).
Qed.

Lemma log_run fileID usage w :
    no_faults w ->
    (match usage with
     | Some u =>
         exec StmtCreateTaggingLog
              (fun w => with_tagging_log
                          (tbl_file_tagging_log w ++
                           [mkLog fileID AITaggingStatusDone
                                  TaggingActionAuto
                                  "tagging.ai_completed" (Some u)]) w) ;;;
         ret tt
     | None => ret tt
     end) w = (tt, stepLog fileID usage w).
Proof.
    intros Hnf. unfold stepLog. destruct usage; [|reflexivity].
    erewrite bind_run by (apply exec_ok, Hnf). reflexivity.
Qed.

Lemma processAIResponse_run (file : File) (resp : AIFileResponse)
        (parsed : AITaggingResult) (cde : bool)
        (sch base64Data imageFormat : string) (w : World) :
    no_faults w ->
    Success resp = true ->
    parseAITaggingResult (Data resp) = inr parsed ->
    processAIResponse file (Some resp) cde sch base64Data imageFormat w =
    (None, afterRun file (RespUsage resp) cde sch (effectiveResult file parsed) w).
Proof.
    intros Hnf Hs Hp. unfold processAIResponse, afterRun.
    rewrite Hs, Hp. fold (effectiveResult file parsed).
    set (result := effectiveResult file parsed).
    set (row := aiInfoRow (ID file) result (RespUsage resp)).
    erewrite check_run;
      [|erewrite bind_run by (apply saveFileAIInfo_run, Hnf); reflexivity].
    fold row.
    assert (Hnf1 : no_faults (stepSaveAIInfo row w))
      by (apply no_faults_step; [apply fault_stepSaveAIInfo | exact Hnf]).
    set (w1 := stepSaveAIInfo row w) in *.
    erewrite check_run by (apply recommended_run, Hnf1).
    assert (Hnf2 : no_faults (stepRecommended (ID file) result w1))
      by (apply no_faults_step; [apply fault_stepRecommended | exact Hnf1]).
    set (w2 := stepRecommended (ID file) result w1) in *.
    erewrite check_run by (apply policy_run, Hnf2).
    assert (Hnf3 : no_faults (stepPolicy (ID file) cde sch result w2))
      by (apply no_faults_step; [apply fault_stepPolicy | exact Hnf2]).
    set (w3 := stepPolicy (ID file) cde sch result w2) in *.
    erewrite check_run by (apply nsfw_run, Hnf3).
    assert (Hnf4 : no_faults (stepNSFW (ID file) cde result w3))
      by (apply no_faults_step; [apply fault_stepNSFW | exact Hnf3]).
    set (w4 := stepNSFW (ID file) cde result w3) in *.
    erewrite bind_run by (apply updateFileStatus_ok, Hnf4).
    fold (stepDone (ID file) w4).
    assert (Hnf5 : no_faults (stepDone (ID file) w4))
      by (apply no_faults_step; [apply fault_stepDone | exact Hnf4]).
    set (w5 := stepDone (ID file) w4) in *.
    erewrite bind_run by (apply vector_run, Hnf5).
    assert (Hnf6 : no_faults (stepVector (ID file) result w5))
      by (apply no_faults_step; [apply fault_stepVector | exact Hnf5]).
    set (w6 := stepVector (ID file) result w5) in *.
    erewrite bind_run by (apply log_run, Hnf6).
    reflexivity.
Qed.

Ltac atoms :=
    repeat match goal with
           | |- context [IsNSFW (Safety ?r)] => destruct (IsNSFW (Safety r))
           | |- context [ResultIsRecommended ?r] =>
               destruct (ResultIsRecommended r)
           | |- context [String.eqb ?a ?b] => destruct (String.eqb a b)
           | |- context [Tags ?r] => destruct (Tags r)
           end.

Ltac step_tac :=
    intros;
    unfold stepSaveAIInfo, stepRecommended, stepPolicy, stepSaveTags,
      stepMark, stepNSFW, stepDone, stepVector, stepLog, stepGo,
      savesTags, policyEvents, vectorEvents, relationsAfterTags,
      globalTagsAfterTags, sensitive;
    atoms;
    cbn -[create_tags_from_names replace_file_tags upsert_ai_info];
    rewrite ?app_nil_r; reflexivity.

  (** The AI information is written by the first step only. *)
Lemma ai_stepDone i w : tbl_file_ai_info (stepDone i w) = tbl_file_ai_info w.
Proof. reflexivity. Qed.
Lemma ai_stepGo i w : tbl_file_ai_info (stepGo i w) = tbl_file_ai_info w.
Proof. reflexivity. Qed.
Lemma ai_stepRecommended i r w :
    tbl_file_ai_info (stepRecommended i r w) = tbl_file_ai_info w.
Proof. step_tac. Qed.
Lemma ai_stepPolicy i c s r w :
    tbl_file_ai_info (stepPolicy i c s r w) = tbl_file_ai_info w.
Proof. destruct c; step_tac. Qed.
Lemma ai_stepNSFW i c r w :
    tbl_file_ai_info (stepNSFW i c r w) = tbl_file_ai_info w.
Proof. destruct c; step_tac. Qed.
Lemma ai_stepVector i r w :
    tbl_file_ai_info (stepVector i r w) = tbl_file_ai_info w.
Proof. step_tac. Qed.
Lemma ai_stepLog i u w :
    tbl_file_ai_info (stepLog i u w) = tbl_file_ai_info w.
Proof. destruct u; step_tac. Qed.

Lemma afterRun_ai_info file usage cde sch result w :
    tbl_file_ai_info (afterRun file usage cde sch result w) =
    upsert_ai_info (aiInfoRow (ID file) result usage) (tbl_file_ai_info w).
Proof.
    unfold afterRun.
    now rewrite ai_stepGo, ai_stepLog, ai_stepVector, ai_stepDone, ai_stepNSFW,
      ai_stepPolicy, ai_stepRecommended.
Qed.

  (** The tag tables are written by the policy step only. *)
Lemma rel_stepDone i w :
  tbl_file_global_tag_relation (stepDone i w) = tbl_file_global_tag_relation w.
Proof. reflexivity. Qed.
Lemma rel_stepGo i w :
  tbl_file_global_tag_relation (stepGo i w) = tbl_file_global_tag_relation w.
Proof. reflexivity. Qed.
Lemma rel_stepRecommended i r w :
    tbl_file_global_tag_relation (stepRecommended i r w) =
    tbl_file_global_tag_relation w.
Proof. step_tac. Qed.
Lemma rel_stepPolicy i c s r w :
    tbl_file_global_tag_relation (stepPolicy i c s r w) =
    if savesTags c s r
    then relationsAfterTags i (Tags r) (tbl_global_tag w)
                            (tbl_file_global_tag_relation w)
    else tbl_file_global_tag_relation w.
Proof. destruct c; step_tac. Qed.
Lemma rel_stepNSFW i c r w :
    tbl_file_global_tag_relation (stepNSFW i c r w) =
    tbl_file_global_tag_relation w.
Proof. destruct c; step_tac. Qed.
Lemma rel_stepVector i r w :
    tbl_file_global_tag_relation (stepVector i r w) =
    tbl_file_global_tag_relation w.
Proof. step_tac. Qed.
Lemma rel_stepLog i u w :
    tbl_file_global_tag_relation (stepLog i u w) =
    tbl_file_global_tag_relation w.
Proof. destruct u; step_tac. Qed.

Lemma tag_stepDone i w : tbl_global_tag (stepDone i w) = tbl_global_tag w.
Proof. reflexivity. Qed.
Lemma tag_stepGo i w : tbl_global_tag (stepGo i w) = tbl_global_tag w.
Proof. reflexivity. Qed.
Lemma tag_stepRecommended i r w :
    tbl_global_tag (stepRecommended i r w) = tbl_global_tag w.
Proof. step_tac. Qed.
Lemma tag_stepPolicy i c s r w :
    tbl_global_tag (stepPolicy i c s r w) =
    if savesTags c s r
    then globalTagsAfterTags (Tags r) (tbl_global_tag w)
    else tbl_global_tag w.
Proof. destruct c; step_tac. Qed.
Lemma tag_stepNSFW i c r w :
    tbl_global_tag (stepNSFW i c r w) = tbl_global_tag w.
Proof. destruct c; step_tac. Qed.
Lemma tag_stepVector i r w :
    tbl_global_tag (stepVector i r w) = tbl_global_tag w.
Proof. step_tac. Qed.
Lemma tag_stepLog i u w : tbl_global_tag (stepLog i u w) = tbl_global_tag w.
Proof. destruct u; step_tac. Qed.

Lemma afterRun_global_tag file usage cde sch result w :
    tbl_global_tag (afterRun file usage cde sch result w) =
    if savesTags cde sch result
    then globalTagsAfterTags (Tags result) (tbl_global_tag w)
    else tbl_global_tag w.
Proof.
    unfold afterRun.
    rewrite tag_stepGo, tag_stepLog, tag_stepVector, tag_stepDone,
      tag_stepNSFW, tag_stepPolicy, tag_stepRecommended.
    reflexivity.
Qed.

Lemma afterRun_relation file usage cde sch result w :
    tbl_file_global_tag_relation (afterRun file usage cde sch result w) =
    if savesTags cde sch result
    then relationsAfterTags (ID file) (Tags result) (tbl_global_tag w)
                            (tbl_file_global_tag_relation w)
    else tbl_file_global_tag_relation w.
Proof.
    unfold afterRun.
    rewrite rel_stepGo, rel_stepLog, rel_stepVector, rel_stepDone,
      rel_stepNSFW, rel_stepPolicy, rel_stepRecommended, tag_stepRecommended.
    reflexivity.
Qed.

  (** The trace grows in the policy step, the vector step and at the end. *)
Lemma trace_stepDone i w : trace (stepDone i w) = trace w.
Proof. reflexivity. Qed.
Lemma trace_stepRecommended i r w :
    trace (stepRecommended i r w) = trace w.
Proof. step_tac. Qed.
Lemma trace_stepPolicy i c s r w :
    trace (stepPolicy i c s r w) = (trace w ++ policyEvents i c s r)%list.
Proof. destruct c; step_tac. Qed.
Lemma trace_stepNSFW i c r w : trace (stepNSFW i c r w) = trace w.
Proof. destruct c; step_tac. Qed.
Lemma trace_stepVector i r w :
    trace (stepVector i r w) = (trace w ++ vectorEvents i r)%list.
Proof. step_tac. Qed.
Lemma trace_stepLog i u w : trace (stepLog i u w) = trace w.
Proof. destruct u; step_tac. Qed.

Lemma afterRun_trace file usage cde sch result w :
    trace (afterRun file usage cde sch result w) =
    (trace w ++ policyEvents (ID file) cde sch result
       ++ vectorEvents (ID file) result
       ++ [EvGo (GoPropagateAIToDuplicates (ID file))])%list.
Proof.
    unfold afterRun. unfold stepGo at 1. cbn [trace with_trace].
    rewrite trace_stepLog, trace_stepVector, trace_stepDone, trace_stepNSFW,
      trace_stepPolicy, trace_stepRecommended.
    cbn [stepSaveAIInfo trace with_file_ai_info].
    now rewrite <- !app_assoc.
Qed.

Lemma afterRun_fault file usage cde sch result w :
    db_fault (afterRun file usage cde sch result w) = db_fault w.
Proof.
    unfold afterRun.
    now rewrite fault_stepGo, fault_stepLog, fault_stepVector, fault_stepDone,
      fault_stepNSFW, fault_stepPolicy, fault_stepRecommended,
      fault_stepSaveAIInfo.
Qed.

Lemma file_stepSaveTags fileID tags w :
    tbl_file (stepSaveTags fileID tags w) = tbl_file w.
Proof. unfold stepSaveTags; now destruct tags. Qed.
Lemma file_stepVector fileID result w :
    tbl_file (stepVector fileID result w) = tbl_file w.
Proof. step_tac. Qed.
Lemma file_stepLog fileID usage w :
    tbl_file (stepLog fileID usage w) = tbl_file w.
Proof. destruct usage; step_tac. Qed.

Lemma afterRun_file file usage cde sch result w :
    tbl_file (afterRun file usage cde sch result w) =
    map (fun r => if has_id (ID file) r
                  then rowAfterRun cde sch result r else r) (tbl_file w).
Proof.
    unfold afterRun. cbn [stepGo tbl_file with_trace].
    rewrite file_stepLog, file_stepVector.
    unfold stepDone, stepNSFW, stepPolicy, stepRecommended, stepSaveAIInfo,
      stepMark, rowAfterRun, sensitive.
    destruct (ResultIsRecommended result), cde, (IsNSFW (Safety result)),
      (String.eqb sch "auto_delete"), (String.eqb sch "pending_review");
      cbn [andb]; rewrite ?file_stepSaveTags; cbn [update_file tbl_file with_file
        with_trace with_file_ai_info];
      rewrite ?file_stepSaveTags; cbn [update_file tbl_file with_file
        with_trace with_file_ai_info];
      rewrite ?map_map; apply map_ext; intros r; unfold has_id;
      destruct r as [x1 x2 x3 x4 x5 x6 x7 x8 x9 x10 x11 x12 x13]; cbn;
      destruct (String.eqb x1 (ID file)) eqn:Eid; cbn;
      repeat (rewrite Eid; cbn); reflexivity.
Qed.
End FaultFreeRun.

(** ** The safety decision of [processAIResponse] *)

Lemma skipn_length_app {A} (l added : list A) :
  skipn (length l) (l ++ added) = added.
Proof. induction l; simpl; auto. Qed.

Lemma Safety_effectiveResult file parsed :
  Safety (effectiveResult file parsed) = Safety parsed.
Proof. unfold effectiveResult. now destruct (String.eqb (Resolution file) ""). Qed.

Lemma Tags_effectiveResult file parsed :
  Tags (effectiveResult file parsed) = Tags parsed.
Proof. unfold effectiveResult. now destruct (String.eqb (Resolution file) ""). Qed.

Lemma sensitive_effectiveResult cde file parsed :
  sensitive cde (effectiveResult file parsed) = cde && IsNSFW (Safety parsed).
Proof. unfold sensitive. now rewrite Safety_effectiveResult. Qed.

Lemma existsb_flag_unchanged fileID (g : File -> File) (t : list File) :
  (forall r, ID (g r) = ID r /\ NSFW (g r) = NSFW r) ->
  existsb (fun r => has_id fileID r && NSFW r)
          (map (fun r => if has_id fileID r then g r else r) t) =
  existsb (fun r => has_id fileID r && NSFW r) t.
Proof.
  intros Hg. induction t as [|r t IH]; [reflexivity|].
  cbn [map existsb]. rewrite IH. f_equal.
  destruct (has_id fileID r) eqn:E; [|now rewrite E].
  unfold has_id in *. destruct (Hg r) as [Hi Hn]. now rewrite Hi, E, Hn.
Qed.

(** C1 (as amended). Under mode [auto_delete], a fault-free run over a
    successful response whose payload decodes applies the delete disposition
    exactly when content detection is enabled and the decoded result carries
    the [is_nsfw] flag; otherwise the file stays published, with the NSFW
    flag it had, and its tags are saved. Neither the result's score nor the
    configured threshold enters the decision. *)
Theorem processAIResponse_auto_delete_follows_flag
        `{Externals} (file : File) (resp : AIFileResponse)
        (parsed : AITaggingResult) (contentDetectionEnabled : bool)
        (base64Data imageFormat : string) (w : World) :
  no_faults w ->
  Success resp = true ->
  parseAITaggingResult (Data resp) = inr parsed ->
  let res := processAIResponse file (Some resp) contentDetectionEnabled
                               "auto_delete" base64Data imageFormat w in
  fst res = None /\
  (contentDetectionEnabled && IsNSFW (Safety parsed) = true ->
   appliedDisposition (ID file) w (snd res) = Delete) /\
  (contentDetectionEnabled && IsNSFW (Safety parsed) = false ->
   appliedDisposition (ID file) w (snd res) =
     Publish (existsb (fun r => has_id (ID file) r && NSFW r) (tbl_file w)) /\
   tbl_file_global_tag_relation (snd res) =
     relationsAfterTags (ID file) (Tags parsed) (tbl_global_tag w)
                        (tbl_file_global_tag_relation w)).
Proof.
  intros Hnf Hs Hp res. unfold res.
  rewrite (processAIResponse_run _ _ _ _ _ _ _ _ Hnf Hs Hp). cbn [fst snd].
  split; [reflexivity|].
  unfold appliedDisposition.
  rewrite afterRun_trace, skipn_length_app, afterRun_relation, afterRun_file.
  unfold policyEvents, savesTags, rowAfterRun.
  rewrite sensitive_effectiveResult, Tags_effectiveResult.
  split; intros Hsens; rewrite Hsens.
  - cbn. now rewrite String.eqb_refl.
  - split; [|reflexivity].
    assert (Hv : forall p,
               (forall e, In e (vectorEvents (ID file)
                                  (effectiveResult file parsed)) -> p e = false) ->
               p (EvGo (GoPropagateAIToDuplicates (ID file))) = false ->
               existsb p ([] ++ vectorEvents (ID file)
                                   (effectiveResult file parsed)
                             ++ [EvGo (GoPropagateAIToDuplicates (ID file))])%list
               = false).
    { intros p Hpv Hpg. cbn [app]. rewrite existsb_app, orb_false_iff.
      split; [|cbn; now rewrite Hpg].
      unfold vectorEvents in *.
      destruct (String.eqb (ResultDescription (effectiveResult file parsed)) "");
        [reflexivity|].
      cbn. rewrite Hpv; [reflexivity | now left]. }
    assert (Hvec : forall p e,
               (forall f d, p (EvCreatePendingVectorRecord f d) = false) ->
               In e (vectorEvents (ID file) (effectiveResult file parsed)) ->
               p e = false).
    { intros p e Hpe Hin. unfold vectorEvents in Hin.
      destruct (String.eqb (ResultDescription (effectiveResult file parsed)) "");
        [destruct Hin|].
      destruct Hin as [<-|[]]. apply Hpe. }
    rewrite !Hv; try reflexivity;
      try (intros e; apply Hvec; reflexivity).
    f_equal. cbn [andb].
    apply existsb_flag_unchanged.
    intros r. destruct (ResultIsRecommended (effectiveResult file parsed));
      destruct r; split; reflexivity.
Qed.

Lemma processAIResponse_auto_delete_follows_flag_witness :
  let file := sampleFile "a" "" "normal" AITaggingStatusProcessing 0 0 in
  let w := sampleWorld [file] None in
  let resp := sampleResponse "flagged-0.9" in
  let parsed := sampleResult true (9 # 10)%Q ["cat"] in
  let res := processAIResponse file (Some resp) true "auto_delete" "" "png" w in
  no_faults w /\
  Success resp = true /\
  parseAITaggingResult (Data resp) = inr parsed /\
  fst res = None /\
  (true && IsNSFW (Safety parsed) = true ->
   appliedDisposition (ID file) w (snd res) = Delete) /\
  (true && IsNSFW (Safety parsed) = false ->
   appliedDisposition (ID file) w (snd res) =
     Publish (existsb (fun r => has_id (ID file) r && NSFW r) (tbl_file w)) /\
   tbl_file_global_tag_relation (snd res) =
     relationsAfterTags (ID file) (Tags parsed) (tbl_global_tag w)
                        (tbl_file_global_tag_relation w)).
Proof.
  intros file w resp parsed res.
  split; [intros s; reflexivity|]. split; [reflexivity|].
  split; [reflexivity|].
  exact (processAIResponse_auto_delete_follows_flag
           file resp parsed true "" "png" w (fun s => eq_refl) eq_refl eq_refl).
Defined.

(** C1, the claim as stated fails. Under [auto_delete] with threshold 0.6:
    a result of score 0.9 that is not flagged is published, not deleted; a
    flagged result of score 0.3 is deleted, not published; and with content
    detection disabled a flagged result of score 0.9 is published. *)
Lemma processAIResponse_auto_delete_ignores_score :
  let file := sampleFile "a" "" "normal" AITaggingStatusProcessing 0 0 in
  let w := sampleWorld [file] None in
  let threshold := setting.GetFloat (nsfw_threshold (settings w)) (6 # 10)%Q in
  let run cde data :=
    appliedDisposition "a" w
      (snd (processAIResponse file (Some (sampleResponse data)) cde
                              "auto_delete" "" "png" w)) in
  parseAITaggingResult "unflagged-0.9" =
    inr (sampleResult false (9 # 10)%Q ["cat"]) /\
  parseAITaggingResult "flagged-0.3" =
    inr (sampleResult true (3 # 10)%Q ["cat"]) /\
  parseAITaggingResult "flagged-0.9" =
    inr (sampleResult true (9 # 10)%Q ["cat"]) /\
  Qle_bool threshold (9 # 10)%Q = true /\
  Qle_bool threshold (3 # 10)%Q = false /\
  run true "unflagged-0.9" = Publish false /\
  run true "flagged-0.3" = Delete /\
  run false "flagged-0.9" = Publish false.
Proof. vm_compute. repeat split. Qed.

(** ** Tags of sensitive files *)

Lemma keeps_tags_ret {A} (a : A) : keeps_tags (ret a).
Proof. intros w; split; reflexivity. Qed.

Lemma keeps_tags_bind {A B} (c : M A) (k : A -> M B) :
  keeps_tags c -> (forall a, keeps_tags (k a)) -> keeps_tags (bind c k).
Proof.
  intros Hc Hk w. unfold bind. specialize (Hc w).
  destruct (c w) as [a w1]. cbn [snd] in Hc. destruct Hc as [Hr Hg].
  destruct (Hk a w1) as [Hr1 Hg1]. split; congruence.
Qed.

Lemma keeps_tags_exec s (f : World -> World) :
  (forall w, tbl_file_global_tag_relation (f w) = tbl_file_global_tag_relation w
             /\ tbl_global_tag (f w) = tbl_global_tag w) ->
  keeps_tags (exec s f).
Proof.
  intros Hf w. unfold exec. destruct (db_fault w s); cbn [snd]; auto.
Qed.

Lemma keeps_tags_query {A} s (q : World -> A) : keeps_tags (query s q).
Proof. intros w. unfold query. destruct (db_fault w s); split; reflexivity. Qed.

Lemma keeps_tags_emit e : keeps_tags (emit e).
Proof. intros w; split; reflexivity. Qed.

Lemma keeps_tags_update_file s p f :
  keeps_tags (exec s (update_file p f)).
Proof. apply keeps_tags_exec; intros w; split; reflexivity. Qed.

Ltac keeps :=
  repeat first
    [ apply keeps_tags_ret
    | apply keeps_tags_emit
    | apply keeps_tags_query
    | apply keeps_tags_update_file
    | apply keeps_tags_exec; intros; split; reflexivity
    | apply keeps_tags_bind; [|intros ?]
    | match goal with
      | |- keeps_tags (match ?x with _ => _ end) => destruct x
      end ].

Lemma keeps_tags_updateFileStatus fileID status :
  keeps_tags (updateFileStatus fileID status).
Proof. unfold updateFileStatus. keeps. Qed.

Lemma keeps_tags_fileExists fileID : keeps_tags (fileExists fileID).
Proof. unfold fileExists. keeps. Qed.

Lemma keeps_tags_onPersistError fileID err :
  keeps_tags (onPersistError fileID err).
Proof.
  unfold onPersistError. keeps;
    try apply keeps_tags_fileExists; try apply keeps_tags_updateFileStatus; keeps.
Qed.

Section NoTagsUnderAutoDelete.
Context `{Externals}.

Lemma processAIResponse_auto_delete_keeps_tags
      (file : File) (resp : AIFileResponse) (parsed : AITaggingResult)
      (base64Data imageFormat : string) :
  Success resp = true ->
  parseAITaggingResult (Data resp) = inr parsed ->
  IsNSFW (Safety parsed) = true ->
  keeps_tags (processAIResponse file (Some resp) true "auto_delete"
                                base64Data imageFormat).
Proof.
  intros Hs Hp Hn. unfold processAIResponse. rewrite Hs, Hp.
  fold (effectiveResult file parsed).
  rewrite Safety_effectiveResult, Hn. cbn [negb orb andb].
  change (String.eqb "auto_delete" "auto_delete") with true. cbv iota.
  unfold saveFileAIInfo, markFileForDeletion, updateFileNSFWStatus,
    createPendingVectorRecord.
  keeps;
    try apply keeps_tags_onPersistError;
    try apply keeps_tags_fileExists;
    try apply keeps_tags_updateFileStatus; keeps.
Qed.

(** C7 (as amended). For a result flagged as sensitive with content detection
    enabled: under [auto_delete] the run saves no tag, whatever the store
    does (both tag tables stay as they were), while a fault-free run still
    upserts the AI information and marks the file for deletion; under any
    other mode a fault-free run saves the tags exactly as it does for a
    result that is not flagged. *)
Theorem processAIResponse_sensitive_tags
        (file : File) (resp : AIFileResponse) (parsed : AITaggingResult)
        (base64Data imageFormat : string) :
  Success resp = true ->
  parseAITaggingResult (Data resp) = inr parsed ->
  IsNSFW (Safety parsed) = true ->
  (forall w,
      let res := processAIResponse file (Some resp) true "auto_delete"
                                   base64Data imageFormat w in
      tbl_file_global_tag_relation (snd res) = tbl_file_global_tag_relation w /\
      tbl_global_tag (snd res) = tbl_global_tag w) /\
  (forall w,
      no_faults w ->
      let res := processAIResponse file (Some resp) true "auto_delete"
                                   base64Data imageFormat w in
      fst res = None /\
      appliedDisposition (ID file) w (snd res) = Delete /\
      tbl_file_ai_info (snd res) =
        upsert_ai_info (aiInfoRow (ID file) (effectiveResult file parsed)
                                  (RespUsage resp))
                       (tbl_file_ai_info w)) /\
  (forall w sensitiveContentHandling,
      no_faults w ->
      String.eqb sensitiveContentHandling "auto_delete" = false ->
      let res := processAIResponse file (Some resp) true
                                   sensitiveContentHandling
                                   base64Data imageFormat w in
      fst res = None /\
      tbl_file_global_tag_relation (snd res) =
        relationsAfterTags (ID file) (Tags parsed) (tbl_global_tag w)
                           (tbl_file_global_tag_relation w)).
Proof.
  intros Hs Hp Hn. split; [|split].
  - intros w. apply processAIResponse_auto_delete_keeps_tags with parsed; trivial.
  - intros w Hnf res. unfold res.
    rewrite (processAIResponse_run _ _ _ _ _ _ _ _ Hnf Hs Hp). cbn [fst snd].
    split; [reflexivity|]. split; [|apply afterRun_ai_info].
    unfold appliedDisposition.
    rewrite afterRun_trace, skipn_length_app. unfold policyEvents.
    rewrite sensitive_effectiveResult, Hn. cbn. now rewrite String.eqb_refl.
  - intros w sch Hnf Hsch res. unfold res.
    rewrite (processAIResponse_run _ _ _ _ _ _ _ _ Hnf Hs Hp). cbn [fst snd].
    split; [reflexivity|]. rewrite afterRun_relation. unfold savesTags.
    rewrite Hsch, andb_false_r, Tags_effectiveResult. reflexivity.
Qed.
End NoTagsUnderAutoDelete.

Lemma processAIResponse_sensitive_tags_witness :
  let file := sampleFile "a" "" "normal" AITaggingStatusProcessing 0 0 in
  let resp := sampleResponse "flagged-0.9" in
  let parsed := sampleResult true (9 # 10)%Q ["cat"] in
  Success resp = true /\
  parseAITaggingResult (Data resp) = inr parsed /\
  IsNSFW (Safety parsed) = true /\
  forall w,
    let res := processAIResponse file (Some resp) true "auto_delete"
                                 "" "png" w in
    tbl_file_global_tag_relation (snd res) = tbl_file_global_tag_relation w /\
    tbl_global_tag (snd res) = tbl_global_tag w.
Proof.
  intros file resp parsed.
  split; [reflexivity|]. split; [reflexivity|]. split; [reflexivity|].
  exact (proj1 (processAIResponse_sensitive_tags
                  file resp parsed "" "png" eq_refl eq_refl eq_refl)).
Defined.

(** C7, the claim as stated fails. Under [auto_delete] a flagged result
    tagged [cat] leaves the file without any tag association, although the
    same tags are saved when the result is not flagged. *)
Lemma processAIResponse_auto_delete_drops_tags :
  let file := sampleFile "a" "" "normal" AITaggingStatusProcessing 0 0 in
  let w := sampleWorld [file] None in
  let run data :=
    snd (processAIResponse file (Some (sampleResponse data)) true
                           "auto_delete" "" "png" w) in
  parseAITaggingResult "flagged-0.9" =
    inr (sampleResult true (9 # 10)%Q ["cat"]) /\
  parseAITaggingResult "unflagged-0.9" =
    inr (sampleResult false (9 # 10)%Q ["cat"]) /\
  appliedDisposition "a" w (run "flagged-0.9") = Delete /\
  tbl_file_global_tag_relation (run "flagged-0.9") = [] /\
  tbl_global_tag (run "flagged-0.9") = [] /\
  tbl_file_global_tag_relation (run "unflagged-0.9") =
    [mkRel "a" 1 0 "" "ai" 1%Q] /\
  tbl_global_tag (run "unflagged-0.9") = [mkGlobalTag 1 "cat"].
Proof. vm_compute. repeat split. Qed.


(** ** Provider failures *)

Lemma setSkipped_rows fileID w :
  fst (setSkipped fileID w) = db_fault w StmtSetSkipped /\
  map AITaggingTries (tbl_file (snd (setSkipped fileID w))) =
  map AITaggingTries (tbl_file w) /\
  trace (snd (setSkipped fileID w)) = trace w /\
  (db_fault w StmtSetSkipped = None ->
   Forall2 (fun r r' => if has_id fileID r
                        then r' = set_AITaggingStatus AITaggingStatusSkipped r
                        else r' = r)
           (tbl_file w) (tbl_file (snd (setSkipped fileID w)))).
Proof.
  unfold setSkipped, exec. destruct (db_fault w StmtSetSkipped) eqn:E.
  - cbn [fst snd]. repeat split; try reflexivity. discriminate.
  - cbn [fst snd update_file tbl_file with_file trace]. repeat split.
    + rewrite map_map. apply map_ext. intros r.
      now destruct (has_id fileID r).
    + intros _. apply Forall2_map_pointwise. intros r _.
      now destruct (has_id fileID r).
Qed.

(** C3 (as amended). When the classification call or the tagging call of a
    run returns an error, [AiImageTaggingAndSaveWithBase64] returns no error;
    it leaves the tries counter of every row as it was and, its status update
    going through, leaves the job in status [skipped] and every other row
    untouched; nothing but the provider calls is recorded. *)
Theorem AiImageTaggingAndSaveWithBase64_provider_failure_skips
        `{Externals} (prov : Provider) (file : File)
        (base64Data imageFormat : string) (w : World) :
  db_conn w = true ->
  setting.GetBool (ai_analysis_enabled (settings w)) true = true ->
  providerFails prov = true ->
  let res := AiImageTaggingAndSaveWithBase64 prov file base64Data imageFormat w in
  fst res = None /\
  map AITaggingTries (tbl_file (snd res)) = map AITaggingTries (tbl_file w) /\
  (db_fault w StmtSetSkipped = None ->
   Forall2 (fun r r' => if has_id (ID file) r
                        then r' = set_AITaggingStatus AITaggingStatusSkipped r
                        else r' = r)
           (tbl_file w) (tbl_file (snd res))) /\
  forallb is_provider_call (skipn (length (trace w)) (trace (snd res))) = true.
Proof.
  intros Hdb Hen Hfail res. unfold res, AiImageTaggingAndSaveWithBase64.
  unfold bind, gets, emit, modify, ret. cbv beta iota.
  rewrite Hdb. cbn [negb]. rewrite Hen. cbn [negb].
  unfold providerFails in Hfail.
  destruct (performAIImageCategorizationOutsideTx prov) as [e1|c].
  - set (w1 := with_trace (trace w ++ [EvPerformAIImageCategorization (ID file)]) w).
    destruct (setSkipped_rows (ID file) w1) as (_ & Ht & Htr & Hrows).
    destruct (setSkipped (ID file) w1) as [e w2]. cbn [fst snd] in *.
    repeat split; trivial.
    rewrite Htr. unfold w1; cbn [trace with_trace].
    now rewrite skipn_length_app.
  - destruct (performAITagging prov) as [e2|a]; [|discriminate].
    set (w1 := with_trace
                 (trace (with_trace
                           (trace w ++ [EvPerformAIImageCategorization (ID file)]) w)
                  ++ [EvPerformAITagging (ID file)]) _).
    destruct (setSkipped_rows (ID file) w1) as (_ & Ht & Htr & Hrows).
    destruct (setSkipped (ID file) w1) as [e w2]. cbn [fst snd] in *.
    repeat split; trivial.
    rewrite Htr. unfold w1; cbn [trace with_trace].
    now rewrite <- app_assoc, skipn_length_app.
Qed.

Lemma AiImageTaggingAndSaveWithBase64_provider_failure_skips_witness :
  let file := sampleFile "a" "" "normal" AITaggingStatusProcessing 0 0 in
  let w := sampleWorld [file] None in
  let res := AiImageTaggingAndSaveWithBase64 sampleOutage file "" "png" w in
  db_conn w = true /\
  setting.GetBool (ai_analysis_enabled (settings w)) true = true /\
  providerFails sampleOutage = true /\
  fst res = None /\
  map AITaggingTries (tbl_file (snd res)) = map AITaggingTries (tbl_file w) /\
  (db_fault w StmtSetSkipped = None ->
   Forall2 (fun r r' => if has_id (ID file) r
                        then r' = set_AITaggingStatus AITaggingStatusSkipped r
                        else r' = r)
           (tbl_file w) (tbl_file (snd res))) /\
  forallb is_provider_call (skipn (length (trace w)) (trace (snd res))) = true.
Proof.
  intros file w res.
  split; [reflexivity|]. split; [reflexivity|]. split; [reflexivity|].
  exact (AiImageTaggingAndSaveWithBase64_provider_failure_skips
           sampleOutage file "" "png" w eq_refl eq_refl eq_refl).
Defined.

(** C3, the claim as stated fails. A run whose classification call fails
    returns no error, leaves the job in the terminal status [skipped] and does
    not count the failure: tries stays 0. *)
Lemma AiImageTaggingAndSaveWithBase64_outage_not_retried :
  let file := sampleFile "a" "" "normal" AITaggingStatusProcessing 0 0 in
  let w := sampleWorld [file] None in
  let res := AiImageTaggingAndSaveWithBase64 sampleOutage file "" "png" w in
  fst res = None /\
  map (fun r => (AITaggingStatus_ r, AITaggingTries r)) (tbl_file (snd res)) =
  [(AITaggingStatusSkipped, 0)] /\
  0 < constants.AIMaxRetries.
Proof. vm_compute. repeat split. Qed.

(** ** Enqueueing a file *)

(** C2 (as amended). With the feature switched off (no service instance and
    [ai_enabled] false) [AddFileToQueue] returns without touching anything:
    the job is marked neither pending nor skipped. With a service instance
    and a database it returns no error and, its update going through, marks
    the job pending with a fresh heartbeat; the file is then handed to direct
    synchronous processing exactly when the queue does not take the ID and
    the service is not paused; when the queue takes it, the ID is queued or
    in flight afterwards. *)
Theorem AddFileToQueue_outcomes (file : File) (w : World) :
  (globalTaggingService w = None ->
   setting.GetBool (ai_enabled (settings w)) false = false ->
   AddFileToQueue file w = (None, w)) /\
  (forall s,
      globalTaggingService w = Some s ->
      db_conn w = true ->
      let res := AddFileToQueue file w in
      fst res = None /\
      (db_fault w StmtSetPending = None ->
       Forall2 (fun r r' => if has_id (ID file) r
                            then r' = markedPending (now w) r else r' = r)
               (tbl_file w) (tbl_file (snd res))) /\
      (In (EvProcessSingleFile (ID file)) (addedEvents w (snd res)) <->
       refusedByQueue s (ID file) = true /\ paused s = false) /\
      (refusedByQueue s (ID file) = false ->
       exists s' q',
         globalTaggingService (snd res) = Some s' /\
         taskQueue s' = Some q' /\
         In (ID file) (queued q' ++ inflight q'))).
Proof.
  split.
  - intros Hg Hen. unfold AddFileToQueue, InitGlobalTaggingQueue,
      GetGlobalTaggingService, bind, gets, ret. cbv beta iota.
    repeat (progress (rewrite ?Hg, ?Hen; cbn [negb]; cbv beta iota)).
    reflexivity.
  - intros s Hg Hdb res. unfold res, AddFileToQueue, GetGlobalTaggingService,
      addedEvents, refusedByQueue, bind, gets, ret. cbv beta iota.
    rewrite Hg. cbv beta iota. rewrite Hdb. cbn [negb].
    assert (Hrows : forall w1,
               snd (exec StmtSetPending
                      (update_file (has_id (ID file))
                         (fun r => set_AILastHeartbeatAt (now w)
                            (set_AITaggingStatus AITaggingStatusPending r))) w)
               = w1 ->
               trace w1 = trace w /\
               globalTaggingService w1 = Some s /\
               (db_fault w StmtSetPending = None ->
                Forall2 (fun r r' => if has_id (ID file) r
                            then r' = markedPending (now w) r else r' = r)
                        (tbl_file w) (tbl_file w1))).
    { intros w1 <-. unfold exec. destruct (db_fault w StmtSetPending).
      - cbn [snd]. repeat split; trivial. discriminate.
      - cbn [snd update_file tbl_file with_file trace globalTaggingService].
        repeat split; trivial. intros _.
        apply Forall2_map_pointwise. intros r _.
        now destruct (has_id (ID file) r). }
    destruct (exec StmtSetPending _ w) as [e0 w1].
    destruct (Hrows w1 eq_refl) as (Htr & Hsvc & Hr). clear Hrows.
    unfold EnqueueUnique, IsPaused, ProcessSingleFile, notifyQueueStatsChange,
      emit, modify, gets.
    assert (Hq : forall q q' e,
               enqueue_unique (ID file) q = (e, q') -> e = None ->
               In (ID file) (queued q' ++ inflight q')).
    { intros q q' e Een ->. unfold enqueue_unique in Een.
      destruct (existsb (String.eqb (ID file)) (queued q ++ inflight q))
        eqn:Ex.
      - injection Een as <-. apply existsb_exists in Ex as (x & Hin & Hx).
        apply String.eqb_eq in Hx. now subst x.
      - destruct (Nat.leb (capacity q) (length (queued q)));
          [discriminate|]. injection Een as <-. cbn [queued inflight].
        rewrite <- app_assoc. apply in_or_app. right. now left. }
    destruct (taskQueue s) as [q|] eqn:Eq.
    + rewrite Hsvc, Eq.
      destruct (enqueue_unique (ID file) q) as [e q'] eqn:Een.
      specialize (Hq q q' e Een).
      cbn [fst]. destruct e as [err|]; destruct (paused s) eqn:Ep;
        cbn -[skipn length In app];
        rewrite ?Htr, <- ?app_assoc, ?skipn_length_app, ?skipn_all;
        (split; [reflexivity|]); (split; [exact Hr|]);
        (split; [cbn [In app]; intuition (try discriminate; try congruence)|]);
        try (intros; discriminate).
      * intros _. exists (mkTaggingService true (Some q')), q'. auto.
      * intros _. exists (mkTaggingService false (Some q')), q'. auto.
    + rewrite Hsvc. destruct (paused s) eqn:Ep;
        cbn [fst snd trace with_trace]; rewrite ?Htr, ?skipn_length_app,
          ?skipn_all;
        (split; [reflexivity|]); (split; [exact Hr|]);
        (split; [cbn [In app]; intuition (try discriminate; try congruence)|]);
        intros; discriminate.
Qed.

Lemma AddFileToQueue_outcomes_witness :
  let file := sampleFile "a" "" "normal" AITaggingStatusNone 0 0 in
  let w := sampleWorld [file] (Some runningFullService) in
  let res := AddFileToQueue file w in
  globalTaggingService w = Some runningFullService /\
  db_conn w = true /\
  fst res = None /\
  (db_fault w StmtSetPending = None ->
   Forall2 (fun r r' => if has_id (ID file) r
                        then r' = markedPending (now w) r else r' = r)
           (tbl_file w) (tbl_file (snd res))) /\
  (In (EvProcessSingleFile (ID file)) (addedEvents w (snd res)) <->
   refusedByQueue runningFullService (ID file) = true /\
   paused runningFullService = false) /\
  (refusedByQueue runningFullService (ID file) = false ->
   exists s' q',
     globalTaggingService (snd res) = Some s' /\
     taskQueue s' = Some q' /\
     In (ID file) (queued q' ++ inflight q')).
Proof.
  intros file w res. split; [reflexivity|]. split; [reflexivity|].
  exact (proj2 (AddFileToQueue_outcomes file w) runningFullService
               eq_refl eq_refl).
Defined.

(** C2, the claim as stated fails. With the service paused and its queue
    full, the file is marked pending but is neither queued nor processed
    synchronously; with the feature switched off the job is not marked
    skipped (nor pending): nothing is written. *)
Lemma AddFileToQueue_paused_or_disabled_not_processed :
  let file := sampleFile "a" "" "normal" AITaggingStatusNone 0 0 in
  let paused_run := AddFileToQueue file
                      (sampleWorld [file] (Some pausedFullService)) in
  let disabled_run := AddFileToQueue file (disabledWorld [file]) in
  fst paused_run = None /\
  map AITaggingStatus_ (tbl_file (snd paused_run)) = [AITaggingStatusPending] /\
  trace (snd paused_run) = [] /\
  globalTaggingService (snd paused_run) = Some pausedFullService /\
  fst disabled_run = None /\
  map AITaggingStatus_ (tbl_file (snd disabled_run)) = [AITaggingStatusNone] /\
  trace (snd disabled_run) = [] /\
  globalTaggingService (snd disabled_run) = None.
Proof. vm_compute. repeat split. Qed.

(** ** The stuck-job recovery tick *)

Lemma count_positive_existsb {A} (p : A -> bool) (l : list A) :
  (0 <? Z.of_nat (length (filter p l))) = existsb p l.
Proof.
  induction l as [|x l IH]; [reflexivity|].
  cbn [filter existsb]. destruct (p x); cbn [orb]; [|exact IH].
  apply Z.ltb_lt. cbn [length]. lia.
Qed.




(** ** A fault-free propagation to the duplicates *)

Lemma forEach_copyRelation_run dupID rs w :
  no_faults w ->
  forEach (copyRelation dupID) rs w =
  (tt, with_relation (tbl_file_global_tag_relation w
                      ++ map (retarget dupID) rs) w).
Proof.
  revert w. induction rs as [|r rs IH]; intros w Hnf.
  - cbn [forEach map]. rewrite app_nil_r. unfold ret. f_equal.
    now destruct w.
  - cbn [forEach map]. unfold copyRelation at 1.
    erewrite bind_run;
      [|erewrite bind_run by (apply exec_ok, Hnf); reflexivity].
    rewrite IH by (intros s; apply Hnf).
    destruct w. cbn. now rewrite <- app_assoc.
Qed.

Lemma map_ite_same {A} (p : A -> bool) (t : list A) :
  map (fun r => if p r then r else r) t = t.
Proof.
  induction t as [|r t IH]; [reflexivity|]. cbn. rewrite IH.
  now destruct (p r).
Qed.

Ltac open_world w :=
  destruct w as [c fl tf ta trl tg tl st g n t trc];
  unfold update_file, with_file, with_file_ai_info, with_relation, with_trace;
  cbn.

Lemma propagateToDuplicate_run originalID orig origAI dup w :
  no_faults w ->
  propagateToDuplicate originalID orig origAI dup w =
  (tt, propagateStep originalID orig origAI (ID dup) w).
Proof.
  intros Hnf. unfold propagateToDuplicate, propagateStep, copyAIInfo, copyTags,
    copyToRow.
  set (w1 := with_file_ai_info _ w).
  assert (Hai : (if negb (String.eqb (AI_FileID origAI) "")
                 then
                   let clone := cloneFor (ID dup) origAI in
                   exec StmtPropUpsertAIInfo
                        (fun w => with_file_ai_info
                                    (upsert_ai_info clone (tbl_file_ai_info w)) w) ;;;
                   (if negb (String.eqb (AI_Description clone) "")
                    then exec StmtPropUpdateDescription
                              (update_file (has_id (ID dup))
                                 (set_Description (AI_Description clone))) ;;;
                         ret tt
                    else ret tt)
                 else ret tt) w =
                (tt, with_file
                       (map (fun r => if has_id (ID dup) r
                         then if String.eqb (AI_FileID origAI) "" then r
                              else if String.eqb (AI_Description origAI) ""
                                   then r
                                   else set_Description
                                          (AI_Description origAI) r
                         else r) (tbl_file w)) w1)).
  { unfold w1. destruct (String.eqb (AI_FileID origAI) "").
    - cbn [negb]. unfold ret. f_equal. open_world w. f_equal.
      symmetry; apply map_ite_same.
    - cbn [negb]. cbv zeta.
      erewrite bind_run by (apply exec_ok, Hnf).
      change (AI_Description (cloneFor (ID dup) origAI))
        with (AI_Description origAI).
      destruct (String.eqb (AI_Description origAI) "").
      + cbn [negb]. unfold ret. f_equal. open_world w. f_equal.
        symmetry; apply map_ite_same.
      + cbn [negb]. erewrite bind_run by (apply exec_ok; intros; apply Hnf).
        reflexivity. }
  erewrite bind_run by exact Hai. clear Hai.
  set (w2 := with_file _ w1).
  assert (Hnf2 : no_faults w2) by (intros s; apply Hnf).
  cbv beta. unfold bind at 1. unfold bind at 1. unfold query at 1.
  rewrite Hnf2.
  change (tbl_file_global_tag_relation w2)
    with (tbl_file_global_tag_relation w).
  destruct (relations_of (ID dup) (tbl_file_global_tag_relation w))
    as [|r0 rs0] eqn:Erel.
  - cbn [length Z.of_nat]. unfold bind at 1, query at 1. rewrite Hnf2.
    change (tbl_file_global_tag_relation w2)
      with (tbl_file_global_tag_relation w).
    rewrite forEach_copyRelation_run by exact Hnf2.
    unfold bind at 1. rewrite exec_ok by (intros; apply Hnf).
    unfold ret; f_equal; unfold w2, w1;
      open_world w;
      f_equal; rewrite map_map; apply map_ext; intros r; unfold has_id;
      destruct r as [x1 x2 x3 x4 x5 x6 x7 x8 x9 x10 x11 x12 x13]; cbn;
      destruct (String.eqb x1 (ID dup)) eqn:Eid;
      (destruct (String.eqb (AI_FileID origAI) "");
       [|destruct (String.eqb (AI_Description origAI) "")]);
      cbn; repeat (rewrite Eid; cbn); reflexivity.
  - cbn [length]. rewrite Nat2Z.inj_succ.
    destruct (Z.succ (Z.of_nat (length rs0))) eqn:Ez; [lia| |];
      unfold ret at 1; unfold bind at 1;
      rewrite exec_ok by (intros; apply Hnf);
      unfold ret; f_equal; unfold w2, w1;
      open_world w;
      f_equal; rewrite map_map; apply map_ext; intros r; unfold has_id;
      destruct r as [x1 x2 x3 x4 x5 x6 x7 x8 x9 x10 x11 x12 x13]; cbn;
      destruct (String.eqb x1 (ID dup)) eqn:Eid;
      (destruct (String.eqb (AI_FileID origAI) "");
       [|destruct (String.eqb (AI_Description origAI) "")]);
      cbn; repeat (rewrite Eid; cbn); reflexivity.
Qed.


Lemma forEach_propagate_run originalID orig origAI dups w :
  no_faults w ->
  forEach (propagateToDuplicate originalID orig origAI) dups w =
  (tt, fold_left (fun w d => propagateStep originalID orig origAI d w)
                 (map ID dups) w).
Proof.
  revert w. induction dups as [|d dups IH]; intros w Hnf; [reflexivity|].
  cbn [forEach map fold_left].
  erewrite bind_run by (apply propagateToDuplicate_run, Hnf).
  apply IH. intros s. apply Hnf.
Qed.

Lemma query_ok {A} s (q : World -> A) w :
  db_fault w s = None -> query s q w = (inr (q w), w).
Proof. intros E; unfold query; now rewrite E. Qed.

Lemma propagateAIToDuplicates_run originalID orig w :
  no_faults w ->
  db_conn w = true ->
  find (has_id originalID) (tbl_file w) = Some orig ->
  propagateAIToDuplicates originalID w =
  (tt, fold_left (fun w' d => propagateStep originalID orig
                                (originalAIInfo originalID w) d w')
                 (duplicateIDs originalID w) w).
Proof.
  intros Hnf Hdb Ho. unfold propagateAIToDuplicates.
  unfold bind at 1, gets at 1. rewrite Hdb. cbn [negb].
  erewrite bind_run by (apply query_ok, Hnf). cbv beta. rewrite Ho.
  erewrite bind_run by (apply query_ok, Hnf). cbv beta.
  erewrite bind_run by (apply query_ok, Hnf). cbv beta.
  cbv iota.
  rewrite forEach_propagate_run by exact Hnf.
  unfold originalAIInfo, duplicateIDs.
  now destruct (find (same_file originalID) (tbl_file_ai_info w)).
Qed.

Lemma fold_step_relation originalID orig origAI ids w :
  tbl_file_global_tag_relation
    (fold_left (fun w d => propagateStep originalID orig origAI d w) ids w) =
  fold_left (fun t d => copyTags originalID d t) ids
            (tbl_file_global_tag_relation w).
Proof.
  revert w. induction ids as [|d ids IH]; intros w; [reflexivity|].
  cbn [fold_left]. now rewrite IH.
Qed.

Lemma fold_step_ai_info originalID orig origAI ids w :
  tbl_file_ai_info
    (fold_left (fun w d => propagateStep originalID orig origAI d w) ids w) =
  fold_left (fun t d => copyAIInfo origAI d t) ids (tbl_file_ai_info w).
Proof.
  revert w. induction ids as [|d ids IH]; intros w; [reflexivity|].
  cbn [fold_left]. now rewrite IH.
Qed.

Lemma fold_step_file originalID orig origAI ids w :
  tbl_file
    (fold_left (fun w d => propagateStep originalID orig origAI d w) ids w) =
  fold_left (fun t d => map (fun r => if has_id d r
                                      then copyToRow orig origAI r else r) t)
            ids (tbl_file w).
Proof.
  revert w. induction ids as [|d ids IH]; intros w; [reflexivity|].
  cbn [fold_left]. now rewrite IH.
Qed.

Lemma fold_step_fault originalID orig origAI ids w :
  db_fault
    (fold_left (fun w d => propagateStep originalID orig origAI d w) ids w) =
  db_fault w.
Proof.
  revert w. induction ids as [|d ids IH]; intros w; [reflexivity|].
  cbn [fold_left]. now rewrite IH.
Qed.

(** ** The tables after a propagation *)

Lemma relations_of_app i t1 t2 :
  relations_of i (t1 ++ t2) = (relations_of i t1 ++ relations_of i t2)%list.
Proof. apply filter_app. Qed.

Lemma relations_of_retarget i d rs :
  relations_of i (map (retarget d) rs) =
  if String.eqb d i then map (retarget d) rs else [].
Proof.
  unfold relations_of. induction rs as [|r rs IH]; cbn [map filter].
  - now destruct (String.eqb d i).
  - rewrite IH. cbn [retarget Rel_FileID]. now destruct (String.eqb d i).
Qed.

Lemma relations_of_copyTags originalID d t i :
  relations_of i (copyTags originalID d t) =
  if String.eqb d i && isnil (relations_of i t)
  then map (retarget i) (relations_of originalID t)
  else relations_of i t.
Proof.
  unfold copyTags. destruct (String.eqb d i) eqn:Edi.
  - apply String.eqb_eq in Edi. subst d.
    destruct (relations_of i t) as [|r0 rs0] eqn:Er; cbn [andb isnil].
    + now rewrite relations_of_app, Er, relations_of_retarget,
        String.eqb_refl.
    + exact Er.
  - cbn [andb]. destruct (relations_of d t); [|reflexivity].
    now rewrite relations_of_app, relations_of_retarget, Edi, app_nil_r.
Qed.

Lemma relations_of_original_copyTags originalID d t :
  relations_of originalID (copyTags originalID d t) =
  relations_of originalID t.
Proof.
  rewrite relations_of_copyTags.
  destruct (String.eqb d originalID); [|reflexivity].
  now destruct (relations_of originalID t).
Qed.

Lemma relations_of_fold_copyTags originalID ids t i :
  relations_of i (fold_left (fun t d => copyTags originalID d t) ids t) =
  if existsb (String.eqb i) ids && isnil (relations_of i t)
  then map (retarget i) (relations_of originalID t)
  else relations_of i t.
Proof.
  revert t. induction ids as [|d ids IH]; intros t; [reflexivity|].
  cbn [fold_left existsb]. rewrite IH.
  rewrite relations_of_original_copyTags, relations_of_copyTags.
  rewrite (String.eqb_sym i d).
  destruct (String.eqb d i) eqn:Edi; cbn [andb orb];
    destruct (relations_of i t) as [|r0 rs0] eqn:Er; cbn [isnil andb];
    rewrite ?Er; cbn [isnil];
    rewrite ?andb_false_r, ?andb_true_r; try reflexivity.
  now destruct (existsb (String.eqb i) ids
                && isnil (map (retarget i) (relations_of originalID t))).
Qed.

Lemma copyToRow_keeps orig origAI r :
  ID (copyToRow orig origAI r) = ID r /\
  OriginalFileID (copyToRow orig origAI r) = OriginalFileID r /\
  Status (copyToRow orig origAI r) = Status r /\
  AITaggingTries (copyToRow orig origAI r) = AITaggingTries r /\
  AITaggingStatus_ (copyToRow orig origAI r) = AITaggingStatusDone.
Proof.
  unfold copyToRow, doneUpdates.
  destruct (String.eqb (AI_FileID origAI) ""),
    (String.eqb (AI_Description origAI) ""), (CategoryID orig);
    repeat split.
Qed.

Lemma copyToRow_idempotent orig origAI r :
  copyToRow orig origAI (copyToRow orig origAI r) = copyToRow orig origAI r.
Proof.
  unfold copyToRow, doneUpdates.
  destruct (String.eqb (AI_FileID origAI) ""),
    (String.eqb (AI_Description origAI) ""), (CategoryID orig);
    reflexivity.
Qed.

Lemma fold_copyToRow orig origAI ids t :
  fold_left (fun t d => map (fun r => if has_id d r
                                      then copyToRow orig origAI r else r) t)
            ids t =
  map (fun r => if existsb (String.eqb (ID r)) ids
                then copyToRow orig origAI r else r) t.
Proof.
  revert t. induction ids as [|d ids IH]; intros t.
  - cbn. symmetry. rewrite <- (map_id t) at 2. now apply map_ext.
  - cbn [fold_left existsb]. rewrite IH, map_map. apply map_ext. intros r.
    unfold has_id. destruct (String.eqb (ID r) d); cbn [orb].
    + destruct (copyToRow_keeps orig origAI r) as (-> & _).
      rewrite copyToRow_idempotent.
      now destruct (existsb (String.eqb (ID r)) ids).
    + reflexivity.
Qed.

(** *** The UPSERT *)

Lemma same_file_set_AI_ID B x r : same_file B (set_AI_ID x r) = same_file B r.
Proof. reflexivity. Qed.

Lemma same_file_self x row :
  same_file (AI_FileID row) (set_AI_ID x row) = true.
Proof. unfold same_file. cbn. apply String.eqb_refl. Qed.

Lemma filter_upsert_other B row t :
  same_file B row = false ->
  filter (same_file B) (upsert_ai_info row t) = filter (same_file B) t.
Proof.
  intros Hne. unfold upsert_ai_info.
  destruct (existsb (same_file (AI_FileID row)) t).
  - induction t as [|r t IH]; [reflexivity|]. cbn [map filter].
    rewrite IH. destruct (same_file (AI_FileID row) r) eqn:Er.
    + rewrite same_file_set_AI_ID, Hne.
      unfold same_file in *. apply String.eqb_eq in Er. rewrite Er.
      now rewrite Hne.
    + reflexivity.
  - rewrite filter_app. cbn [filter]. rewrite same_file_set_AI_ID, Hne.
    apply app_nil_r.
Qed.

Lemma find_hd_filter {A} (p : A -> bool) (t : list A) :
  find p t = hd_error (filter p t).
Proof.
  induction t as [|r t IH]; [reflexivity|]. cbn. now destruct (p r).
Qed.

Lemma set_AI_ID_cloneFor_self (o : FileAIInfo) :
  set_AI_ID (AI_ID o) (cloneFor (AI_FileID o) o) = o.
Proof. now destruct o. Qed.

Lemma upsert_ai_info_fixed row t :
  existsb (same_file (AI_FileID row)) t = true ->
  (forall r, In r t -> same_file (AI_FileID row) r = true ->
             r = set_AI_ID (AI_ID r) row) ->
  upsert_ai_info row t = t.
Proof.
  intros Hex Hall. unfold upsert_ai_info. rewrite Hex.
  rewrite <- (map_id t) at 2. apply map_ext_in. intros r Hin.
  destruct (same_file (AI_FileID row) r) eqn:Er; [|reflexivity].
  symmetry. now apply Hall.
Qed.

Lemma upsert_ai_info_rows row t r :
  In r (upsert_ai_info row t) ->
  same_file (AI_FileID row) r = true ->
  r = set_AI_ID (AI_ID r) row.
Proof.
  unfold upsert_ai_info.
  destruct (existsb (same_file (AI_FileID row)) t) eqn:Hex.
  - intros Hin Hr. apply in_map_iff in Hin as (r0 & Heq & Hin0).
    destruct (same_file (AI_FileID row) r0) eqn:E0.
    + subst r. now destruct row.
    + subst r0. congruence.
  - intros Hin Hr. apply in_app_or in Hin as [Hin|[<-|[]]].
    + assert (existsb (same_file (AI_FileID row)) t = true)
        by (apply existsb_exists; eauto).
      congruence.
    + now destruct row.
Qed.

Lemma upsert_ai_info_has_row row t :
  existsb (same_file (AI_FileID row)) (upsert_ai_info row t) = true.
Proof.
  unfold upsert_ai_info.
  destruct (existsb (same_file (AI_FileID row)) t) eqn:Hex.
  - apply existsb_exists in Hex as (r & Hin & Hr).
    apply existsb_exists.
    exists (set_AI_ID (AI_ID r) row). split.
    + apply in_map_iff. exists r. now rewrite Hr.
    + apply same_file_self.
  - rewrite existsb_app. cbn [existsb]. rewrite same_file_self.
    now rewrite orb_true_r.
Qed.

(** Idempotence of the UPSERT, and the one row per file it maintains. *)
Lemma upsert_ai_info_idempotent row t :
  upsert_ai_info row (upsert_ai_info row t) = upsert_ai_info row t.
Proof.
  apply upsert_ai_info_fixed.
  - apply upsert_ai_info_has_row.
  - intros r. apply upsert_ai_info_rows.
Qed.

Lemma upsert_ai_info_count row t :
  length (filter (same_file (AI_FileID row)) (upsert_ai_info row t)) =
  Nat.max 1 (length (filter (same_file (AI_FileID row)) t)).
Proof.
  unfold upsert_ai_info.
  destruct (existsb (same_file (AI_FileID row)) t) eqn:Hex.
  - assert (Hlen : length (filter (same_file (AI_FileID row))
                    (map (fun r => if same_file (AI_FileID row) r
                                   then set_AI_ID (AI_ID r) row else r) t)) =
                   length (filter (same_file (AI_FileID row)) t)).
    { clear Hex. induction t as [|r t IH]; [reflexivity|]. cbn [map filter].
      destruct (same_file (AI_FileID row) r) eqn:Er.
      - rewrite same_file_self. cbn [length]. now rewrite IH.
      - rewrite Er. exact IH. }
    rewrite Hlen. apply existsb_exists in Hex as (r & Hin & Hr).
    assert (In r (filter (same_file (AI_FileID row)) t))
      by (apply filter_In; auto).
    destruct (filter (same_file (AI_FileID row)) t); [contradiction|].
    cbn [length]. lia.
  - rewrite filter_app, length_app. cbn [filter].
    rewrite same_file_self. cbn [length].
    assert (Hnone : filter (same_file (AI_FileID row)) t = []).
    { destruct (filter (same_file (AI_FileID row)) t) as [|r l] eqn:Ef;
        [reflexivity|].
      assert (Hin : In r (filter (same_file (AI_FileID row)) t))
        by (rewrite Ef; now left).
      apply filter_In in Hin as [Hin Hr].
      assert (existsb (same_file (AI_FileID row)) t = true)
        by (apply existsb_exists; eauto).
      congruence. }
    now rewrite Hnone.
Qed.

(** *** The AI information after a propagation *)

Lemma same_file_eq B r : same_file B r = true <-> AI_FileID r = B.
Proof. unfold same_file. apply String.eqb_eq. Qed.

Lemma clonedTo_upsert_self o B t :
  clonedTo o B (upsert_ai_info (cloneFor B o) t).
Proof.
  split.
  - pose proof (upsert_ai_info_has_row (cloneFor B o) t) as Hex.
    apply existsb_exists in Hex as (r & Hin & Hr).
    exists r. split; [exact Hin|]. now apply same_file_eq in Hr.
  - intros r Hin Hr. apply upsert_ai_info_rows with t; [exact Hin|].
    now apply same_file_eq.
Qed.

Lemma clonedTo_filter o B t t' :
  filter (same_file B) t' = filter (same_file B) t ->
  clonedTo o B t -> clonedTo o B t'.
Proof.
  intros Hf [(r & Hin & Hr) Hall].
  assert (Hmem : forall x, AI_FileID x = B -> (In x t' <-> In x t)).
  { intros x Hx. apply same_file_eq in Hx.
    split; intros Hi.
    - assert (Hx' : In x (filter (same_file B) t'))
        by (apply filter_In; auto).
      rewrite Hf in Hx'. now apply filter_In in Hx'.
    - assert (Hx' : In x (filter (same_file B) t))
        by (apply filter_In; auto).
      rewrite <- Hf in Hx'. now apply filter_In in Hx'. }
  split.
  - exists r. split; [now apply Hmem|exact Hr].
  - intros x Hin' Hx. apply Hall; [now apply Hmem|exact Hx].
Qed.

Lemma clonedTo_copyAIInfo o B d t :
  clonedTo o B t -> clonedTo o B (copyAIInfo o d t).
Proof.
  intros Hc. unfold copyAIInfo.
  destruct (String.eqb (AI_FileID o) ""); [exact Hc|].
  destruct (String.eqb d B) eqn:Ed.
  - apply String.eqb_eq in Ed. subst d. apply clonedTo_upsert_self.
  - apply clonedTo_filter with t; [|exact Hc].
    apply filter_upsert_other. exact Ed.
Qed.

Lemma clonedTo_fold_keeps o B ids t :
  clonedTo o B t ->
  clonedTo o B (fold_left (fun t d => copyAIInfo o d t) ids t).
Proof.
  revert t. induction ids as [|d ids IH]; intros t Hc; [exact Hc|].
  cbn [fold_left]. apply IH. now apply clonedTo_copyAIInfo.
Qed.

Lemma clonedTo_fold o B ids t :
  String.eqb (AI_FileID o) "" = false ->
  In B ids ->
  clonedTo o B (fold_left (fun t d => copyAIInfo o d t) ids t).
Proof.
  intros Ho. revert t. induction ids as [|d ids IH]; intros t Hin;
    [destruct Hin|].
  cbn [fold_left]. destruct Hin as [->|Hin']; [|now apply IH].
  apply clonedTo_fold_keeps. unfold copyAIInfo. rewrite Ho.
  apply clonedTo_upsert_self.
Qed.

Lemma filter_fold_copyAIInfo_other o B ids t :
  existsb (String.eqb B) ids = false ->
  filter (same_file B) (fold_left (fun t d => copyAIInfo o d t) ids t) =
  filter (same_file B) t.
Proof.
  revert t. induction ids as [|d ids IH]; intros t Hn; [reflexivity|].
  cbn [existsb] in Hn. apply orb_false_iff in Hn as [Hd Hn].
  cbn [fold_left]. rewrite IH by exact Hn.
  unfold copyAIInfo. destruct (String.eqb (AI_FileID o) ""); [reflexivity|].
  apply filter_upsert_other. unfold same_file. cbn.
  now rewrite String.eqb_sym.
Qed.

Lemma copyAIInfo_fixed o d t :
  clonedTo o d t -> copyAIInfo o d t = t.
Proof.
  intros [(r & Hin & Hr) Hall]. unfold copyAIInfo.
  destruct (String.eqb (AI_FileID o) ""); [reflexivity|].
  apply upsert_ai_info_fixed.
  - apply existsb_exists. exists r. split; [exact Hin|].
    now apply same_file_eq.
  - intros x Hx Hs. apply Hall; [exact Hx|]. now apply same_file_eq in Hs.
Qed.

Lemma fold_copyAIInfo_fixed o ids t :
  (forall d, In d ids -> clonedTo o d t) ->
  fold_left (fun t d => copyAIInfo o d t) ids t = t.
Proof.
  induction ids as [|d ids IH]; intros Hall; [reflexivity|].
  cbn [fold_left]. rewrite copyAIInfo_fixed by (apply Hall; now left).
  apply IH. intros d' Hd'. apply Hall. now right.
Qed.

Lemma fold_copyAIInfo_none o ids t :
  String.eqb (AI_FileID o) "" = true ->
  fold_left (fun t d => copyAIInfo o d t) ids t = t.
Proof.
  intros Ho. induction ids as [|d ids IH]; [reflexivity|].
  cbn [fold_left]. unfold copyAIInfo at 2. now rewrite Ho.
Qed.

Lemma fold_copyAIInfo_idempotent o ids t :
  let t1 := fold_left (fun t d => copyAIInfo o d t) ids t in
  fold_left (fun t d => copyAIInfo o d t) ids t1 = t1.
Proof.
  intros t1. destruct (String.eqb (AI_FileID o) "") eqn:Ho.
  - now apply fold_copyAIInfo_none.
  - apply fold_copyAIInfo_fixed. intros d Hd. now apply clonedTo_fold.
Qed.

Lemma find_upsert_original originalID o t :
  find (same_file originalID) t = Some o ->
  find (same_file originalID) (upsert_ai_info (cloneFor originalID o) t) =
  Some o.
Proof.
  intros Hf. unfold upsert_ai_info. change (AI_FileID (cloneFor originalID o))
    with originalID.
  assert (Hex : existsb (same_file originalID) t = true).
  { apply find_some in Hf. apply existsb_exists. now exists o. }
  rewrite Hex. clear Hex.
  induction t as [|r t IH]; [discriminate|]. cbn [find map] in *.
  destruct (same_file originalID r) eqn:Er.
  - injection Hf as ->. rewrite same_file_set_AI_ID. cbn [cloneFor].
    change (same_file originalID (cloneFor originalID o)) with
      (String.eqb originalID originalID).
    rewrite String.eqb_refl. f_equal.
    apply same_file_eq in Er. rewrite <- Er. apply set_AI_ID_cloneFor_self.
  - rewrite Er. now apply IH.
Qed.

Lemma find_fold_original originalID ids t :
  let o := match find (same_file originalID) t with
           | Some r => r
           | None => zeroFileAIInfo
           end in
  find (same_file originalID)
       (fold_left (fun t d => copyAIInfo o d t) ids t) =
  find (same_file originalID) t.
Proof.
  intros o. destruct (find (same_file originalID) t) as [r|] eqn:Hf.
  - subst o. revert t Hf. induction ids as [|d ids IH]; intros t Hf;
      [exact Hf|].
    cbn [fold_left]. rewrite IH; [reflexivity|].
    unfold copyAIInfo. destruct (String.eqb (AI_FileID r) ""); [exact Hf|].
    destruct (String.eqb d originalID) eqn:Ed.
    + apply String.eqb_eq in Ed. subst d. now apply find_upsert_original.
    + rewrite find_hd_filter, filter_upsert_other, <- find_hd_filter;
        [exact Hf|exact Ed].
  - subst o. rewrite fold_copyAIInfo_none by reflexivity. exact Hf.
Qed.

(** *** Running the propagation again *)

Lemma copyTags_fixed originalID ids t d :
  let t1 := fold_left (fun t d => copyTags originalID d t) ids t in
  In d ids -> copyTags originalID d t1 = t1.
Proof.
  intros t1 Hd. unfold copyTags.
  destruct (relations_of d t1) as [|r0 rs0] eqn:Er; [|reflexivity].
  assert (Ho : relations_of originalID t1 = []).
  { unfold t1 in Er. rewrite relations_of_fold_copyTags in Er.
    assert (Hex : existsb (String.eqb d) ids = true).
    { apply existsb_exists. exists d. split; [exact Hd|apply String.eqb_refl]. }
    rewrite Hex in Er. cbn [andb] in Er.
    unfold t1. rewrite relations_of_fold_copyTags.
    destruct (relations_of d t) as [|x xs] eqn:Ed; cbn [isnil] in Er.
    - apply map_eq_nil in Er. rewrite Er.
      now destruct (existsb (String.eqb originalID) ids).
    - discriminate. }
  rewrite Ho. apply app_nil_r.
Qed.

Lemma fold_copyTags_idempotent originalID ids t :
  let t1 := fold_left (fun t d => copyTags originalID d t) ids t in
  fold_left (fun t d => copyTags originalID d t) ids t1 = t1.
Proof.
  intros t1.
  assert (Hfix : forall l, (forall d, In d l -> In d ids) ->
                           fold_left (fun t d => copyTags originalID d t) l t1
                           = t1).
  { induction l as [|d l IH]; intros Hsub; [reflexivity|].
    cbn [fold_left]. unfold t1 at 1.
    rewrite copyTags_fixed by (apply Hsub; now left).
    apply IH. intros d' Hd'. apply Hsub. now right. }
  apply Hfix. auto.
Qed.

(** *** Whatever the store does *)

Lemma doneOrKept_refl r : doneOrKept r r.
Proof. repeat split; auto. Qed.

Lemma doneOrKept_trans r1 r2 r3 :
  doneOrKept r1 r2 -> doneOrKept r2 r3 -> doneOrKept r1 r3.
Proof.
  intros (Hi & Ht & Hs) (Hi' & Ht' & Hs'). repeat split; try congruence.
  destruct Hs' as [Hs'|Hs']; [rewrite Hs'; exact Hs | now right].
Qed.

Lemma Forall2_trans {A} (P : A -> A -> Prop) l1 l2 l3 :
  (forall a b c, P a b -> P b c -> P a c) ->
  Forall2 P l1 l2 -> Forall2 P l2 l3 -> Forall2 P l1 l3.
Proof.
  intros Htr H12. revert l3. induction H12; intros l3 H23;
    inversion H23; subst; constructor; eauto.
Qed.

Lemma keeps_jobs_ret {A} (a : A) : keeps_jobs (ret a).
Proof.
  intros w; split; [|reflexivity].
  apply Forall2_pointwise_same, doneOrKept_refl.
Qed.

Lemma keeps_jobs_bind {A B} (c : M A) (k : A -> M B) :
  keeps_jobs c -> (forall a, keeps_jobs (k a)) -> keeps_jobs (bind c k).
Proof.
  intros Hc Hk w. unfold bind. specialize (Hc w).
  destruct (c w) as [a w1]. cbn [snd] in Hc. destruct Hc as [Hr Ht].
  destruct (Hk a w1) as [Hr1 Ht1]. split; [|congruence].
  eapply Forall2_trans; eauto using doneOrKept_trans.
Qed.

Lemma keeps_jobs_gets {A} (f : World -> A) : keeps_jobs (gets f).
Proof.
  intros w; split; [|reflexivity].
  apply Forall2_pointwise_same, doneOrKept_refl.
Qed.

Lemma keeps_jobs_query {A} s (q : World -> A) : keeps_jobs (query s q).
Proof.
  intros w. unfold query. destruct (db_fault w s); (split; [|reflexivity]);
    apply Forall2_pointwise_same, doneOrKept_refl.
Qed.

Lemma keeps_jobs_exec_other s (f : World -> World) :
  (forall w, tbl_file (f w) = tbl_file w /\ trace (f w) = trace w) ->
  keeps_jobs (exec s f).
Proof.
  intros Hf w. unfold exec. destruct (db_fault w s); cbn [snd].
  - split; [|reflexivity]. apply Forall2_pointwise_same, doneOrKept_refl.
  - destruct (Hf w) as [-> ->]. split; [|reflexivity].
    apply Forall2_pointwise_same, doneOrKept_refl.
Qed.

Lemma keeps_jobs_update_file s p f :
  (forall r, doneOrKept r (f r)) ->
  keeps_jobs (exec s (update_file p f)).
Proof.
  intros Hf w. unfold exec. destruct (db_fault w s); cbn [snd].
  - split; [|reflexivity]. apply Forall2_pointwise_same, doneOrKept_refl.
  - split; [|reflexivity]. cbn. apply Forall2_map_pointwise. intros r _.
    destruct (p r); [apply Hf | apply doneOrKept_refl].
Qed.

Lemma keeps_jobs_forEach {A} (body : A -> M unit) l :
  (forall x, keeps_jobs (body x)) -> keeps_jobs (forEach body l).
Proof.
  intros Hb. induction l as [|x l IH]; cbn [forEach].
  - apply keeps_jobs_ret.
  - apply keeps_jobs_bind; auto.
Qed.

Lemma doneOrKept_set_Description v r : doneOrKept r (set_Description v r).
Proof. repeat split; auto. Qed.

Lemma doneOrKept_doneUpdates orig r : doneOrKept r (doneUpdates orig r).
Proof.
  unfold doneUpdates. destruct (CategoryID orig); repeat split; auto.
Qed.

Ltac jobs :=
  repeat first
    [ apply keeps_jobs_ret
    | apply keeps_jobs_gets
    | apply keeps_jobs_query
    | apply keeps_jobs_update_file;
      first [apply doneOrKept_set_Description | apply doneOrKept_doneUpdates]
    | apply keeps_jobs_exec_other; intros; split; reflexivity
    | apply keeps_jobs_forEach; intros ?
    | apply keeps_jobs_bind; [|intros ?]
    | match goal with
      | |- keeps_jobs (match ?x with _ => _ end) => destruct x
      end ].

Lemma keeps_jobs_propagateAIToDuplicates originalID :
  keeps_jobs (propagateAIToDuplicates originalID).
Proof.
  unfold propagateAIToDuplicates, propagateToDuplicate, copyRelation. jobs.
Qed.

(** ** Duplicate propagation *)

Lemma In_duplicateIDs originalID w d :
  In d (duplicateIDs originalID w) <->
  exists r, In r (tbl_file w) /\ ID r = d /\
            OriginalFileID r = originalID /\
            Status r <> "pending_deletion".
Proof.
  unfold duplicateIDs. rewrite in_map_iff. split.
  - intros (r & Hid & Hin). apply filter_In in Hin as [Hin Hd].
    unfold is_duplicate_of in Hd. apply andb_true_iff in Hd as [Ho Hs].
    exists r. repeat split; trivial.
    + now apply String.eqb_eq.
    + intros Hst. apply String.eqb_eq in Hst. rewrite Hst in Hs. discriminate.
  - intros (r & Hin & Hid & Ho & Hs). exists r. split; [exact Hid|].
    apply filter_In. split; [exact Hin|].
    unfold is_duplicate_of. apply andb_true_iff. split.
    + now apply String.eqb_eq.
    + destruct (String.eqb (Status r) "pending_deletion") eqn:E;
        [|reflexivity].
      apply String.eqb_eq in E. contradiction.
Qed.

(** C4 (as amended). Whatever the store does, a propagation records no call
    (in particular no provider call) and changes no job other than by setting
    it to [done]; the tries counters stay. In a fault-free run for an
    original that exists, the files touched are exactly those recorded as
    duplicates of it and not marked [pending_deletion]: each of their jobs
    is set to [done], tries untouched, and every other row stays as it was;
    each gets a copy of the original's AI information when the original has
    one; each that had no tag association gets the original's associations,
    while one that had some keeps its own; AI information and associations
    of all other files stay as they were. The propagation is started by
    [processAIResponse] with [go] after the job is done, and the result of
    [processAIResponse] is already fixed then. *)
Theorem propagateAIToDuplicates_outcomes
        `{Externals} (originalID : string) (w : World) :
  (let w' := snd (propagateAIToDuplicates originalID w) in
   trace w' = trace w /\ Forall2 doneOrKept (tbl_file w) (tbl_file w')) /\
  (forall orig,
      no_faults w ->
      db_conn w = true ->
      find (has_id originalID) (tbl_file w) = Some orig ->
      let w' := snd (propagateAIToDuplicates originalID w) in
      let dups := duplicateIDs originalID w in
      let origAI := originalAIInfo originalID w in
      (forall d, In d dups <->
                 exists r, In r (tbl_file w) /\ ID r = d /\
                           OriginalFileID r = originalID /\
                           Status r <> "pending_deletion") /\
      tbl_file w' =
        map (fun r => if existsb (String.eqb (ID r)) dups
                      then copyToRow orig origAI r else r) (tbl_file w) /\
      (forall r, AITaggingStatus_ (copyToRow orig origAI r) =
                 AITaggingStatusDone /\
                 AITaggingTries (copyToRow orig origAI r) = AITaggingTries r) /\
      (forall i,
          relations_of i (tbl_file_global_tag_relation w') =
          if existsb (String.eqb i) dups
             && isnil (relations_of i (tbl_file_global_tag_relation w))
          then map (retarget i)
                   (relations_of originalID (tbl_file_global_tag_relation w))
          else relations_of i (tbl_file_global_tag_relation w)) /\
      (String.eqb (AI_FileID origAI) "" = false ->
       forall d, In d dups -> clonedTo origAI d (tbl_file_ai_info w')) /\
      (forall i, existsb (String.eqb i) dups = false ->
                 filter (same_file i) (tbl_file_ai_info w') =
                 filter (same_file i) (tbl_file_ai_info w))) /\
  (forall file resp parsed cde sch base64Data imageFormat,
      no_faults w ->
      Success resp = true ->
      parseAITaggingResult (Data resp) = inr parsed ->
      let res := processAIResponse file (Some resp) cde sch base64Data
                                   imageFormat w in
      fst res = None /\
      In (EvGo (GoPropagateAIToDuplicates (ID file)))
         (addedEvents w (snd res))).
Proof.
  split; [|split].
  - destruct (keeps_jobs_propagateAIToDuplicates originalID w) as [Hr Ht].
    cbv zeta. auto.
  - intros orig Hnf Hdb Ho w' dups origAI. unfold w'.
    rewrite (propagateAIToDuplicates_run _ _ _ Hnf Hdb Ho). cbn [snd].
    fold dups origAI.
    split; [intros d; apply In_duplicateIDs|].
    split; [rewrite fold_step_file; apply fold_copyToRow|].
    split; [intros r; destruct (copyToRow_keeps orig origAI r)
              as (_ & _ & _ & Ht & Hs); auto|].
    split; [intros i; rewrite fold_step_relation;
            apply relations_of_fold_copyTags|].
    split.
    + intros Hai d Hd. rewrite fold_step_ai_info. now apply clonedTo_fold.
    + intros i Hi. rewrite fold_step_ai_info.
      now apply filter_fold_copyAIInfo_other.
  - intros file resp parsed cde sch b64 fmt Hnf Hs Hp res. unfold res.
    rewrite (processAIResponse_run _ _ _ _ _ _ _ _ Hnf Hs Hp). cbn [fst snd].
    split; [reflexivity|]. unfold addedEvents.
    rewrite afterRun_trace, skipn_length_app.
    apply in_or_app; right. apply in_or_app; right. now left.
Qed.

Lemma propagateAIToDuplicates_outcomes_witness :
  let w := propagationWorld in
  let orig := sampleFile "a" "" "normal" AITaggingStatusDone 0 0 in
  let w' := snd (propagateAIToDuplicates "a" w) in
  no_faults w /\
  db_conn w = true /\
  find (has_id "a") (tbl_file w) = Some orig /\
  tbl_file w' =
    map (fun r => if existsb (String.eqb (ID r)) (duplicateIDs "a" w)
                  then copyToRow orig (originalAIInfo "a" w) r else r)
        (tbl_file w).
Proof.
  intros w orig w'. split; [intros s; reflexivity|].
  split; [reflexivity|]. split; [reflexivity|].
  exact (proj1 (proj2 (proj1 (proj2
           (propagateAIToDuplicates_outcomes "a" w))
           orig (fun s => eq_refl) eq_refl eq_refl))).
Defined.

(** C4, the claim as stated fails. After the propagation from ["a"]: the
    duplicate ["b"], marked [pending_deletion], is still pending and has
    neither AI information nor tags; the duplicate ["c"], which had a tag of
    its own, is done but did not get the tag of ["a"]; only ["d"] got
    everything. *)
Lemma propagateAIToDuplicates_skips_some_duplicates :
  let w' := snd (propagateAIToDuplicates "a" propagationWorld) in
  map OriginalFileID (tbl_file propagationWorld) = [""; "a"; "a"; "a"] /\
  map AITaggingStatus_ (tbl_file w') =
    [AITaggingStatusDone; AITaggingStatusPending; AITaggingStatusDone;
     AITaggingStatusDone] /\
  map AI_FileID (tbl_file_ai_info w') = ["a"; "c"; "d"] /\
  relations_of "b" (tbl_file_global_tag_relation w') = [] /\
  map Rel_TagID (relations_of "c" (tbl_file_global_tag_relation w')) = [9] /\
  map Rel_TagID (relations_of "d" (tbl_file_global_tag_relation w')) = [1].
Proof. vm_compute. repeat split. Qed.

(** ** Idempotent persistence *)

Lemma find_app_first {A} (p : A -> bool) (l1 l2 : list A) (x : A) :
  find p l1 = Some x -> find p (l1 ++ l2) = Some x.
Proof.
  induction l1 as [|a l1 IH]; [discriminate|]. cbn.
  destruct (p a); auto.
Qed.

Lemma find_app_later {A} (p : A -> bool) (l1 l2 : list A) :
  find p l1 = None -> find p (l1 ++ l2) = find p l2.
Proof.
  induction l1 as [|a l1 IH]; [reflexivity|]. cbn.
  destruct (p a); [discriminate|auto].
Qed.

Lemma create_tags_from_names_grows names t :
  exists more, snd (create_tags_from_names names t) = (t ++ more)%list.
Proof.
  revert t. induction names as [|n names IH]; intros t.
  - exists []. cbn. now rewrite app_nil_r.
  - cbn [create_tags_from_names].
    destruct (find (fun g => String.eqb (Tag_Name g) n) t) as [g|].
    + destruct (IH t) as (more & Hm).
      destruct (create_tags_from_names names t) as [gs t']. now exists more.
    + destruct (IH (t ++ [mkGlobalTag (next_tag_id t) n])%list) as (more & Hm).
      destruct (create_tags_from_names names _) as [gs t']. cbn [snd] in *.
      exists ([mkGlobalTag (next_tag_id t) n] ++ more)%list.
      now rewrite Hm, <- app_assoc.
Qed.

Lemma create_tags_from_names_stable names t more :
  let t' := snd (create_tags_from_names names t) in
  create_tags_from_names names (t' ++ more) =
  (fst (create_tags_from_names names t), (t' ++ more)%list).
Proof.
  revert t more. induction names as [|n names IH]; intros t more;
    [reflexivity|].
  cbn [create_tags_from_names].
  destruct (find (fun g => String.eqb (Tag_Name g) n) t) as [g|] eqn:Hf.
  - specialize (IH t more).
    destruct (create_tags_from_names_grows names t) as (m0 & Hm0).
    destruct (create_tags_from_names names t) as [gs t'] eqn:Hc.
    cbn [fst snd] in *. subst t'.
    rewrite <- app_assoc.
    rewrite (find_app_first _ _ _ _ Hf).
    rewrite <- app_assoc in IH. now rewrite IH.
  - set (g := mkGlobalTag (next_tag_id t) n) in *.
    specialize (IH (t ++ [g])%list more).
    destruct (create_tags_from_names_grows names (t ++ [g])%list)
      as (m0 & Hm0).
    destruct (create_tags_from_names names (t ++ [g])%list) as [gs t']
      eqn:Hc.
    cbn [fst snd] in *. subst t'.
    rewrite <- !app_assoc. rewrite find_app_later by exact Hf.
    cbn [app find Tag_Name g]. rewrite String.eqb_refl.
    rewrite <- !app_assoc in IH. cbn [app] in IH. now rewrite IH.
Qed.

Lemma create_tags_from_names_again names t :
  let t' := snd (create_tags_from_names names t) in
  create_tags_from_names names t' = (fst (create_tags_from_names names t), t').
Proof.
  intros t'. pose proof (create_tags_from_names_stable names t []) as Hs.
  cbv zeta in Hs. rewrite app_nil_r in Hs. exact Hs.
Qed.

Lemma replace_file_tags_idempotent fileID tagIDs source confidence t :
  replace_file_tags fileID tagIDs source confidence
    (replace_file_tags fileID tagIDs source confidence t) =
  replace_file_tags fileID tagIDs source confidence t.
Proof.
  unfold replace_file_tags.
  set (p := fun r => negb (String.eqb (Rel_FileID r) fileID
                           && String.eqb (Rel_Source r) source)).
  set (new := map (fun tagID => mkRel fileID tagID 0 "" source confidence)
                  tagIDs).
  rewrite filter_app.
  assert (Hnew : filter p new = []).
  { unfold new. induction tagIDs as [|x xs IH]; [reflexivity|].
    cbn [map filter]. unfold p at 1. cbn [Rel_FileID Rel_Source].
    rewrite !String.eqb_refl. exact IH. }
  assert (Hpp : filter p (filter p t) = filter p t).
  { induction t as [|r t IH]; [reflexivity|]. cbn [filter].
    destruct (p r) eqn:Ep; [cbn [filter]; now rewrite Ep, IH | exact IH]. }
  now rewrite Hnew, Hpp, app_nil_r.
Qed.

Section Again.
Context `{Externals}.

Lemma tags_saved_again fileID tags tg rel :
  relationsAfterTags fileID tags (globalTagsAfterTags tags tg)
                     (relationsAfterTags fileID tags tg rel) =
  relationsAfterTags fileID tags tg rel /\
  globalTagsAfterTags tags (globalTagsAfterTags tags tg) =
  globalTagsAfterTags tags tg.
Proof.
  unfold relationsAfterTags, globalTagsAfterTags.
  destruct tags as [|n names]; [split; reflexivity|].
  rewrite create_tags_from_names_again. cbn [fst snd].
  split; [apply replace_file_tags_idempotent | reflexivity].
Qed.

Lemma find_map_same_id originalID (g : File -> File) t :
  (forall r, ID (g r) = ID r) ->
  find (has_id originalID) (map g t) =
  option_map g (find (has_id originalID) t).
Proof.
  intros Hg. induction t as [|r t IH]; [reflexivity|]. cbn [map find].
  unfold has_id at 1. rewrite Hg. fold (has_id originalID r).
  destruct (has_id originalID r); [reflexivity|exact IH].
Qed.

Lemma duplicates_map_same originalID (g : File -> File) t :
  (forall r, ID (g r) = ID r /\ OriginalFileID (g r) = OriginalFileID r /\
             Status (g r) = Status r) ->
  map ID (filter (is_duplicate_of originalID) (map g t)) =
  map ID (filter (is_duplicate_of originalID) t).
Proof.
  intros Hg. induction t as [|r t IH]; [reflexivity|]. cbn [map filter].
  destruct (Hg r) as (Hi & Ho & Hs).
  unfold is_duplicate_of at 1. rewrite Ho, Hs.
  fold (is_duplicate_of originalID r).
  destruct (is_duplicate_of originalID r); cbn [map]; now rewrite ?Hi, IH.
Qed.

Lemma fold_step_conn originalID orig origAI ids w :
  db_conn (fold_left (fun w d => propagateStep originalID orig origAI d w)
                     ids w) = db_conn w.
Proof.
  revert w. induction ids as [|d ids IH]; intros w; [reflexivity|].
  cbn [fold_left]. now rewrite IH.
Qed.

Lemma propagateAIToDuplicates_again originalID orig w :
  no_faults w ->
  db_conn w = true ->
  find (has_id originalID) (tbl_file w) = Some orig ->
  let once := snd (propagateAIToDuplicates originalID w) in
  let twice := snd (propagateAIToDuplicates originalID once) in
  tbl_file_ai_info twice = tbl_file_ai_info once /\
  tbl_file_global_tag_relation twice = tbl_file_global_tag_relation once.
Proof.
  intros Hnf Hdb Ho once twice.
  set (ids := duplicateIDs originalID w).
  set (origAI := originalAIInfo originalID w).
  assert (Honce : once = fold_left (fun w' d => propagateStep originalID orig
                                                  origAI d w') ids w).
  { unfold once. now rewrite (propagateAIToDuplicates_run _ _ _ Hnf Hdb Ho). }
  set (g := fun r => if existsb (String.eqb (ID r)) ids
                     then copyToRow orig origAI r else r).
  assert (Hg : forall r, ID (g r) = ID r /\
                         OriginalFileID (g r) = OriginalFileID r /\
                         Status (g r) = Status r).
  { intros r. unfold g. destruct (existsb (String.eqb (ID r)) ids);
      [|auto]. destruct (copyToRow_keeps orig origAI r) as (? & ? & ? & _).
    auto. }
  assert (Hfile : tbl_file once = map g (tbl_file w)).
  { rewrite Honce, fold_step_file. apply fold_copyToRow. }
  assert (Hai : tbl_file_ai_info once =
                fold_left (fun t d => copyAIInfo origAI d t) ids
                          (tbl_file_ai_info w)).
  { rewrite Honce. apply fold_step_ai_info. }
  assert (Hrel : tbl_file_global_tag_relation once =
                 fold_left (fun t d => copyTags originalID d t) ids
                           (tbl_file_global_tag_relation w)).
  { rewrite Honce. apply fold_step_relation. }
  assert (Hnf1 : no_faults once).
  { intros s. rewrite Honce, fold_step_fault. apply Hnf. }
  assert (Hdb1 : db_conn once = true).
  { rewrite Honce, fold_step_conn. exact Hdb. }
  assert (Ho1 : find (has_id originalID) (tbl_file once) = Some (g orig)).
  { rewrite Hfile, find_map_same_id by (intros r; apply Hg).
    now rewrite Ho. }
  assert (Hids : duplicateIDs originalID once = ids).
  { unfold duplicateIDs. rewrite Hfile. now apply duplicates_map_same. }
  assert (Horig : originalAIInfo originalID once = origAI).
  { unfold originalAIInfo. rewrite Hai.
    unfold origAI, originalAIInfo. now rewrite find_fold_original. }
  unfold twice.
  rewrite (propagateAIToDuplicates_run _ _ _ Hnf1 Hdb1 Ho1). cbn [snd].
  rewrite Hids, Horig, fold_step_ai_info, fold_step_relation.
  split.
  - rewrite Hai. apply fold_copyAIInfo_idempotent.
  - rewrite Hrel. apply fold_copyTags_idempotent.
Qed.

(** C5. Persisting is idempotent. The UPSERT of an AI-information row,
    applied twice, leaves what it leaves applied once, and the file then has
    exactly one such row if it had at most one. A fault-free run of
    [processAIResponse] over the same successful response, repeated, succeeds
    again and leaves the AI-information table, the tag associations and the
    tags exactly as the first run left them. A fault-free propagation to the
    duplicates, repeated, leaves the AI-information table and the tag
    associations exactly as the first one left them. *)
Theorem persistence_is_idempotent :
  (forall row t,
      upsert_ai_info row (upsert_ai_info row t) = upsert_ai_info row t /\
      length (filter (same_file (AI_FileID row)) (upsert_ai_info row t)) =
      Nat.max 1 (length (filter (same_file (AI_FileID row)) t))) /\
  (forall file resp parsed cde sch base64Data imageFormat w,
      no_faults w ->
      Success resp = true ->
      parseAITaggingResult (Data resp) = inr parsed ->
      let once := snd (processAIResponse file (Some resp) cde sch base64Data
                                         imageFormat w) in
      let again := processAIResponse file (Some resp) cde sch base64Data
                                     imageFormat once in
      fst again = None /\
      tbl_file_ai_info (snd again) = tbl_file_ai_info once /\
      tbl_file_global_tag_relation (snd again) =
        tbl_file_global_tag_relation once /\
      tbl_global_tag (snd again) = tbl_global_tag once) /\
  (forall originalID orig w,
      no_faults w ->
      db_conn w = true ->
      find (has_id originalID) (tbl_file w) = Some orig ->
      let once := snd (propagateAIToDuplicates originalID w) in
      let twice := snd (propagateAIToDuplicates originalID once) in
      tbl_file_ai_info twice = tbl_file_ai_info once /\
      tbl_file_global_tag_relation twice = tbl_file_global_tag_relation once).
Proof.
  split; [|split].
  - intros row t. split;
      [apply upsert_ai_info_idempotent | apply upsert_ai_info_count].
  - intros file resp parsed cde sch b64 fmt w Hnf Hs Hp once again.
    unfold again, once.
    rewrite (processAIResponse_run _ _ _ _ _ _ _ _ Hnf Hs Hp). cbn [snd].
    set (result := effectiveResult file parsed).
    set (w1 := afterRun file (RespUsage resp) cde sch result w).
    assert (Hnf1 : no_faults w1).
    { intros s. unfold w1. rewrite afterRun_fault. apply Hnf. }
    rewrite (processAIResponse_run _ _ _ _ _ _ _ _ Hnf1 Hs Hp).
    cbn [fst snd]. fold result.
    split; [reflexivity|].
    rewrite afterRun_ai_info, afterRun_relation, afterRun_global_tag.
    unfold w1. rewrite afterRun_ai_info, afterRun_relation,
      afterRun_global_tag.
    split; [apply upsert_ai_info_idempotent|].
    destruct (savesTags cde sch result); [|split; reflexivity].
    apply tags_saved_again.
  - intros originalID orig w. apply propagateAIToDuplicates_again.
Qed.
End Again.

Lemma persistence_is_idempotent_witness :
  let file := sampleFile "a" "" "normal" AITaggingStatusProcessing 0 0 in
  let w := sampleWorld [file] None in
  let resp := sampleResponse "unflagged-0.9" in
  let once := snd (processAIResponse file (Some resp) true "mark_only" ""
                                     "png" w) in
  let again := processAIResponse file (Some resp) true "mark_only" ""
                                 "png" once in
  no_faults w /\
  Success resp = true /\
  parseAITaggingResult (Data resp) =
    inr (sampleResult false (9 # 10)%Q ["cat"]) /\
  fst again = None /\
  tbl_file_ai_info (snd again) = tbl_file_ai_info once /\
  tbl_file_global_tag_relation (snd again) =
    tbl_file_global_tag_relation once /\
  tbl_global_tag (snd again) = tbl_global_tag once.
Proof.
  intros file w resp once again. split; [intros s; reflexivity|].
  split; [reflexivity|]. split; [reflexivity|].
  exact (proj1 (proj2 persistence_is_idempotent)
           file resp (sampleResult false (9 # 10)%Q ["cat"]) true "mark_only"
           "" "png" w (fun s => eq_refl) eq_refl eq_refl).
Defined.

Lemma RecoverPendingOnStartup_resets_selected_witness :
  let w := sampleWorld
             [sampleFile "a" "" "normal" AITaggingStatusPending 2 0;
              sampleFile "b" "" "normal" AITaggingStatusPending 1 0;
              sampleFile "c" "" "normal" AITaggingStatusDone 1 0] None in
  let ids := map ID (limited 1 (filter is_pending (tbl_file w))) in
  let res := RecoverPendingOnStartup 1 w in
  ids = ["a"] /\
  match snd (fst res) with
  | Some _ => fst (fst res) = 0 /\ tbl_file (snd res) = tbl_file w
  | None =>
      fst (fst res) = Z.of_nat (length ids) /\
      (0 < 1 -> fst (fst res) <= 1) /\
      (1 <= 0 -> ids = map ID (filter is_pending (tbl_file w))) /\
      (forall i, In i ids ->
                 exists r, In r (tbl_file w) /\ ID r = i /\
                           AITaggingStatus_ r = AITaggingStatusPending) /\
      Forall2 (fun r r' => if id_in ids r
                           then r' = reset_for_recovery r else r' = r)
              (tbl_file w) (tbl_file (snd res))
  end.
Proof.
  intros w ids res. split; [reflexivity|].
  exact (RecoverPendingOnStartup_resets_selected 1 w).
Defined.

(** ** What a run may do to the jobs under any fault plan *)

Lemma jobStep_refl fileID r : jobStep fileID 0 r r.
Proof. unfold jobStep. repeat split; auto; lia. Qed.

Lemma jobStep_trans fileID d1 d2 r1 r2 r3 :
  jobStep fileID d1 r1 r2 -> jobStep fileID d2 r2 r3 ->
  jobStep fileID (d1 + d2) r1 r3.
Proof.
  unfold jobStep, has_id.
  intros (I1 & O1 & R1 & N1 & T1) (I2 & O2 & R2 & N2 & T2).
  repeat split; auto; try lia; try congruence.
  intros E. rewrite (O2 (eq_trans (f_equal (fun i => String.eqb i fileID) I1) E)).
  exact (O1 E).
Qed.

Lemma jobStep_weaken fileID d d' r r' :
  d <= d' -> jobStep fileID d r r' -> jobStep fileID d' r r'.
Proof. unfold jobStep. intros L (I & O & R & N & T). repeat split; auto; lia. Qed.

Lemma Forall2_impl {A} (P Q : A -> A -> Prop) l l' :
  (forall a b, P a b -> Q a b) -> Forall2 P l l' -> Forall2 Q l l'.
Proof. intros I F. induction F; constructor; auto. Qed.

Lemma Forall2_compose {A} (P Q R : A -> A -> Prop) l1 l2 l3 :
  (forall a b c, P a b -> Q b c -> R a c) ->
  Forall2 P l1 l2 -> Forall2 Q l2 l3 -> Forall2 R l1 l3.
Proof.
  intros C F. revert l3. induction F; intros l3 G; inversion G; subst;
    constructor; eauto.
Qed.

Lemma calm_ret {A} fileID (a : A) : calm fileID (ret a).
Proof. intros w. apply Forall2_pointwise_same. apply jobStep_refl. Qed.

Lemma calm_gets {A} fileID (f : World -> A) : calm fileID (gets f).
Proof. intros w. apply Forall2_pointwise_same. apply jobStep_refl. Qed.

Lemma calm_query {A} fileID s (q : World -> A) : calm fileID (query s q).
Proof.
  intros w. unfold query. destruct (db_fault w s);
    apply Forall2_pointwise_same; apply jobStep_refl.
Qed.

Lemma calm_emit fileID e : calm fileID (emit e).
Proof. intros w. apply Forall2_pointwise_same. apply jobStep_refl. Qed.

Lemma calm_bind {A B} fileID (c : M A) (k : A -> M B) :
  calm fileID c -> (forall a, calm fileID (k a)) -> calm fileID (bind c k).
Proof.
  intros Hc Hk w. unfold bind. specialize (Hc w).
  destruct (c w) as [a w1]. cbn in Hc.
  eapply Forall2_compose; [|exact Hc|exact (Hk a w1)].
  intros x y z. apply (jobStep_trans fileID 0 0).
Qed.

Lemma calm_exec_other fileID s (f : World -> World) :
  (forall w, tbl_file (f w) = tbl_file w) -> calm fileID (exec s f).
Proof.
  intros Hf w. unfold exec. destruct (db_fault w s); cbn; rewrite ?Hf;
    apply Forall2_pointwise_same; apply jobStep_refl.
Qed.

Lemma calm_update_file fileID s (f : File -> File) :
  (forall r, has_id fileID r = true -> jobStep fileID 0 r (f r)) ->
  calm fileID (exec s (update_file (has_id fileID) f)).
Proof.
  intros Hf w. unfold exec. destruct (db_fault w s); cbn.
  - apply Forall2_pointwise_same. apply jobStep_refl.
  - apply Forall2_map_pointwise. intros r _.
    destruct (has_id fileID r) eqn:E; [apply Hf; exact E|apply jobStep_refl].
Qed.

Lemma guarded_of_calm fileID (c : M (option error)) :
  calm fileID c -> guarded fileID c.
Proof.
  intros Hc w. eapply Forall2_impl; [|exact (Hc w)].
  intros a b. apply jobStep_weaken. destruct (fst (c w)); cbn; lia.
Qed.

Lemma guarded_bind {A} fileID (c : M A) (k : A -> M (option error)) :
  calm fileID c -> (forall a, guarded fileID (k a)) -> guarded fileID (bind c k).
Proof.
  intros Hc Hk w. unfold bind. specialize (Hc w).
  destruct (c w) as [a w1]. cbn in Hc.
  eapply Forall2_compose; [|exact Hc|exact (Hk a w1)].
  intros x y z. apply (jobStep_trans fileID 0).
Qed.

Lemma guarded_check fileID (c k : M (option error)) :
  guarded fileID c -> guarded fileID k -> guarded fileID (check c ;; k).
Proof.
  intros Hc Hk w. unfold bind. specialize (Hc w).
  destruct (c w) as [[err|] w1]; cbn in Hc |- *; [exact Hc|].
  eapply Forall2_compose; [|exact Hc|exact (Hk w1)].
  intros x y z. apply (jobStep_trans fileID 0).
Qed.

(** A step that always reports an error may count one failed attempt. *)
Lemma guarded_failed {A} fileID (c : M A) (err : error) :
  (forall w, Forall2 (jobStep fileID 1) (tbl_file w) (tbl_file (snd (c w)))) ->
  guarded fileID (c ;;; ret (Some err)).
Proof.
  intros Hc w. unfold bind, ret. specialize (Hc w).
  destruct (c w) as [u w1]. exact Hc.
Qed.

Ltac job_row :=
  let r := fresh "r" in
  let E := fresh "E" in
  intros r E; unfold jobStep; cbn; rewrite ?E;
  repeat split; auto; try lia; try discriminate.

Lemma jobStep_statusUpdates fileID status r :
  has_id fileID r = true ->
  jobStep fileID (if status_eqb status AITaggingStatusFailed then 1 else 0)
          r (statusUpdates status r).
Proof.
  revert r. unfold statusUpdates.
  destruct (status_eqb status AITaggingStatusFailed); job_row.
Qed.

Lemma calm_updateFileStatus fileID status :
  status_eqb status AITaggingStatusFailed = false ->
  calm fileID (updateFileStatus fileID status).
Proof.
  intros Hs. apply calm_update_file. intros r E.
  generalize (jobStep_statusUpdates fileID status r E). rewrite Hs. auto.
Qed.

Lemma failed_updateFileStatus fileID w :
  Forall2 (jobStep fileID 1) (tbl_file w)
          (tbl_file (snd (updateFileStatus fileID AITaggingStatusFailed w))).
Proof.
  unfold updateFileStatus, exec.
  destruct (db_fault w StmtUpdateFileStatus); cbn.
  - apply Forall2_pointwise_same. intros r.
    apply (jobStep_weaken fileID 0); [lia|apply jobStep_refl].
  - apply Forall2_map_pointwise. intros r _.
    destruct (has_id fileID r) eqn:E.
    + exact (jobStep_statusUpdates fileID AITaggingStatusFailed r E).
    + apply (jobStep_weaken fileID 0); [lia|apply jobStep_refl].
Qed.

Ltac calms :=
  repeat first
    [ apply calm_ret
    | apply calm_gets
    | apply calm_emit
    | apply calm_query
    | apply calm_updateFileStatus; reflexivity
    | apply calm_update_file; job_row
    | apply calm_exec_other; intros; reflexivity
    | apply calm_bind; [|intros ?]
    | match goal with
      | |- calm _ (match ?x with _ => _ end) => destruct x
      end ].

Lemma calm_fileExists fileID i : calm fileID (fileExists i).
Proof. unfold fileExists. calms. Qed.

Lemma guarded_onPersistError fileID err :
  guarded fileID (onPersistError fileID err).
Proof.
  unfold onPersistError. apply guarded_bind.
  - destruct (isDeadlockError (Some err)); [|apply calm_ret].
    apply calm_bind; [apply calm_fileExists|intros ?; apply calm_ret].
  - intros [|].
    + apply guarded_of_calm. apply calm_ret.
    + apply guarded_failed. apply failed_updateFileStatus.
Qed.

Section Guarded.
Context `{Externals}.

Lemma calm_processAndSaveTags fileID file tags :
  calm fileID (processAndSaveTags file tags).
Proof.
  unfold processAndSaveTags. destruct tags; [apply calm_ret|].
  apply calm_bind.
  - intros w. unfold CreateTagsFromNames.
    destruct (db_fault w StmtCreateTagsFromNames);
      [|destruct (create_tags_from_names _ _)]; cbn;
      apply Forall2_pointwise_same; apply jobStep_refl.
  - intros [e|gs]; [apply calm_ret|]. unfold ReplaceFileTagsTx. calms.
Qed.

Lemma guarded_saveTags file tags : guarded (ID file) (saveTags file tags).
Proof.
  unfold saveTags. apply guarded_bind; [apply calm_processAndSaveTags|].
  intros [err|]; [apply guarded_onPersistError|].
  apply guarded_of_calm. apply calm_ret.
Qed.

Lemma calm_markFileForDeletion fileID : calm fileID (markFileForDeletion fileID).
Proof. unfold markFileForDeletion. calms. Qed.

Lemma calm_markFileForReview fileID reason :
  calm fileID (markFileForReview fileID reason).
Proof. unfold markFileForReview. calms. Qed.

Lemma calm_updateFileNSFWStatus fileID :
  calm fileID (updateFileNSFWStatus fileID true).
Proof. unfold updateFileNSFWStatus. calms. Qed.

Lemma processAIResponse_guarded
      (file : File) (aiResp : option AIFileResponse) (cde : bool)
      (sch base64Data imageFormat : string) :
  guarded (ID file)
          (processAIResponse file aiResp cde sch base64Data imageFormat).
Proof.
  unfold processAIResponse.
  destruct (match aiResp with
            | Some r => if Success r then Some r else None
            | None => None
            end) as [resp|].
  2:{ match goal with
      | |- guarded _ (if ?b then _ else _) => destruct b
      end.
      - apply guarded_bind.
        + destruct (String.eqb sch "auto_delete").
          * apply calm_bind; [apply calm_markFileForDeletion|intros ?; apply calm_ret].
          * apply calm_bind; [apply calm_updateFileNSFWStatus|intros ?].
            destruct (String.eqb sch "pending_review"); [|apply calm_ret].
            apply calm_bind; [apply calm_markFileForReview|intros ?; apply calm_ret].
        + intros ?. apply guarded_bind; [apply calm_updateFileStatus; reflexivity|].
          intros ?. apply guarded_of_calm. apply calm_ret.
      - apply guarded_failed. apply failed_updateFileStatus. }
  destruct (parseAITaggingResult (Data resp)) as [err|parsed].
  - apply guarded_failed. apply failed_updateFileStatus.
  - repeat apply guarded_check.
    + apply guarded_bind; [unfold saveFileAIInfo; calms|].
      intros [err|]; [apply guarded_onPersistError|].
      apply guarded_of_calm; apply calm_ret.
    + apply guarded_of_calm.
      match goal with |- calm _ (if ?b then _ else _) => destruct b end;
        [|apply calm_ret].
      apply calm_bind; [calms|]. intros [err|]; [|apply calm_ret].
      destruct (isDeadlockError (Some err)); [|apply calm_ret].
      apply calm_bind; [apply calm_fileExists|].
      intros [|]; apply calm_ret.
    + match goal with |- guarded _ (if ?b then _ else _) => destruct b end;
        [apply guarded_saveTags|].
      destruct (String.eqb sch "auto_delete").
      * apply guarded_of_calm.
        apply calm_bind; [apply calm_markFileForDeletion|intros ?; apply calm_ret].
      * destruct (String.eqb sch "pending_review"); [|apply guarded_saveTags].
        apply guarded_bind; [apply calm_markFileForReview|].
        intros ?. apply guarded_saveTags.
    + match goal with |- guarded _ (if ?b then _ else _) => destruct b end.
      * apply guarded_bind; [apply calm_updateFileNSFWStatus|].
        intros [err|]; [apply guarded_onPersistError|].
        apply guarded_of_calm; apply calm_ret.
      * apply guarded_of_calm; apply calm_ret.
    + apply guarded_of_calm.
      apply calm_bind; [apply calm_updateFileStatus; reflexivity|intros ?].
      apply calm_bind.
      { match goal with |- calm _ (if ?b then _ else _) => destruct b end;
          [|apply calm_ret].
        unfold createPendingVectorRecord. calms. }
      intros ?. apply calm_bind.
      { destruct (RespUsage resp); calms. }
      intros ?. calms.
Qed.

End Guarded.

(** X3. Whatever the reply and whatever the store does, one run of
    [processAIResponse] leaves the rows of other files as they were, keeps
    the ID of the job's row, never takes back a recommendation or an NSFW
    flag, and counts at most one failed attempt: the tries counter grows by
    at most one, and not at all when the run reports no error. *)
Theorem processAIResponse_counts_at_most_one_failure
        `{Externals} (file : File) (aiResp : option AIFileResponse)
        (contentDetectionEnabled : bool)
        (sensitiveContentHandling base64Data imageFormat : string) (w : World) :
  let res := processAIResponse file aiResp contentDetectionEnabled
                               sensitiveContentHandling base64Data
                               imageFormat w in
  Forall2 (fun r r' =>
             ID r' = ID r /\
             (has_id (ID file) r = false -> r' = r) /\
             (IsRecommended r = true -> IsRecommended r' = true) /\
             (NSFW r = true -> NSFW r' = true) /\
             AITaggingTries r <= AITaggingTries r' <= AITaggingTries r + 1 /\
             (fst res = None -> AITaggingTries r' = AITaggingTries r))
          (tbl_file w) (tbl_file (snd res)).
Proof.
  intros res.
  generalize (processAIResponse_guarded file aiResp contentDetectionEnabled
                sensitiveContentHandling base64Data imageFormat w).
  fold res. apply Forall2_impl.
  intros r r' (I & O & R & N & T).
  repeat split; auto; try (destruct (fst res); cbn in T; lia).
  intros E. rewrite E in T. cbn in T. lia.
Qed.

(** ** The propagation is started by successful runs only *)

Lemma noPropagation_ret {A} (a : A) : noPropagation (ret a).
Proof. intros w. exists []. cbn. rewrite app_nil_r. auto. Qed.

Lemma noPropagation_gets {A} (f : World -> A) : noPropagation (gets f).
Proof. intros w. exists []. cbn. rewrite app_nil_r. auto. Qed.

Lemma noPropagation_query {A} s (q : World -> A) : noPropagation (query s q).
Proof.
  intros w. exists []. unfold query. destruct (db_fault w s); cbn;
    rewrite app_nil_r; auto.
Qed.

Lemma noPropagation_exec s (f : World -> World) :
  (forall w, trace (f w) = trace w) -> noPropagation (exec s f).
Proof.
  intros Hf w. exists []. unfold exec. destruct (db_fault w s); cbn;
    rewrite ?Hf, app_nil_r; auto.
Qed.

Lemma noPropagation_emit e : is_propagation e = false -> noPropagation (emit e).
Proof. intros He w. exists [e]. cbn. rewrite He. auto. Qed.

Lemma noPropagation_bind {A B} (c : M A) (k : A -> M B) :
  noPropagation c -> (forall a, noPropagation (k a)) -> noPropagation (bind c k).
Proof.
  intros Hc Hk w. unfold bind. destruct (Hc w) as (a1 & T1 & F1).
  destruct (c w) as [a w1]. cbn in T1.
  destruct (Hk a w1) as (a2 & T2 & F2).
  exists (a1 ++ a2)%list. rewrite T2, T1, app_assoc, filter_app, F1, F2. auto.
Qed.

Ltac quiet :=
  repeat first
    [ apply noPropagation_ret
    | apply noPropagation_gets
    | apply noPropagation_query
    | apply noPropagation_emit; reflexivity
    | apply noPropagation_exec; intros; reflexivity
    | apply noPropagation_bind; [|intros ?]
    | match goal with
      | |- noPropagation (match ?x with _ => _ end) => destruct x
      end ].

Lemma propagatesIffOk_quiet_error {A} fileID (c : M A) (err : error) :
  noPropagation c -> propagatesIffOk fileID (c ;;; ret (Some err)).
Proof.
  intros Hc w. unfold bind, ret. destruct (Hc w) as (a1 & T1 & F1).
  destruct (c w) as [a w1]. exists a1. auto.
Qed.

Lemma propagatesIffOk_bind {A} fileID (c : M A) (k : A -> M (option error)) :
  noPropagation c -> (forall a, propagatesIffOk fileID (k a)) ->
  propagatesIffOk fileID (bind c k).
Proof.
  intros Hc Hk w. unfold bind. destruct (Hc w) as (a1 & T1 & F1).
  destruct (c w) as [a w1]. cbn in T1.
  destruct (Hk a w1) as (a2 & T2 & F2).
  exists (a1 ++ a2)%list. rewrite T2, T1, app_assoc, filter_app, F1, F2. auto.
Qed.

Lemma propagatesIffOk_check fileID (c k : M (option error)) :
  noPropagation c -> propagatesIffOk fileID k ->
  propagatesIffOk fileID (check c ;; k).
Proof.
  intros Hc Hk w. unfold bind. destruct (Hc w) as (a1 & T1 & F1).
  destruct (c w) as [[err|] w1]; cbn in T1.
  - exists a1. auto.
  - destruct (Hk w1) as (a2 & T2 & F2).
    exists (a1 ++ a2)%list. rewrite T2, T1, app_assoc, filter_app, F1, F2. auto.
Qed.

Lemma noPropagation_fileExists i : noPropagation (fileExists i).
Proof. unfold fileExists. quiet. Qed.

Lemma noPropagation_updateFileStatus i s : noPropagation (updateFileStatus i s).
Proof. unfold updateFileStatus. quiet. Qed.

Lemma noPropagation_onPersistError i err : noPropagation (onPersistError i err).
Proof.
  unfold onPersistError. apply noPropagation_bind.
  - destruct (isDeadlockError (Some err)); quiet;
      try apply noPropagation_fileExists.
  - intros [|]; quiet; try apply noPropagation_updateFileStatus.
Qed.

Section Propagation.
Context `{Externals}.

Lemma noPropagation_saveTags file tags : noPropagation (saveTags file tags).
Proof.
  unfold saveTags. apply noPropagation_bind.
  - unfold processAndSaveTags. destruct tags; [quiet|].
    apply noPropagation_bind.
    + intros w. exists []. unfold CreateTagsFromNames.
      destruct (db_fault w StmtCreateTagsFromNames);
        [|destruct (create_tags_from_names _ _)]; cbn; rewrite app_nil_r; auto.
    + intros [e|gs]; unfold ReplaceFileTagsTx; quiet.
  - intros [err|]; [apply noPropagation_onPersistError|quiet].
Qed.

Lemma processAIResponse_propagatesIffOk
      (file : File) (aiResp : option AIFileResponse) (cde : bool)
      (sch base64Data imageFormat : string) :
  propagatesIffOk (ID file)
    (processAIResponse file aiResp cde sch base64Data imageFormat).
Proof.
  unfold processAIResponse.
  destruct (match aiResp with
            | Some r => if Success r then Some r else None
            | None => None
            end) as [resp|].
  2:{ match goal with
      | |- propagatesIffOk _ (if ?b then _ else _) => destruct b
      end.
      - apply propagatesIffOk_bind.
        + unfold markFileForDeletion, markFileForReview, updateFileNSFWStatus.
          destruct (String.eqb sch "auto_delete"); quiet.
        + intros ?. apply propagatesIffOk_quiet_error.
          apply noPropagation_updateFileStatus.
      - apply propagatesIffOk_quiet_error. apply noPropagation_updateFileStatus. }
  destruct (parseAITaggingResult (Data resp)) as [err|parsed].
  - apply propagatesIffOk_quiet_error. apply noPropagation_updateFileStatus.
  - repeat apply propagatesIffOk_check.
    + apply noPropagation_bind; [unfold saveFileAIInfo; quiet|].
      intros [err|]; [apply noPropagation_onPersistError|quiet].
    + match goal with |- noPropagation (if ?b then _ else _) => destruct b end;
        [|quiet].
      apply noPropagation_bind; [quiet|]. intros [err|]; [|quiet].
      destruct (isDeadlockError (Some err)); [|quiet].
      apply noPropagation_bind; [apply noPropagation_fileExists|].
      intros [|]; quiet.
    + unfold markFileForDeletion, markFileForReview.
      match goal with |- noPropagation (if ?b then _ else _) => destruct b end;
        [apply noPropagation_saveTags|].
      destruct (String.eqb sch "auto_delete"); [quiet|].
      destruct (String.eqb sch "pending_review"); [|apply noPropagation_saveTags].
      apply noPropagation_bind; [quiet|]. intros ?. apply noPropagation_saveTags.
    + match goal with |- noPropagation (if ?b then _ else _) => destruct b end;
        [|quiet].
      apply noPropagation_bind; [unfold updateFileNSFWStatus; quiet|].
      intros [err|]; [apply noPropagation_onPersistError|quiet].
    + apply propagatesIffOk_bind; [apply noPropagation_updateFileStatus|].
      intros ?. apply propagatesIffOk_bind.
      { unfold createPendingVectorRecord.
        match goal with |- noPropagation (if ?b then _ else _) => destruct b end;
          quiet. }
      intros ?. apply propagatesIffOk_bind.
      { destruct (RespUsage resp); quiet. }
      intros ? w. exists [EvGo (GoPropagateAIToDuplicates (ID file))].
      cbn. auto.
Qed.

End Propagation.

(** X4. Whatever the reply and whatever the store does, [processAIResponse]
    starts the propagation to duplicates exactly when it reports no error:
    the events it adds to the trace hold one [go propagateAIToDuplicates] for
    the file after a run that returns nil, and none after a run that returns
    an error. *)
Theorem processAIResponse_propagates_iff_no_error
        `{Externals} (file : File) (aiResp : option AIFileResponse)
        (contentDetectionEnabled : bool)
        (sensitiveContentHandling base64Data imageFormat : string) (w : World) :
  let res := processAIResponse file aiResp contentDetectionEnabled
                               sensitiveContentHandling base64Data
                               imageFormat w in
  filter is_propagation (addedEvents w (snd res)) =
  match fst res with
  | None => [EvGo (GoPropagateAIToDuplicates (ID file))]
  | Some _ => []
  end.
Proof.
  intros res.
  destruct (processAIResponse_propagatesIffOk file aiResp
              contentDetectionEnabled sensitiveContentHandling base64Data
              imageFormat w) as (added & T & F).
  fold res in T, F. unfold addedEvents. rewrite T, skipn_length_app. exact F.
Qed.

(** ** Replies that cannot be used *)

Lemma failed_run fileID (err : error) w :
  (updateFileStatus fileID AITaggingStatusFailed ;;; ret (Some err)) w =
  (Some err,
   match db_fault w StmtUpdateFileStatus with
   | Some _ => w
   | None => with_file (map (fun r => if has_id fileID r then failedAttempt r
                                      else r) (tbl_file w)) w
   end).
Proof.
  unfold bind, ret, updateFileStatus, exec.
  destruct (db_fault w StmtUpdateFileStatus); reflexivity.
Qed.

Section Unusable.
Context `{Externals}.

Lemma unusable_reply_run (file : File) (aiResp : option AIFileResponse)
      (cde : bool) (sch base64Data imageFormat : string) (w : World) :
  match aiResp with
  | Some r => Success r = false /\ cde && isNSFWRejection r = false
  | None => True
  end ->
  processAIResponse file aiResp cde sch base64Data imageFormat w =
  (Some (unusableReplyMessage aiResp),
   match db_fault w StmtUpdateFileStatus with
   | Some _ => w
   | None => with_file (map (fun r => if has_id (ID file) r
                                      then failedAttempt r else r)
                            (tbl_file w)) w
   end).
Proof.
  intros Hr. unfold processAIResponse.
  destruct aiResp as [r|].
  - destruct Hr as [Hs Hn]. rewrite Hs, Hn. apply failed_run.
  - apply failed_run.
Qed.

End Unusable.

(** X1. A reply that is missing, or unsuccessful without being taken as a
    refusal over sensitive content, makes [processAIResponse] return the
    provider's message (a fixed one when there is none) and count a failed
    attempt: the job's row gets status [failed] and one more try, and nothing
    else in the store or the trace changes. When the status update itself
    fails, nothing changes at all. *)
Theorem processAIResponse_unusable_reply_marks_failed
        `{Externals} (file : File) (aiResp : option AIFileResponse)
        (contentDetectionEnabled : bool)
        (sensitiveContentHandling base64Data imageFormat : string) (w : World) :
  match aiResp with
  | Some r => Success r = false /\
              contentDetectionEnabled && isNSFWRejection r = false
  | None => True
  end ->
  processAIResponse file aiResp contentDetectionEnabled
                    sensitiveContentHandling base64Data imageFormat w =
  (Some (unusableReplyMessage aiResp),
   match db_fault w StmtUpdateFileStatus with
   | Some _ => w
   | None => with_file (map (fun r => if has_id (ID file) r
                                      then failedAttempt r else r)
                            (tbl_file w)) w
   end).
Proof.
  intros Hr. unfold processAIResponse.
  destruct aiResp as [r|].
  - destruct Hr as [Hs Hn]. rewrite Hs, Hn. apply failed_run.
  - apply failed_run.
Qed.

Lemma processAIResponse_unusable_reply_marks_failed_witness :
  let file := sampleFile "a" "" "normal" AITaggingStatusProcessing 1 0 in
  let w := sampleWorld [file; sampleFile "b" "" "normal" AITaggingStatusPending 0 0]
                       None in
  (Success sampleFailure = false /\
   true && isNSFWRejection sampleFailure = false) /\
  processAIResponse file (Some sampleFailure) true "auto_delete" "" "png" w =
  (Some "quota exceeded",
   with_file [sampleFile "a" "" "normal" AITaggingStatusFailed 2 0;
              sampleFile "b" "" "normal" AITaggingStatusPending 0 0] w).
Proof.
  intros file w. split; [split; reflexivity|].
  exact (processAIResponse_unusable_reply_marks_failed
           file (Some sampleFailure) true "auto_delete" "" "png" w
           (conj eq_refl eq_refl)).
Defined.

(** X2. A successful reply whose payload the decoder rejects makes
    [processAIResponse] return the decoder's error and count a failed
    attempt: status [failed] and one more try on the job's row, no AI
    information, no tag, no event. *)
Theorem processAIResponse_undecodable_payload_marks_failed
        `{Externals} (file : File) (resp : AIFileResponse) (err : error)
        (contentDetectionEnabled : bool)
        (sensitiveContentHandling base64Data imageFormat : string) (w : World) :
  Success resp = true ->
  parseAITaggingResult (Data resp) = inl err ->
  processAIResponse file (Some resp) contentDetectionEnabled
                    sensitiveContentHandling base64Data imageFormat w =
  (Some err,
   match db_fault w StmtUpdateFileStatus with
   | Some _ => w
   | None => with_file (map (fun r => if has_id (ID file) r
                                      then failedAttempt r else r)
                            (tbl_file w)) w
   end).
Proof.
  intros Hs Hp. unfold processAIResponse. rewrite Hs, Hp. apply failed_run.
Qed.

Lemma processAIResponse_undecodable_payload_marks_failed_witness :
  let file := sampleFile "a" "" "normal" AITaggingStatusProcessing 0 0 in
  let w := sampleWorld [file] None in
  Success (sampleResponse "garbage") = true /\
  parseAITaggingResult (Data (sampleResponse "garbage")) =
    inl "invalid payload" /\
  processAIResponse file (Some (sampleResponse "garbage")) true "mark_only"
                    "" "png" w =
  (Some "invalid payload",
   with_file [sampleFile "a" "" "normal" AITaggingStatusFailed 1 0] w).
Proof.
  intros file w. split; [reflexivity|]. split; [reflexivity|].
  exact (processAIResponse_undecodable_payload_marks_failed
           file (sampleResponse "garbage") "invalid payload" true "mark_only"
           "" "png" w eq_refl eq_refl).
Defined.

(** ** The handling modes besides [auto_delete] *)

Lemma existsb_vectorEvents (p : Event -> bool) fileID result :
  (forall f d, p (EvCreatePendingVectorRecord f d) = false) ->
  existsb p (vectorEvents fileID result) = false.
Proof.
  intros Hp. unfold vectorEvents.
  destruct (String.eqb (ResultDescription result) ""); cbn;
    rewrite ?Hp; reflexivity.
Qed.

Lemma rowAfterRun_columns cde sch result r :
  let r' := rowAfterRun cde sch result r in
  ID r' = ID r /\ UserID r' = UserID r /\
  OriginalFileID r' = OriginalFileID r /\ Resolution r' = Resolution r /\
  Description r' = Description r /\ CategoryID r' = CategoryID r /\
  CategorySource r' = CategorySource r /\
  AILastHeartbeatAt r' = AILastHeartbeatAt r /\
  AITaggingTries r' = AITaggingTries r /\
  AITaggingStatus_ r' = AITaggingStatusDone /\
  NSFW r' = (NSFW r || sensitive cde result) /\
  IsRecommended r' = (IsRecommended r || ResultIsRecommended result) /\
  (sensitive cde result = false \/
   String.eqb sch "auto_delete" || String.eqb sch "pending_review" = false ->
   Status r' = Status r).
Proof.
  unfold rowAfterRun.
  destruct (ResultIsRecommended result), (sensitive cde result),
    (String.eqb sch "auto_delete"), (String.eqb sch "pending_review");
    cbn; rewrite ?orb_true_r, ?orb_false_r; repeat split; auto;
    intros [E|E]; discriminate.
Qed.

Lemma existsb_flag_raised fileID (g : File -> File) (t : list File) :
  (forall r, ID (g r) = ID r /\ NSFW (g r) = true) ->
  existsb (fun r => has_id fileID r && NSFW r)
          (map (fun r => if has_id fileID r then g r else r) t) =
  existsb (has_id fileID) t.
Proof.
  intros Hg. induction t as [|r t IH]; [reflexivity|].
  cbn [map existsb]. rewrite IH. f_equal.
  destruct (has_id fileID r) eqn:E; [|now rewrite E].
  unfold has_id in *. destruct (Hg r) as [Hi Hn]. now rewrite Hi, E, Hn.
Qed.

(** X5. Under a handling mode other than [auto_delete], a fault-free run on
    a decodable reply never deletes. When the detection counts (content
    detection is on and the result is flagged), [pending_review] sends the
    file to review with the detector's reason, and every other mode, known
    or not, keeps the file served with its NSFW flag raised; when it does not
    count, the file stays served with the flag it had. *)
Theorem processAIResponse_review_and_mark_modes
        `{Externals} (file : File) (resp : AIFileResponse)
        (parsed : AITaggingResult) (contentDetectionEnabled : bool)
        (sensitiveContentHandling base64Data imageFormat : string) (w : World) :
  no_faults w ->
  Success resp = true ->
  parseAITaggingResult (Data resp) = inr parsed ->
  String.eqb sensitiveContentHandling "auto_delete" = false ->
  let res := processAIResponse file (Some resp) contentDetectionEnabled
                               sensitiveContentHandling base64Data
                               imageFormat w in
  fst res = None /\
  appliedDisposition (ID file) w (snd res) =
    (if contentDetectionEnabled && IsNSFW (Safety parsed)
     then if String.eqb sensitiveContentHandling "pending_review"
          then Quarantine
          else Publish (existsb (has_id (ID file)) (tbl_file w))
     else Publish (existsb (fun r => has_id (ID file) r && NSFW r)
                           (tbl_file w))) /\
  (In (EvMarkFileForReview (ID file) (NSFWReason (Safety parsed)))
      (addedEvents w (snd res)) <->
   contentDetectionEnabled && IsNSFW (Safety parsed) = true /\
   String.eqb sensitiveContentHandling "pending_review" = true).
Proof.
  intros Hnf Hs Hp Hm res. unfold res.
  rewrite (processAIResponse_run _ _ _ _ _ _ _ _ Hnf Hs Hp). cbn [fst snd].
  split; [reflexivity|].
  unfold appliedDisposition, addedEvents.
  rewrite afterRun_trace, skipn_length_app, afterRun_file.
  rewrite !existsb_app, !existsb_vectorEvents by reflexivity.
  unfold policyEvents.
  rewrite sensitive_effectiveResult, Safety_effectiveResult, Hm.
  assert (Hvec : ~ In (EvMarkFileForReview (ID file) (NSFWReason (Safety parsed)))
                      (vectorEvents (ID file) (effectiveResult file parsed))).
  { unfold vectorEvents.
    destruct (String.eqb (ResultDescription (effectiveResult file parsed)) "");
      cbn; intros HI; [destruct HI|destruct HI as [E|[]]; discriminate]. }
  destruct (contentDetectionEnabled && IsNSFW (Safety parsed)) eqn:Hsens.
  - destruct (String.eqb sensitiveContentHandling "pending_review").
    + cbn [existsb app orb is_deletion_of is_review_of].
      rewrite String.eqb_refl. split; [reflexivity|].
      split; [auto|]. intros _. now left.
    + cbn [existsb app orb is_deletion_of is_review_of]. split.
      * f_equal. apply existsb_flag_raised. intros r.
        destruct (rowAfterRun_columns contentDetectionEnabled
                    sensitiveContentHandling (effectiveResult file parsed) r)
          as (I & _ & _ & _ & _ & _ & _ & _ & _ & _ & N & _).
        rewrite I, N, sensitive_effectiveResult, Hsens, orb_true_r. auto.
      * split; [|intros [_ E]; discriminate].
        rewrite in_app_iff. intros [I|[E|[]]]; [contradiction|discriminate].
  - cbn [existsb app orb is_deletion_of is_review_of]. split.
    + f_equal. apply existsb_flag_unchanged. intros r.
      destruct (rowAfterRun_columns contentDetectionEnabled
                  sensitiveContentHandling (effectiveResult file parsed) r)
        as (I & _ & _ & _ & _ & _ & _ & _ & _ & _ & N & _).
      rewrite I, N, sensitive_effectiveResult, Hsens, orb_false_r. auto.
    + split; [|intros [E _]; discriminate].
      rewrite in_app_iff. intros [I|[E|[]]]; [contradiction|discriminate].
Qed.

Lemma processAIResponse_review_and_mark_modes_witness :
  let file := sampleFile "a" "" "normal" AITaggingStatusProcessing 0 0 in
  let w := sampleWorld [file] None in
  let resp := sampleResponse "flagged-0.3" in
  let parsed := sampleResult true (3 # 10)%Q ["cat"] in
  let res := processAIResponse file (Some resp) true "pending_review" ""
                               "png" w in
  no_faults w /\
  Success resp = true /\
  parseAITaggingResult (Data resp) = inr parsed /\
  String.eqb "pending_review" "auto_delete" = false /\
  fst res = None /\
  appliedDisposition (ID file) w (snd res) = Quarantine.
Proof.
  intros file w resp parsed res.
  assert (Hnf : no_faults w) by (intros s; reflexivity).
  split; [exact Hnf|]. split; [reflexivity|]. split; [reflexivity|].
  split; [reflexivity|].
  destruct (@processAIResponse_review_and_mark_modes sampleExternals
              file resp parsed true "pending_review" "" "png" w
              Hnf eq_refl eq_refl eq_refl) as (R & D & _).
  split; [exact R|exact D].
Defined.

(** X6. A fault-free run on a decodable reply changes, in the job's row, the
    job status (to [done]), the NSFW flag (raised when the detection counts)
    and the recommendation (raised when the AI recommends) and nothing else
    among the owner, the original it duplicates, the resolution, the
    description, the category, the heartbeat and the tries counter; the file
    status stays as well unless the detection counts under [auto_delete] or
    [pending_review]. Rows of other files stay as they were. *)
Theorem processAIResponse_success_row
        `{Externals} (file : File) (resp : AIFileResponse)
        (parsed : AITaggingResult) (contentDetectionEnabled : bool)
        (sensitiveContentHandling base64Data imageFormat : string) (w : World) :
  no_faults w ->
  Success resp = true ->
  parseAITaggingResult (Data resp) = inr parsed ->
  let res := processAIResponse file (Some resp) contentDetectionEnabled
                               sensitiveContentHandling base64Data
                               imageFormat w in
  let detected := contentDetectionEnabled && IsNSFW (Safety parsed) in
  Forall2 (fun r r' =>
             if has_id (ID file) r
             then ID r' = ID r /\ UserID r' = UserID r /\
                  OriginalFileID r' = OriginalFileID r /\
                  Resolution r' = Resolution r /\
                  Description r' = Description r /\
                  CategoryID r' = CategoryID r /\
                  CategorySource r' = CategorySource r /\
                  AILastHeartbeatAt r' = AILastHeartbeatAt r /\
                  AITaggingTries r' = AITaggingTries r /\
                  AITaggingStatus_ r' = AITaggingStatusDone /\
                  NSFW r' = (NSFW r || detected) /\
                  IsRecommended r' =
                    (IsRecommended r || ResultIsRecommended parsed) /\
                  (detected = false \/
                   String.eqb sensitiveContentHandling "auto_delete"
                   || String.eqb sensitiveContentHandling "pending_review"
                   = false -> Status r' = Status r)
             else r' = r)
          (tbl_file w) (tbl_file (snd res)).
Proof.
  intros Hnf Hs Hp res detected. unfold res.
  rewrite (processAIResponse_run _ _ _ _ _ _ _ _ Hnf Hs Hp). cbn [fst snd].
  rewrite afterRun_file. apply Forall2_map_pointwise. intros r _.
  destruct (has_id (ID file) r); [|reflexivity].
  generalize (rowAfterRun_columns contentDetectionEnabled
                sensitiveContentHandling (effectiveResult file parsed) r).
  cbv zeta. rewrite sensitive_effectiveResult.
  replace (ResultIsRecommended (effectiveResult file parsed))
    with (ResultIsRecommended parsed); [auto|].
  unfold effectiveResult. destruct (String.eqb (Resolution file) ""); reflexivity.
Qed.

Lemma processAIResponse_success_row_witness :
  let file := sampleFile "a" "" "normal" AITaggingStatusProcessing 2 0 in
  let w := sampleWorld [file] None in
  let resp := sampleResponse "flagged-0.9" in
  let parsed := sampleResult true (9 # 10)%Q ["cat"] in
  let res := processAIResponse file (Some resp) true "mark_only" "" "png" w in
  no_faults w /\
  Success resp = true /\
  parseAITaggingResult (Data resp) = inr parsed /\
  Forall2 (fun r r' =>
             if has_id (ID file) r
             then ID r' = ID r /\ UserID r' = UserID r /\
                  OriginalFileID r' = OriginalFileID r /\
                  Resolution r' = Resolution r /\
                  Description r' = Description r /\
                  CategoryID r' = CategoryID r /\
                  CategorySource r' = CategorySource r /\
                  AILastHeartbeatAt r' = AILastHeartbeatAt r /\
                  AITaggingTries r' = AITaggingTries r /\
                  AITaggingStatus_ r' = AITaggingStatusDone /\
                  NSFW r' = (NSFW r || (true && IsNSFW (Safety parsed))) /\
                  IsRecommended r' =
                    (IsRecommended r || ResultIsRecommended parsed) /\
                  (true && IsNSFW (Safety parsed) = false \/
                   String.eqb "mark_only" "auto_delete"
                   || String.eqb "mark_only" "pending_review"
                   = false -> Status r' = Status r)
             else r' = r)
          (tbl_file w) (tbl_file (snd res)).
Proof.
  intros file w resp parsed res.
  split; [intros s; reflexivity|]. split; [reflexivity|].
  split; [reflexivity|].
  exact (processAIResponse_success_row
           file resp parsed true "mark_only" "" "png" w
           (fun s => eq_refl) eq_refl eq_refl).
Defined.

(** ** Errors of the persistence steps *)

(** The file counts as there when the count statement goes through and finds
    a row. *)
Lemma fileExists_run fileID w :
  fileExists fileID w =
  (match db_fault w StmtFileExists with
   | Some _ => false
   | None => existsb (has_id fileID) (tbl_file w)
   end, w).
Proof.
  unfold fileExists, bind, query, ret.
  destruct (db_fault w StmtFileExists); [reflexivity|].
  now rewrite count_positive_existsb.
Qed.

Lemma onPersistError_run fileID err w :
  onPersistError fileID err w =
  if isDeadlockError (Some err)
     && negb (match db_fault w StmtFileExists with
              | Some _ => false
              | None => existsb (has_id fileID) (tbl_file w)
              end)
  then (Some errFileDeleted, w)
  else (Some err,
        match db_fault w StmtUpdateFileStatus with
        | Some _ => w
        | None => with_file (map (fun r => if has_id fileID r
                                           then failedAttempt r else r)
                                 (tbl_file w)) w
        end).
Proof.
  unfold onPersistError.
  destruct (isDeadlockError (Some err)); cbn [andb].
  - unfold bind at 1. unfold bind at 1. rewrite fileExists_run. cbn [ret].
    destruct (negb _); [reflexivity|apply failed_run].
  - unfold bind at 1. cbn [ret]. apply failed_run.
Qed.

(** X7. When the UPSERT of the AI information fails, [processAIResponse] stops
    there. If the error is a deadlock and the file is gone (no row of that
    ID, or the count itself fails) it returns [errFileDeleted] and changes
    nothing; otherwise it returns the error of the store and counts a failed
    attempt on the job's row. No tag, no flag and no event is written in
    either case. *)
Theorem processAIResponse_save_failure
        `{Externals} (file : File) (resp : AIFileResponse)
        (parsed : AITaggingResult) (err : error)
        (contentDetectionEnabled : bool)
        (sensitiveContentHandling base64Data imageFormat : string) (w : World) :
  Success resp = true ->
  parseAITaggingResult (Data resp) = inr parsed ->
  db_fault w StmtSaveFileAIInfo = Some err ->
  let gone :=
    isDeadlockError (Some err)
    && negb (match db_fault w StmtFileExists with
             | Some _ => false
             | None => existsb (has_id (ID file)) (tbl_file w)
             end) in
  processAIResponse file (Some resp) contentDetectionEnabled
                    sensitiveContentHandling base64Data imageFormat w =
  if gone then (Some errFileDeleted, w)
  else (Some err,
        match db_fault w StmtUpdateFileStatus with
        | Some _ => w
        | None => with_file (map (fun r => if has_id (ID file) r
                                           then failedAttempt r else r)
                                 (tbl_file w)) w
        end).
Proof.
  intros Hs Hp Hf gone. unfold processAIResponse. rewrite Hs, Hp.
  unfold bind at 1. unfold bind at 1.
  unfold saveFileAIInfo, exec. rewrite Hf.
  rewrite onPersistError_run. fold gone. destruct gone; reflexivity.
Qed.

Lemma processAIResponse_save_failure_witness :
  let file := sampleFile "a" "" "normal" AITaggingStatusProcessing 0 0 in
  let w := deadlockWorld [sampleFile "b" "" "normal" AITaggingStatusDone 0 0] in
  let resp := sampleResponse "unflagged-0.9" in
  Success resp = true /\
  parseAITaggingResult (Data resp) =
    inr (sampleResult false (9 # 10)%Q ["cat"]) /\
  db_fault w StmtSaveFileAIInfo = Some deadlockError /\
  processAIResponse file (Some resp) true "mark_only" "" "png" w =
  (Some errFileDeleted, w).
Proof.
  intros file w resp. split; [reflexivity|]. split; [reflexivity|].
  split; [reflexivity|].
  exact (processAIResponse_save_failure
           file resp (sampleResult false (9 # 10)%Q ["cat"]) deadlockError
           true "mark_only" "" "png" w eq_refl eq_refl eq_refl).
Defined.

(** ** Components a computation leaves alone *)

Lemma preserves_ret {A B} (proj : World -> B) (a : A) : preserves proj (ret a).
Proof. intros w. reflexivity. Qed.

Lemma preserves_gets {A B} (proj : World -> B) (f : World -> A) :
  preserves proj (gets f).
Proof. intros w. reflexivity. Qed.

Lemma preserves_query {A B} (proj : World -> B) s (q : World -> A) :
  preserves proj (query s q).
Proof. intros w. unfold query. destruct (db_fault w s); reflexivity. Qed.

Lemma preserves_exec {B} (proj : World -> B) s (f : World -> World) :
  (forall w, proj (f w) = proj w) -> preserves proj (exec s f).
Proof. intros Hf w. unfold exec. destruct (db_fault w s); cbn; auto. Qed.

Lemma preserves_modify {B} (proj : World -> B) (f : World -> World) :
  (forall w, proj (f w) = proj w) -> preserves proj (modify f).
Proof. intros Hf w. apply Hf. Qed.

Lemma preserves_bind {A B C} (proj : World -> C) (c : M A) (k : A -> M B) :
  preserves proj c -> (forall a, preserves proj (k a)) ->
  preserves proj (bind c k).
Proof.
  intros Hc Hk w. unfold bind. specialize (Hc w).
  destruct (c w) as [a w1]. cbn in Hc. rewrite <- Hc. apply Hk.
Qed.

Ltac frame :=
  repeat first
    [ apply preserves_ret
    | apply preserves_gets
    | apply preserves_query
    | apply preserves_exec; intros; reflexivity
    | apply preserves_modify; intros; reflexivity
    | apply preserves_bind; [|intros ?]
    | match goal with
      | |- preserves _ (match ?x with _ => _ end) => destruct x
      end ].

Section Plan.
Context `{Externals}.

Lemma preserves_CreateTagsFromNames {B} (proj : World -> B) names u src :
  (forall t w, proj (with_global_tag t w) = proj w) ->
  preserves proj (CreateTagsFromNames names u src).
Proof.
  intros Hp w. unfold CreateTagsFromNames.
  destruct (db_fault w StmtCreateTagsFromNames); [reflexivity|].
  destruct (create_tags_from_names _ _). cbn. apply Hp.
Qed.

Lemma plan_processAIResponse (file : File) (aiResp : option AIFileResponse)
      (cde : bool) (sch base64Data imageFormat : string) :
  preserves db_fault
            (processAIResponse file aiResp cde sch base64Data imageFormat).
Proof.
  unfold processAIResponse, saveTags, processAndSaveTags, onPersistError,
    markFileForDeletion, markFileForReview, updateFileStatus,
    updateFileNSFWStatus, saveFileAIInfo, createPendingVectorRecord,
    fileExists, ReplaceFileTagsTx, emit.
  frame; try (apply preserves_CreateTagsFromNames; reflexivity).
Qed.

End Plan.

(** ** AiImageTaggingAndSaveWithBase64 *)

(** X8. Without a database connection, or with the AI analysis of uploads
    switched off, [AiImageTaggingAndSaveWithBase64] never reaches the
    provider: without a connection it returns an error and changes nothing;
    with the analysis off it marks the job [skipped] and returns what that
    update returns, adding no event and no other write. *)
Theorem AiImageTaggingAndSaveWithBase64_off
        `{Externals} (prov : Provider) (file : File)
        (base64Data imageFormat : string) (w : World) :
  db_conn w = false \/
  setting.GetBool (ai_analysis_enabled (settings w)) true = false ->
  AiImageTaggingAndSaveWithBase64 prov file base64Data imageFormat w =
  if negb (db_conn w) then (Some errNoDB, w)
  else match db_fault w StmtSetSkipped with
       | Some e => (Some e, w)
       | None =>
           (None, with_file (map (fun r => if has_id (ID file) r
                                           then skippedRow r else r)
                                 (tbl_file w)) w)
       end.
Proof.
  intros Hoff. unfold AiImageTaggingAndSaveWithBase64.
  unfold bind at 1. cbn [gets]. destruct (db_conn w) eqn:Hc; cbn [negb];
    [|reflexivity].
  destruct Hoff as [Hoff|Hoff]; [discriminate|].
  unfold bind at 1. cbn [gets]. rewrite Hoff. cbn [negb].
  unfold setSkipped, exec. destruct (db_fault w StmtSetSkipped); reflexivity.
Qed.

Lemma AiImageTaggingAndSaveWithBase64_off_witness :
  let file := sampleFile "a" "" "normal" AITaggingStatusPending 0 0 in
  let w := analysisOffWorld [file] in
  (db_conn w = false \/
   setting.GetBool (ai_analysis_enabled (settings w)) true = false) /\
  AiImageTaggingAndSaveWithBase64 (answers None) file "" "png" w =
  (None, with_file [sampleFile "a" "" "normal" AITaggingStatusSkipped 0 0] w).
Proof.
  intros file w. split; [right; reflexivity|].
  exact (AiImageTaggingAndSaveWithBase64_off (answers None) file "" "png" w
           (or_intror eq_refl)).
Defined.

Lemma find_none_existsb {A} (p : A -> bool) (l : list A) :
  existsb p l = false -> find p l = None.
Proof.
  induction l as [|a l IH]; [reflexivity|]. cbn.
  destruct (p a); [discriminate|exact IH].
Qed.

Lemma find_some_existsb {A} (p : A -> bool) (l : list A) :
  existsb p l = true -> exists a, find p l = Some a.
Proof.
  induction l as [|a l IH]; [discriminate|]. cbn.
  destruct (p a); [eauto|exact IH].
Qed.

(** X9. When both provider calls answer but the file's row is gone by then,
    [AiImageTaggingAndSaveWithBase64] returns [errFileDeleted] and writes
    nothing: the two provider calls are all the run leaves behind. *)
Theorem AiImageTaggingAndSaveWithBase64_file_deleted_meanwhile
        `{Externals} (categoryResult : option Z)
        (aiResponse : option AIFileResponse) (file : File)
        (base64Data imageFormat : string) (w : World) :
  db_conn w = true ->
  setting.GetBool (ai_analysis_enabled (settings w)) true = true ->
  db_fault w StmtTakeFile = None ->
  existsb (has_id (ID file)) (tbl_file w) = false ->
  AiImageTaggingAndSaveWithBase64
    (mkProvider (inr categoryResult) (inr aiResponse)) file base64Data
    imageFormat w =
  (Some errFileDeleted,
   with_trace (trace w ++ [EvPerformAIImageCategorization (ID file);
                           EvPerformAITagging (ID file)]) w).
Proof.
  intros Hc Hen Ht Hgone. apply find_none_existsb in Hgone.
  unfold AiImageTaggingAndSaveWithBase64.
  unfold bind at 1. cbn [gets]. rewrite Hc. cbn [negb].
  unfold bind at 1. cbn [gets]. rewrite Hen. cbn [negb].
  destruct w as [c fl tf ta trl tg tl st g n t trc]. cbn in *.
  unfold bind, emit, modify, query, with_trace. cbn. rewrite Ht, Hgone. cbn.
  now rewrite <- app_assoc.
Qed.

Lemma AiImageTaggingAndSaveWithBase64_file_deleted_meanwhile_witness :
  let file := sampleFile "a" "" "normal" AITaggingStatusProcessing 0 0 in
  let w := sampleWorld [sampleFile "b" "" "normal" AITaggingStatusDone 0 0]
                       None in
  db_conn w = true /\
  setting.GetBool (ai_analysis_enabled (settings w)) true = true /\
  db_fault w StmtTakeFile = None /\
  existsb (has_id (ID file)) (tbl_file w) = false /\
  AiImageTaggingAndSaveWithBase64
    (answers (Some (sampleResponse "unflagged-0.9"))) file "" "png" w =
  (Some errFileDeleted,
   with_trace [EvPerformAIImageCategorization "a"; EvPerformAITagging "a"] w).
Proof.
  intros file w. repeat (split; [reflexivity|]).
  exact (AiImageTaggingAndSaveWithBase64_file_deleted_meanwhile
           None (Some (sampleResponse "unflagged-0.9")) file "" "png" w
           eq_refl eq_refl eq_refl eq_refl).
Defined.

Lemma saveCategoryResultIfNeeded_run fileID categoryResult w :
  saveCategoryResultIfNeeded fileID categoryResult w =
  (db_fault w StmtSaveCategoryResult,
   with_trace (trace w ++ [EvSaveCategoryResult fileID]) w).
Proof.
  unfold saveCategoryResultIfNeeded, bind, emit, modify, exec. cbn.
  destruct (db_fault w StmtSaveCategoryResult); reflexivity.
Qed.

Lemma bind_snd {A B} (c : M A) (k : M B) w : (c ;;; k) w = k (snd (c w)).
Proof. unfold bind. destruct (c w); reflexivity. Qed.

Section Answered.
Context `{Externals}.

Lemma answered_run (categoryResult : option Z)
      (aiResponse : option AIFileResponse) (file : File)
      (base64Data imageFormat : string) (w : World) :
  db_conn w = true ->
  setting.GetBool (ai_analysis_enabled (settings w)) true = true ->
  db_fault w StmtTakeFile = None ->
  existsb (has_id (ID file)) (tbl_file w) = true ->
  AiImageTaggingAndSaveWithBase64
    (mkProvider (inr categoryResult) (inr aiResponse)) file base64Data
    imageFormat w =
  exec StmtSetDone
       (update_file (has_id (ID file))
                    (set_AITaggingStatus AITaggingStatusDone))
       (snd (processAIResponse file aiResponse
               (setting.GetBool (content_detection_enabled (settings w)) true)
               (setting.GetString (sensitive_content_handling (settings w))
                                  "mark_only")
               base64Data imageFormat (beforeResponse file w))).
Proof.
  intros Hc Hen Ht Hex. apply find_some_existsb in Hex. destruct Hex as [x Hx].
  unfold AiImageTaggingAndSaveWithBase64.
  erewrite bind_run by reflexivity. rewrite Hc. cbn [negb].
  erewrite bind_run by reflexivity. rewrite Hen. cbn [negb].
  erewrite bind_run by reflexivity.
  cbn [performAIImageCategorizationOutsideTx performAITagging].
  erewrite bind_run by reflexivity.
  erewrite bind_run by (apply query_ok; exact Ht).
  cbn [tbl_file with_trace]. rewrite Hx.
  erewrite bind_run by apply saveCategoryResultIfNeeded_run.
  rewrite bind_snd. f_equal. f_equal.
  unfold beforeResponse. destruct w. cbn. now rewrite <- !app_assoc.
Qed.

Lemma ends_done (file : File) (e : option error) (w w2 : World) :
  db_fault w2 StmtSetDone = None ->
  Forall2 (jobStep (ID file) (failureBudget e)) (tbl_file w) (tbl_file w2) ->
  let res := exec StmtSetDone
                  (update_file (has_id (ID file))
                               (set_AITaggingStatus AITaggingStatusDone)) w2 in
  fst res = None /\
  Forall2 (fun r r' =>
             ID r' = ID r /\
             (has_id (ID file) r = false -> r' = r) /\
             (has_id (ID file) r = true ->
              AITaggingStatus_ r' = AITaggingStatusDone) /\
             AITaggingTries r <= AITaggingTries r' <= AITaggingTries r + 1)
          (tbl_file w) (tbl_file (snd res)).
Proof.
  intros Hd Hj res. unfold res, exec. rewrite Hd. cbn.
  split; [reflexivity|].
  eapply (Forall2_compose
            (jobStep (ID file) (failureBudget e))
            (fun r1 r' => r' = if has_id (ID file) r1
                              then set_AITaggingStatus AITaggingStatusDone r1
                              else r1));
    [|exact Hj|apply Forall2_map_pointwise; intros r _; reflexivity].
  intros r r1 r' (I & O & _ & _ & T) ->.
  assert (Hid : has_id (ID file) r1 = has_id (ID file) r)
    by (unfold has_id; now rewrite I).
  rewrite Hid. destruct (has_id (ID file) r) eqn:E; cbn.
  - repeat split; auto; try discriminate; destruct e; cbn in T; lia.
  - rewrite (O eq_refl). repeat split; auto; try discriminate; lia.
Qed.

End Answered.

(** X10. Once both provider calls have answered and the file is still there,
    [AiImageTaggingAndSaveWithBase64] ends with the job [done], whatever the
    reply was and whatever [processAIResponse] made of it: its error is
    dropped. With the last status update going through, the run returns nil,
    the job's rows have status [done], their tries counter grew by at most
    one, and rows of other files are as they were. *)
Theorem AiImageTaggingAndSaveWithBase64_ends_done
        `{Externals} (categoryResult : option Z)
        (aiResponse : option AIFileResponse) (file : File)
        (base64Data imageFormat : string) (w : World) :
  db_conn w = true ->
  setting.GetBool (ai_analysis_enabled (settings w)) true = true ->
  db_fault w StmtTakeFile = None ->
  db_fault w StmtSetDone = None ->
  existsb (has_id (ID file)) (tbl_file w) = true ->
  let res := AiImageTaggingAndSaveWithBase64
               (mkProvider (inr categoryResult) (inr aiResponse)) file
               base64Data imageFormat w in
  fst res = None /\
  Forall2 (fun r r' =>
             ID r' = ID r /\
             (has_id (ID file) r = false -> r' = r) /\
             (has_id (ID file) r = true ->
              AITaggingStatus_ r' = AITaggingStatusDone) /\
             AITaggingTries r <= AITaggingTries r' <= AITaggingTries r + 1)
          (tbl_file w) (tbl_file (snd res)).
Proof.
  intros Hc Hen Ht Hd Hex res. unfold res.
  rewrite (answered_run _ _ _ _ _ _ Hc Hen Ht Hex).
  eapply (ends_done file).
  - rewrite plan_processAIResponse. exact Hd.
  - exact (processAIResponse_guarded file aiResponse _ _ base64Data
             imageFormat (beforeResponse file w)).
Qed.

Lemma AiImageTaggingAndSaveWithBase64_ends_done_witness :
  let file := sampleFile "a" "" "normal" AITaggingStatusProcessing 0 0 in
  let w := sampleWorld [file] None in
  let res := AiImageTaggingAndSaveWithBase64
               (mkProvider (inr None) (inr (Some sampleFailure))) file ""
               "png" w in
  db_conn w = true /\
  setting.GetBool (ai_analysis_enabled (settings w)) true = true /\
  db_fault w StmtTakeFile = None /\
  db_fault w StmtSetDone = None /\
  existsb (has_id (ID file)) (tbl_file w) = true /\
  fst res = None /\
  Forall2 (fun r r' =>
             ID r' = ID r /\
             (has_id (ID file) r = false -> r' = r) /\
             (has_id (ID file) r = true ->
              AITaggingStatus_ r' = AITaggingStatusDone) /\
             AITaggingTries r <= AITaggingTries r' <= AITaggingTries r + 1)
          (tbl_file w) (tbl_file (snd res)).
Proof.
  intros file w res. do 5 (split; [reflexivity|]).
  exact (AiImageTaggingAndSaveWithBase64_ends_done
           None (Some sampleFailure) file "" "png" w
           eq_refl eq_refl eq_refl eq_refl eq_refl).
Defined.

(** X11. A reply that [processAIResponse] cannot use (missing, or
    unsuccessful without being taken as a refusal) still ends as [done]: in a
    run of [AiImageTaggingAndSaveWithBase64] without store faults the attempt
    is counted, one more try on the job's row, and the status [failed] that
    went with it is overwritten by [done] before the run returns nil. *)
Theorem AiImageTaggingAndSaveWithBase64_unusable_reply_ends_done
        `{Externals} (categoryResult : option Z)
        (aiResponse : option AIFileResponse) (file : File)
        (base64Data imageFormat : string) (w : World) :
  no_faults w ->
  db_conn w = true ->
  setting.GetBool (ai_analysis_enabled (settings w)) true = true ->
  existsb (has_id (ID file)) (tbl_file w) = true ->
  match aiResponse with
  | Some r =>
      Success r = false /\
      setting.GetBool (content_detection_enabled (settings w)) true
      && isNSFWRejection r = false
  | None => True
  end ->
  let res := AiImageTaggingAndSaveWithBase64
               (mkProvider (inr categoryResult) (inr aiResponse)) file
               base64Data imageFormat w in
  fst res = None /\
  Forall2 (fun r r' =>
             if has_id (ID file) r
             then AITaggingStatus_ r' = AITaggingStatusDone /\
                  AITaggingTries r' = AITaggingTries r + 1
             else r' = r)
          (tbl_file w) (tbl_file (snd res)).
Proof.
  intros Hnf Hc Hen Hex Hun res. unfold res. clear res.
  rewrite (answered_run _ _ _ _ _ _ Hc Hen (Hnf _) Hex).
  rewrite unusable_reply_run by exact Hun.
  assert (Hu : db_fault w StmtUpdateFileStatus = None) by apply Hnf.
  assert (Hd : db_fault w StmtSetDone = None) by apply Hnf.
  clear Hnf Hun.
  destruct w as [c fl tf ta trl tg tl st g n t trc]. cbn in *.
  rewrite Hu. unfold exec. cbn. rewrite Hd. cbn. split; [reflexivity|].
  rewrite map_map. apply Forall2_map_pointwise. intros r _.
  unfold has_id. destruct r as [x1 x2 x3 x4 x5 x6 x7 x8 x9 x10 x11 x12 x13].
  cbn. destruct (String.eqb x1 (ID file)) eqn:E; cbn; rewrite ?E; cbn; auto.
Qed.

Lemma AiImageTaggingAndSaveWithBase64_unusable_reply_ends_done_witness :
  let file := sampleFile "a" "" "normal" AITaggingStatusProcessing 2 0 in
  let w := sampleWorld [file] None in
  let res := AiImageTaggingAndSaveWithBase64
               (mkProvider (inr None) (inr (Some sampleFailure))) file ""
               "png" w in
  no_faults w /\
  db_conn w = true /\
  setting.GetBool (ai_analysis_enabled (settings w)) true = true /\
  existsb (has_id (ID file)) (tbl_file w) = true /\
  (Success sampleFailure = false /\
   setting.GetBool (content_detection_enabled (settings w)) true
   && isNSFWRejection sampleFailure = false) /\
  fst res = None /\
  Forall2 (fun r r' =>
             if has_id (ID file) r
             then AITaggingStatus_ r' = AITaggingStatusDone /\
                  AITaggingTries r' = AITaggingTries r + 1
             else r' = r)
          (tbl_file w) (tbl_file (snd res)).
Proof.
  intros file w res. split; [intros s; reflexivity|].
  do 3 (split; [reflexivity|]). split; [split; reflexivity|].
  exact (AiImageTaggingAndSaveWithBase64_unusable_reply_ends_done
           None (Some sampleFailure) file "" "png" w
           (fun s => eq_refl) eq_refl eq_refl eq_refl (conj eq_refl eq_refl)).
Defined.

(** ** The life cycle of the queue service *)

(** X12. [InitGlobalTaggingQueue] can be called again at no cost: a second
    call right after the first returns what the first returned and changes
    nothing more (no second service, no second set of goroutines). A call
    that returns an error leaves the world as it was, and no call touches
    the file table. *)
Theorem InitGlobalTaggingQueue_idempotent (w : World) :
  let once := InitGlobalTaggingQueue w in
  InitGlobalTaggingQueue (snd once) = once /\
  (fst once <> None -> snd once = w) /\
  tbl_file (snd once) = tbl_file w.
Proof.
  destruct w as [c fl tf ta trl tg tl st g n t trc].
  unfold InitGlobalTaggingQueue, GetGlobalTaggingService, bind, gets. cbn.
  destruct g as [s|]; cbn;
    [repeat split; auto; intros E; now contradiction E|].
  destruct (setting.GetBool (ai_enabled st) false) eqn:Een; cbn;
    rewrite ?Een; cbn;
    [|repeat split; auto; intros E; now contradiction E].
  destruct c; cbn; rewrite ?Een; cbn; [|repeat split; auto].
  destruct n as [svc|]; cbn; rewrite ?Een; cbn; [|repeat split; auto].
  destruct (setting.GetBool (ai_auto_processing_enabled st) true); cbn;
    repeat split; auto; intros E; now contradiction E.
Qed.

(** X13. The lazy initialisation inside [AddFileToQueue] makes an explicit one
    redundant: calling [InitGlobalTaggingQueue] first and then
    [AddFileToQueue] gives, in every world, the same result and the same
    final world as [AddFileToQueue] alone. *)
Theorem AddFileToQueue_initialises_lazily (file : File) (w : World) :
  (InitGlobalTaggingQueue ;;; AddFileToQueue file) w = AddFileToQueue file w.
Proof.
  destruct w as [c fl tf ta trl tg tl st g n t trc].
  unfold AddFileToQueue at 2. unfold bind at 1.
  unfold InitGlobalTaggingQueue, GetGlobalTaggingService, bind, gets. cbn.
  destruct g as [s|]; cbn; [reflexivity|].
  destruct (setting.GetBool (ai_enabled st) false) eqn:Een; cbn.
  2:{ unfold AddFileToQueue, InitGlobalTaggingQueue, GetGlobalTaggingService,
        bind, gets. cbn. rewrite Een. reflexivity. }
  destruct c; cbn.
  2:{ unfold AddFileToQueue, InitGlobalTaggingQueue, GetGlobalTaggingService,
        bind, gets. cbn. rewrite Een. reflexivity. }
  destruct n as [svc|]; cbn.
  2:{ unfold AddFileToQueue, InitGlobalTaggingQueue, GetGlobalTaggingService,
        bind, gets. cbn. rewrite Een. reflexivity. }
  destruct (setting.GetBool (ai_auto_processing_enabled st) true); cbn;
    reflexivity.
Qed.

(** X14. Without a database connection [AddFileToQueue] changes nothing. With
    a service instance it returns an error; with none it returns nil: the
    initialisation it tries fails or is switched off, and its error is
    dropped. *)
Theorem AddFileToQueue_without_connection (file : File) (w : World) :
  db_conn w = false ->
  AddFileToQueue file w =
  (match globalTaggingService w with
   | Some _ => Some errNoDB
   | None => None
   end, w).
Proof.
  intros Hc. destruct w as [c fl tf ta trl tg tl st g n t trc]. cbn in Hc.
  subst c.
  unfold AddFileToQueue, InitGlobalTaggingQueue, GetGlobalTaggingService,
    bind, gets. cbn.
  destruct g as [s|]; cbn; [reflexivity|].
  destruct (setting.GetBool (ai_enabled st) false); reflexivity.
Qed.

Lemma AddFileToQueue_without_connection_witness :
  let file := sampleFile "a" "" "normal" AITaggingStatusNone 0 0 in
  let w := mkWorld false (fun _ => None) [file] [] [] [] [] sampleSettings
                   (Some runningService) None 100 [] in
  db_conn w = false /\
  AddFileToQueue file w = (Some errNoDB, w).
Proof.
  intros file w. split; [reflexivity|].
  exact (AddFileToQueue_without_connection file w eq_refl).
Defined.

Lemma calm_modify fileID (f : World -> World) :
  (forall w, tbl_file (f w) = tbl_file w) -> calm fileID (modify f).
Proof.
  intros Hf w. cbn. rewrite Hf. apply Forall2_pointwise_same.
  apply jobStep_refl.
Qed.

Lemma calm_fun {A} fileID (c : M A) :
  (forall w, tbl_file (snd (c w)) = tbl_file w) -> calm fileID c.
Proof.
  intros Hc w. rewrite Hc. apply Forall2_pointwise_same. apply jobStep_refl.
Qed.

Lemma preserves_Pause {B} (proj : World -> B) :
  (forall s w, proj (with_service s w) = proj w) -> preserves proj Pause.
Proof.
  intros Hp w. unfold Pause, modify. cbn.
  destruct (globalTaggingService w); [apply Hp|reflexivity].
Qed.

Lemma preserves_EnqueueUnique {B} (proj : World -> B) fileID priority :
  (forall s w, proj (with_service s w) = proj w) ->
  preserves proj (EnqueueUnique fileID priority).
Proof.
  intros Hp w. unfold EnqueueUnique.
  destruct (globalTaggingService w) as [s|]; [|reflexivity].
  destruct (taskQueue s) as [q|]; [|reflexivity].
  destruct (enqueue_unique fileID q). cbn. apply Hp.
Qed.

Lemma preserves_InitGlobalTaggingQueue {B} (proj : World -> B) :
  (forall s w, proj (with_service s w) = proj w) ->
  (forall t w, proj (with_trace t w) = proj w) ->
  preserves proj InitGlobalTaggingQueue.
Proof.
  intros Hs Ht.
  unfold InitGlobalTaggingQueue, GetGlobalTaggingService,
    SetGlobalTaggingService, emit.
  repeat first
    [ apply preserves_ret
    | apply preserves_gets
    | apply preserves_Pause; exact Hs
    | apply preserves_modify; intros; first [apply Hs|apply Ht]
    | apply preserves_bind; [|intros ?]
    | match goal with
      | |- preserves _ (match ?x with _ => _ end) => destruct x
      end ].
Qed.

Lemma preserves_AddFileToQueue {B} (proj : World -> B) file :
  (forall s w, proj (with_service s w) = proj w) ->
  (forall t w, proj (with_trace t w) = proj w) ->
  (forall t w, proj (with_file t w) = proj w) ->
  preserves proj (AddFileToQueue file).
Proof.
  intros Hs Ht Hf.
  unfold AddFileToQueue, GetGlobalTaggingService, IsPaused, ProcessSingleFile,
    notifyQueueStatsChange, emit.
  repeat first
    [ apply preserves_ret
    | apply preserves_gets
    | apply preserves_InitGlobalTaggingQueue; assumption
    | apply preserves_EnqueueUnique; exact Hs
    | apply preserves_exec; intros; apply Hf
    | apply preserves_modify; intros; apply Ht
    | apply preserves_bind; [|intros ?]
    | match goal with
      | |- preserves _ (match ?x with _ => _ end) => destruct x
      end ].
Qed.

Lemma calm_AddFileToQueue file : calm (ID file) (AddFileToQueue file).
Proof.
  unfold AddFileToQueue, GetGlobalTaggingService, IsPaused, ProcessSingleFile,
    notifyQueueStatsChange.
  repeat first
    [ apply calm_ret
    | apply calm_gets
    | apply calm_emit
    | apply calm_update_file; job_row
    | apply calm_fun; apply preserves_InitGlobalTaggingQueue; reflexivity
    | apply calm_fun; apply preserves_EnqueueUnique; reflexivity
    | apply calm_bind; [|intros ?]
    | match goal with
      | |- calm _ (match ?x with _ => _ end) => destruct x
      end ].
Qed.

(** X15. A run of [AddFileToQueue] that finds a service instance in place
    and does not hand the file to [ProcessSingleFile] (the queue took the ID,
    or the service is paused) does nothing but mark the job and tell about
    the queue: whatever the store does, it starts no goroutine, its only
    calls out are the queue notification and the broadcast to the admins,
    the tries counter of every job stays, no row of another file is touched,
    and the AI information and the tag tables stay as they were. *)
Theorem AddFileToQueue_keeps_tries_and_results (file : File) (w : World) :
  globalTaggingService w <> None ->
  ~ In (EvProcessSingleFile (ID file))
       (addedEvents w (snd (AddFileToQueue file w))) ->
  let w' := snd (AddFileToQueue file w) in
  Forall (fun e => e = EvNotifyQueueStatsChange \/
                   e = EvBroadcastToAdmins (ID file))
         (addedEvents w w') /\
  Forall2 (fun r r' =>
             ID r' = ID r /\
             (has_id (ID file) r = false -> r' = r) /\
             AITaggingTries r' = AITaggingTries r)
          (tbl_file w) (tbl_file w') /\
  tbl_file_ai_info w' = tbl_file_ai_info w /\
  tbl_file_global_tag_relation w' = tbl_file_global_tag_relation w /\
  tbl_global_tag w' = tbl_global_tag w.
Proof.
  intros Hsvc Hno w'. unfold w'. split; [|split].
  - revert Hno. unfold addedEvents, AddFileToQueue.
    unfold GetGlobalTaggingService, IsPaused, ProcessSingleFile,
      notifyQueueStatsChange, EnqueueUnique, emit, modify, exec, bind, gets,
      ret.
    destruct w as [conn fl tf ta trl tg tl st g n t trc].
    cbn in Hsvc. destruct g as [[p q]|]; [|contradiction]. cbn.
    destruct conn; cbn; [|rewrite skipn_all; constructor].
    destruct (fl StmtSetPending); cbn;
      (destruct q as [q|]; cbn;
       [destruct (enqueue_unique (ID file) q) as [[err|] q']; cbn|]);
      destruct p; cbn;
      rewrite <- ?app_assoc, ?skipn_all, ?skipn_length_app; cbn; intros Hno;
      try solve [repeat constructor; auto].
    all: exfalso; apply Hno; now left.
  - generalize (calm_AddFileToQueue file w). apply Forall2_impl.
    intros r r' (I & O & _ & _ & T). repeat split; auto; lia.
  - repeat split; apply preserves_AddFileToQueue; reflexivity.
Qed.

Lemma AddFileToQueue_keeps_tries_and_results_witness :
  let file := sampleFile "a" "" "normal" AITaggingStatusFailed 2 0 in
  let w := sampleWorld [file; sampleFile "b" "" "normal" AITaggingStatusDone 1 0]
                       (Some runningService) in
  let w' := snd (AddFileToQueue file w) in
  globalTaggingService w <> None /\
  ~ In (EvProcessSingleFile (ID file)) (addedEvents w w') /\
  Forall (fun e => e = EvNotifyQueueStatsChange \/
                   e = EvBroadcastToAdmins (ID file))
         (addedEvents w w') /\
  Forall2 (fun r r' =>
             ID r' = ID r /\
             (has_id (ID file) r = false -> r' = r) /\
             AITaggingTries r' = AITaggingTries r)
          (tbl_file w) (tbl_file w').
Proof.
  intros file w w'.
  assert (Hsvc : globalTaggingService w <> None) by discriminate.
  assert (Hno : ~ In (EvProcessSingleFile (ID file)) (addedEvents w w')).
  { vm_compute. intros [E|[]]. discriminate E. }
  split; [exact Hsvc|]. split; [exact Hno|].
  destruct (AddFileToQueue_keeps_tries_and_results file w Hsvc Hno)
    as (Hev & Hrows & _).
  split; [exact Hev|exact Hrows].
Defined.

(** ** RecoverPendingOnStartup *)

Lemma filter_id_in_map ids (g : File -> File) (t : list File) :
  (forall r, ID (g r) = ID r) ->
  map ID (filter (id_in ids) (map g t)) = map ID (filter (id_in ids) t).
Proof.
  intros Hg. induction t as [|r t IH]; [reflexivity|]. cbn [map filter].
  assert (E : id_in ids (g r) = id_in ids r) by (unfold id_in; now rewrite Hg).
  rewrite E. destruct (id_in ids r); cbn [map]; rewrite ?Hg, IH; reflexivity.
Qed.

Lemma ID_recovered ids r :
  ID (if id_in ids r then reset_for_recovery r else r) = ID r.
Proof. destruct (id_in ids r); reflexivity. Qed.

Lemma RecoverPendingOnStartup_run limit w :
  no_faults w ->
  db_conn w = true ->
  RecoverPendingOnStartup limit w =
  ((Z.of_nat (length (recoveredIDs limit w)), None),
   match globalTaggingService w, recoveredIDs limit w with
   | Some _, _ :: _ =>
       with_trace (trace w ++
                   [EvBatchProcessFiles
                      (map ID (filter (id_in (recoveredIDs limit w))
                                      (tbl_file w)))])
                  (with_file (recoveredRows limit w) w)
   | None, _ :: _ => with_file (recoveredRows limit w) w
   | _, [] => w
   end).
Proof.
  intros Hnf Hc. unfold RecoverPendingOnStartup.
  erewrite bind_run by reflexivity. rewrite Hc. cbn [negb].
  erewrite bind_run by (apply query_ok; apply Hnf).
  cbv beta.
  change (map ID (limited limit (filter is_pending (tbl_file w))))
    with (recoveredIDs limit w).
  destruct (recoveredIDs limit w) as [|i ids] eqn:Eids.
  - cbn. destruct (globalTaggingService w); reflexivity.
  - erewrite bind_run by (apply exec_ok; apply Hnf).
    assert (Hpos : (0 <? Z.of_nat (length (i :: ids))) = true)
      by (apply Z.ltb_lt; cbn [length]; lia).
    rewrite Hpos.
    assert (Hrows : update_file (id_in (i :: ids))
                      (fun r => set_AITaggingTries 0
                                  (set_AITaggingStatus AITaggingStatusNone r)) w
                    = with_file (recoveredRows limit w) w).
    { unfold update_file, recoveredRows. rewrite Eids. reflexivity. }
    rewrite Hrows.
    unfold GetGlobalTaggingService.
    destruct (globalTaggingService w) as [s|] eqn:Eg.
    + unfold bind at 1.
      assert (Hq : forall A (k : option TaggingService -> M A),
                 bind (gets globalTaggingService) k
                      (with_file (recoveredRows limit w) w) =
                 k (Some s) (with_file (recoveredRows limit w) w)).
      { intros A k. unfold bind, gets. cbn. now rewrite Eg. }
      rewrite Hq.
      erewrite bind_run by (apply query_ok; apply Hnf).
      cbn [tbl_file with_file].
      unfold recoveredRows at 1. rewrite Eids.
      assert (Hne : exists x xs,
                 filter (id_in (i :: ids))
                        (map (fun r => if id_in (i :: ids) r
                                       then reset_for_recovery r else r)
                             (tbl_file w)) = x :: xs).
      { assert (Hin : In i (recoveredIDs limit w)) by (rewrite Eids; now left).
        unfold recoveredIDs in Hin. apply in_map_iff in Hin.
        destruct Hin as (r & Hr & Hin). apply In_limited in Hin.
        apply filter_In in Hin. destruct Hin as [Hin _].
        destruct (filter (id_in (i :: ids))
                    (map (fun r => if id_in (i :: ids) r
                                   then reset_for_recovery r else r)
                         (tbl_file w))) as [|x xs] eqn:Ef; [|eauto].
        exfalso.
        assert (Hx : In (if id_in (i :: ids) r then reset_for_recovery r else r)
                        []).
        { rewrite <- Ef. apply filter_In. split.
          - apply in_map_iff. eauto.
          - unfold id_in at 1. rewrite ID_recovered. cbn. rewrite Hr.
            now rewrite String.eqb_refl. }
        destruct Hx. }
      destruct Hne as (x & xs & Hne).
      generalize (filter_id_in_map (i :: ids)
                    (fun r => if id_in (i :: ids) r
                              then reset_for_recovery r else r)
                    (tbl_file w) (ID_recovered (i :: ids))).
      rewrite Hne. intros Hm. rewrite <- Hm. reflexivity.
    + unfold bind at 1.
      assert (Hq : forall A (k : option TaggingService -> M A),
                 bind (gets globalTaggingService) k
                      (with_file (recoveredRows limit w) w) =
                 k None (with_file (recoveredRows limit w) w)).
      { intros A k. unfold bind, gets. cbn. now rewrite Eg. }
      rewrite Hq. reflexivity.
Qed.

Lemma recoveredRows_none limit w :
  recoveredIDs limit w = [] -> recoveredRows limit w = tbl_file w.
Proof.
  intros E. unfold recoveredRows. rewrite E.
  rewrite <- (map_id (tbl_file w)) at 2. apply map_ext. reflexivity.
Qed.

(** X16. What a fault-free [RecoverPendingOnStartup] hands over. With a
    service instance and at least one selected job, the rows bearing a
    selected ID go to [BatchProcessFiles] in one batch, after their reset.
    Without a service instance nothing is handed over, and yet the selected
    jobs have been reset to status none with zero tries all the same. *)
Theorem RecoverPendingOnStartup_hands_over (limit : Z) (w : World) :
  no_faults w ->
  db_conn w = true ->
  let ids := recoveredIDs limit w in
  let res := RecoverPendingOnStartup limit w in
  fst res = (Z.of_nat (length ids), None) /\
  addedEvents w (snd res) =
    match globalTaggingService w, ids with
    | Some _, _ :: _ =>
        [EvBatchProcessFiles (map ID (filter (id_in ids) (tbl_file w)))]
    | _, _ => []
    end /\
  tbl_file (snd res) =
    map (fun r => if id_in ids r then reset_for_recovery r else r) (tbl_file w).
Proof.
  intros Hnf Hc ids res. unfold res, ids, addedEvents.
  rewrite (RecoverPendingOnStartup_run limit w Hnf Hc). cbn [fst snd].
  split; [reflexivity|].
  fold (recoveredRows limit w).
  destruct (recoveredIDs limit w) as [|i l] eqn:Eids;
    destruct (globalTaggingService w); cbn [trace tbl_file with_trace with_file];
    rewrite ?skipn_length_app, ?skipn_all; split; try reflexivity;
    symmetry; apply recoveredRows_none; exact Eids.
Qed.

Lemma RecoverPendingOnStartup_hands_over_witness :
  let w := sampleWorld
             [sampleFile "a" "" "normal" AITaggingStatusPending 2 0;
              sampleFile "b" "" "normal" AITaggingStatusDone 1 0]
             (Some runningService) in
  let res := RecoverPendingOnStartup 1000 w in
  no_faults w /\
  db_conn w = true /\
  fst res = (1, None) /\
  addedEvents w (snd res) = [EvBatchProcessFiles ["a"]] /\
  tbl_file (snd res) =
    [sampleFile "a" "" "normal" AITaggingStatusNone 0 0;
     sampleFile "b" "" "normal" AITaggingStatusDone 1 0].
Proof.
  intros w res. split; [intros s; reflexivity|]. split; [reflexivity|].
  exact (RecoverPendingOnStartup_hands_over 1000 w (fun s => eq_refl) eq_refl).
Defined.

Lemma limited_all {A} (limit : Z) (l : list A) :
  (0 < limit -> Z.of_nat (length l) <= limit) -> limited limit l = l.
Proof.
  intros Hl. unfold limited. destruct (0 <? limit) eqn:E; [|reflexivity].
  apply Z.ltb_lt in E. apply firstn_all2. specialize (Hl E). lia.
Qed.

Lemma filter_map_none {A} (p : A -> bool) (g : A -> A) (t : list A) :
  (forall r, In r t -> p (g r) = false) -> filter p (map g t) = [].
Proof.
  induction t as [|r t IH]; [reflexivity|]. intros Hp. cbn.
  rewrite (Hp r (or_introl eq_refl)). apply IH. intros x Hx. apply Hp.
  now right.
Qed.

Lemma recovered_none_pending limit w :
  (0 < limit -> Z.of_nat (length (filter is_pending (tbl_file w))) <= limit) ->
  filter is_pending (recoveredRows limit w) = [].
Proof.
  intros Hl. unfold recoveredRows, recoveredIDs. rewrite (limited_all _ _ Hl).
  apply filter_map_none. intros r Hin.
  destruct (id_in (map ID (filter is_pending (tbl_file w))) r) eqn:E;
    [reflexivity|].
  destruct (is_pending r) eqn:Ep; [|reflexivity].
  exfalso. unfold id_in in E.
  assert (Hex : existsb (String.eqb (ID r))
                        (map ID (filter is_pending (tbl_file w))) = true).
  { apply existsb_exists. exists (ID r). split; [|apply String.eqb_refl].
    apply in_map. apply filter_In. auto. }
  congruence.
Qed.

(** X17. Without a service instance nothing follows the reset: no batch is
    handed on. Then, when the limit covers every pending job (it is not
    positive, or at least their number), a fault-free
    [RecoverPendingOnStartup] leaves no job pending, so that a second
    recovery finds nothing: it returns zero and nil and changes nothing. *)
Theorem RecoverPendingOnStartup_leaves_none_pending (limit : Z) (w : World) :
  no_faults w ->
  db_conn w = true ->
  globalTaggingService w = None ->
  (0 < limit -> Z.of_nat (length (filter is_pending (tbl_file w))) <= limit) ->
  let once := snd (RecoverPendingOnStartup limit w) in
  addedEvents w once = [] /\
  filter is_pending (tbl_file once) = [] /\
  RecoverPendingOnStartup limit once = ((0, None), once).
Proof.
  intros Hnf Hc Hsvc Hl once.
  assert (Honce : once = with_file (recoveredRows limit w) w).
  { unfold once. rewrite (RecoverPendingOnStartup_run limit w Hnf Hc). cbn [snd].
    rewrite Hsvc. destruct (recoveredIDs limit w) eqn:Eids; [|reflexivity].
    rewrite (recoveredRows_none limit w Eids). now destruct w. }
  assert (Hnone : filter is_pending (tbl_file once) = []).
  { rewrite Honce. cbn [tbl_file with_file].
    apply recovered_none_pending. exact Hl. }
  split; [|split; [exact Hnone|]].
  - rewrite Honce. unfold addedEvents. cbn [trace with_file].
    apply skipn_all.
  - assert (Hnf' : no_faults once) by (rewrite Honce; exact Hnf).
    assert (Hc' : db_conn once = true) by (rewrite Honce; exact Hc).
    rewrite (RecoverPendingOnStartup_run limit once Hnf' Hc').
    unfold recoveredIDs. rewrite Hnone.
    assert (El : limited limit (@nil File) = []).
    { unfold limited. destruct (0 <? limit); [apply firstn_nil|reflexivity]. }
    rewrite El. cbn. destruct (globalTaggingService once); reflexivity.
Qed.

Lemma RecoverPendingOnStartup_leaves_none_pending_witness :
  let w := sampleWorld
             [sampleFile "a" "" "normal" AITaggingStatusPending 2 0;
              sampleFile "b" "" "normal" AITaggingStatusPending 1 0]
             None in
  let once := snd (RecoverPendingOnStartup 1000 w) in
  no_faults w /\
  db_conn w = true /\
  globalTaggingService w = None /\
  (0 < 1000 -> Z.of_nat (length (filter is_pending (tbl_file w))) <= 1000) /\
  addedEvents w once = [] /\
  filter is_pending (tbl_file once) = [] /\
  RecoverPendingOnStartup 1000 once = ((0, None), once).
Proof.
  intros w once. split; [intros s; reflexivity|]. split; [reflexivity|].
  split; [reflexivity|]. split; [intros _; cbn; lia|].
  exact (RecoverPendingOnStartup_leaves_none_pending 1000 w
           (fun s => eq_refl) eq_refl eq_refl
           (fun _ => ltac:(vm_compute; discriminate))).
Defined.

(** ** The reach of propagateAIToDuplicates *)

Lemma forEach_nil_run {A} (body : A -> M unit) w : forEach body [] w = (tt, w).
Proof. reflexivity. Qed.

Lemma propagateAIToDuplicates_noop (originalID : string) (w : World) :
  db_conn w = false \/
  db_fault w StmtPropFirstFile <> None \/
  existsb (has_id originalID) (tbl_file w) = false \/
  db_fault w StmtPropFindDups <> None \/
  duplicateIDs originalID w = [] ->
  propagateAIToDuplicates originalID w = (tt, w).
Proof.
  intros Hcase. unfold propagateAIToDuplicates.
  erewrite bind_run by reflexivity.
  destruct (db_conn w) eqn:Hc; cbn [negb]; [|reflexivity].
  unfold bind at 1, query at 1.
  destruct (db_fault w StmtPropFirstFile) eqn:Hf1; [reflexivity|].
  destruct (find (has_id originalID) (tbl_file w)) as [orig|] eqn:Hfind;
    [|reflexivity].
  unfold bind at 1, query at 1.
  assert (Hdup : forall a,
             (d <- query StmtPropFindDups
                     (fun w0 => filter (is_duplicate_of originalID)
                                       (tbl_file w0)) ;;
              match d with
              | inl _ => ret tt
              | inr dups => forEach (propagateToDuplicate originalID orig a)
                                    dups
              end) w = (tt, w)).
  { intros a. unfold bind, query.
    destruct (db_fault w StmtPropFindDups) eqn:Hf2; [reflexivity|].
    destruct Hcase as [H|[H|[H|[H|H]]]]; try congruence.
    - apply find_none_existsb in H. congruence.
    - unfold duplicateIDs in H. apply map_eq_nil in H. rewrite H. reflexivity. }
  destruct (db_fault w StmtPropFirstAIInfo);
    [|destruct (find (same_file originalID) (tbl_file_ai_info w))];
    apply Hdup.
Qed.

(** X18. [propagateAIToDuplicates] changes nothing when there is nothing to
    do: no database connection, an original that cannot be read or is not
    there, a list of duplicates that cannot be read or is empty. *)
Theorem propagateAIToDuplicates_nothing_to_do (originalID : string) (w : World) :
  db_conn w = false \/
  db_fault w StmtPropFirstFile <> None \/
  existsb (has_id originalID) (tbl_file w) = false \/
  db_fault w StmtPropFindDups <> None \/
  duplicateIDs originalID w = [] ->
  propagateAIToDuplicates originalID w = (tt, w).
Proof.
  intros [Hc|[Hf|[Hx|[Hd|Hn]]]]; apply propagateAIToDuplicates_noop.
  - now left.
  - right. now left.
  - do 2 right. now left.
  - do 3 right. now left.
  - do 4 right. exact Hn.
Qed.

Lemma propagateAIToDuplicates_nothing_to_do_witness :
  let w := sampleWorld [sampleFile "a" "" "normal" AITaggingStatusDone 0 0;
                        sampleFile "b" "x" "normal" AITaggingStatusPending 0 0]
                       None in
  (db_conn w = false \/
   db_fault w StmtPropFirstFile <> None \/
   existsb (has_id "a") (tbl_file w) = false \/
   db_fault w StmtPropFindDups <> None \/
   duplicateIDs "a" w = []) /\
  propagateAIToDuplicates "a" w = (tt, w).
Proof.
  intros w. split; [do 4 right; reflexivity|].
  exact (propagateAIToDuplicates_nothing_to_do "a" w
           (or_intror (or_intror (or_intror (or_intror eq_refl))))).
Defined.


Lemma worksFor_refl ids w : worksFor ids w w.
Proof.
  unfold worksFor. repeat split; auto.
  - exists []. rewrite app_nil_r. auto.
  - apply Forall2_pointwise_same. auto.
Qed.

Lemma worksFor_trans ids w1 w2 w3 :
  worksFor ids w1 w2 -> worksFor ids w2 w3 -> worksFor ids w1 w3.
Proof.
  intros ((m1 & R1 & F1) & A1 & T1 & G1 & L1) ((m2 & R2 & F2) & A2 & T2 & G2 & L2).
  unfold worksFor. repeat split; try congruence.
  - exists (m1 ++ m2)%list. rewrite R2, R1, app_assoc. split; [reflexivity|].
    apply Forall_app. auto.
  - intros i Hi. rewrite (A2 i Hi). apply A1. exact Hi.
  - eapply Forall2_compose; [|exact T1|exact T2].
    intros a b c [I1 O1] [I2 O2]. split; [congruence|].
    intros Hn. rewrite O2 by (rewrite I1; exact Hn). apply O1. exact Hn.
Qed.

Lemma touchesOnly_ret {A} ids (a : A) : touchesOnly ids (ret a).
Proof. intros w. apply worksFor_refl. Qed.

Lemma touchesOnly_gets {A} ids (f : World -> A) : touchesOnly ids (gets f).
Proof. intros w. apply worksFor_refl. Qed.

Lemma touchesOnly_query {A} ids s (q : World -> A) : touchesOnly ids (query s q).
Proof.
  intros w. unfold query. destruct (db_fault w s); apply worksFor_refl.
Qed.

Lemma touchesOnly_exec ids s (f : World -> World) :
  (forall w, worksFor ids w (f w)) -> touchesOnly ids (exec s f).
Proof.
  intros Hf w. unfold exec. destruct (db_fault w s); cbn;
    [apply worksFor_refl|apply Hf].
Qed.

Lemma touchesOnly_bind {A B} ids (c : M A) (k : A -> M B) :
  touchesOnly ids c -> (forall a, touchesOnly ids (k a)) ->
  touchesOnly ids (bind c k).
Proof.
  intros Hc Hk w. unfold bind. specialize (Hc w).
  destruct (c w) as [a w1]. cbn in Hc.
  eapply worksFor_trans; [exact Hc|apply Hk].
Qed.

Lemma touchesOnly_forEach {A} ids (body : A -> M unit) (l : list A) :
  (forall x, In x l -> touchesOnly ids (body x)) ->
  touchesOnly ids (forEach body l).
Proof.
  induction l as [|x l IH]; intros Hb; [apply touchesOnly_ret|].
  cbn. apply touchesOnly_bind; [apply Hb; now left|].
  intros _. apply IH. intros y Hy. apply Hb. now right.
Qed.

Lemma worksFor_update_file ids d (f : File -> File) w :
  In d ids -> (forall r, ID (f r) = ID r) ->
  worksFor ids w (update_file (has_id d) f w).
Proof.
  intros Hd Hf. unfold worksFor. cbn. repeat split; auto.
  - exists []. rewrite app_nil_r. auto.
  - apply Forall2_map_pointwise. intros r _.
    destruct (has_id d r) eqn:E; [|auto].
    split; [apply Hf|]. intros Hn. exfalso. apply Hn.
    unfold has_id in E. apply String.eqb_eq in E. now rewrite E.
Qed.

Lemma worksFor_upsert ids d (row : FileAIInfo) w :
  In d ids -> AI_FileID row = d ->
  worksFor ids w (with_file_ai_info (upsert_ai_info row (tbl_file_ai_info w)) w).
Proof.
  intros Hd Hrow. unfold worksFor. cbn. repeat split; auto.
  - exists []. rewrite app_nil_r. auto.
  - intros i Hi. apply filter_upsert_other.
    unfold same_file. apply String.eqb_neq. intros E. apply Hi.
    rewrite <- E, Hrow. exact Hd.
  - apply Forall2_pointwise_same. auto.
Qed.

Lemma worksFor_append ids d (x : FileGlobalTagRelation) w :
  In d ids -> Rel_FileID x = d ->
  worksFor ids w (with_relation (tbl_file_global_tag_relation w ++ [x]) w).
Proof.
  intros Hd Hx. unfold worksFor. cbn. repeat split; auto.
  - exists [x]. split; [reflexivity|]. constructor; [|constructor].
    now rewrite Hx.
  - apply Forall2_pointwise_same. auto.
Qed.

Lemma ID_doneUpdates orig r : ID (doneUpdates orig r) = ID r.
Proof. unfold doneUpdates. destruct (CategoryID orig); reflexivity. Qed.

Lemma touchesOnly_propagateToDuplicate ids originalID orig origAI dup :
  In (ID dup) ids ->
  touchesOnly ids (propagateToDuplicate originalID orig origAI dup).
Proof.
  intros Hd. unfold propagateToDuplicate, copyRelation.
  repeat first
    [ apply touchesOnly_ret
    | apply touchesOnly_query
    | apply touchesOnly_exec; intros;
      first [ apply (worksFor_update_file ids (ID dup)); [exact Hd|];
              intros; first [reflexivity|apply ID_doneUpdates]
            | apply (worksFor_upsert ids (ID dup)); [exact Hd|reflexivity]
            | apply (worksFor_append ids (ID dup)); [exact Hd|reflexivity] ]
    | apply touchesOnly_forEach; intros ? _
    | apply touchesOnly_bind; [|intros ?]
    | match goal with
      | |- touchesOnly _ (match ?x with _ => _ end) => destruct x
      | |- touchesOnly _ (if ?x then _ else _) => destruct x
      end ].
Qed.

Lemma propagateAIToDuplicates_worksFor originalID w :
  worksFor (duplicateIDs originalID w) w
           (snd (propagateAIToDuplicates originalID w)).
Proof.
  unfold propagateAIToDuplicates.
  erewrite bind_run by reflexivity.
  destruct (db_conn w); cbn [negb]; [|apply worksFor_refl].
  unfold bind at 1, query at 1.
  destruct (db_fault w StmtPropFirstFile); [apply worksFor_refl|].
  destruct (find (has_id originalID) (tbl_file w)) as [orig|];
    [|apply worksFor_refl].
  unfold bind at 1, query at 1.
  assert (Hrest : forall a,
             worksFor (duplicateIDs originalID w) w
               (snd ((d <- query StmtPropFindDups
                             (fun w0 => filter (is_duplicate_of originalID)
                                               (tbl_file w0)) ;;
                      match d with
                      | inl _ => ret tt
                      | inr dups =>
                          forEach (propagateToDuplicate originalID orig a) dups
                      end) w))).
  { intros a. unfold bind at 1, query at 1.
    destruct (db_fault w StmtPropFindDups); [apply worksFor_refl|].
    apply touchesOnly_forEach. intros dup Hdup.
    apply touchesOnly_propagateToDuplicate.
    unfold duplicateIDs. now apply in_map. }
  destruct (db_fault w StmtPropFirstAIInfo);
    [|destruct (find (same_file originalID) (tbl_file_ai_info w))];
    apply Hrest.
Qed.

(** X19. The reach of [propagateAIToDuplicates], whatever the store does. Its
    only writes are for the duplicates it selected: tag relations are only
    appended, each for a selected duplicate; the AI information of every
    other file (the original included) keeps its rows; a file row that is
    not a selected duplicate stays as it was and no row changes its ID; the
    global tags and the tagging log are not written. *)
Theorem propagateAIToDuplicates_reach (originalID : string) (w : World) :
  let ids := duplicateIDs originalID w in
  let w' := snd (propagateAIToDuplicates originalID w) in
  (exists more,
      tbl_file_global_tag_relation w' =
        (tbl_file_global_tag_relation w ++ more)%list /\
      Forall (fun x => In (Rel_FileID x) ids) more) /\
  (forall i, ~ In i ids ->
             filter (same_file i) (tbl_file_ai_info w') =
             filter (same_file i) (tbl_file_ai_info w)) /\
  Forall2 (fun r r' => ID r' = ID r /\ (~ In (ID r) ids -> r' = r))
          (tbl_file w) (tbl_file w') /\
  tbl_global_tag w' = tbl_global_tag w /\
  tbl_file_tagging_log w' = tbl_file_tagging_log w.
Proof.
  intros ids w'.
  destruct (propagateAIToDuplicates_worksFor originalID w)
    as (Hrel & Hai & Hrows & Htags & Hlog).
  split; [exact Hrel|]. split; [exact Hai|]. split; [exact Hrows|].
  split; [exact Htags|exact Hlog].
Qed.

(** ** The reuse of an analysis at upload time *)

Lemma preserves_attempt {B} (proj : World -> B) plan s (f : World -> World) :
  (forall w, proj (f w) = proj w) -> preserves proj (attempt plan s f).
Proof. intros Hf w. unfold attempt. destruct (plan s); cbn; auto. Qed.

Lemma preserves_lookup {A B} (proj : World -> B) plan s (q : World -> option A) :
  preserves proj (lookup plan s q).
Proof. intros w. unfold lookup. destruct (plan s); reflexivity. Qed.

Lemma preserves_forEach {A B} (proj : World -> B) (body : A -> M unit) l :
  (forall x, preserves proj (body x)) -> preserves proj (forEach body l).
Proof.
  intros Hb. induction l as [|x l IH]; [apply preserves_ret|].
  cbn. apply preserves_bind; [apply Hb|intros _; exact IH].
Qed.

Ltac frame_reuse :=
  repeat first
    [ apply preserves_ret
    | apply preserves_lookup
    | apply preserves_attempt; intros; reflexivity
    | apply preserves_forEach; intros ?
    | apply preserves_bind; [|intros ?]
    | match goal with
      | |- preserves _ (match ?x with _ => _ end) => destruct x
      | |- preserves _ (if ?x then _ else _) => destruct x
      end ].

Lemma reuse_snd plan vectorOn ctx w :
  snd (reuseAnalysisAndVectorForDuplicate plan vectorOn ctx w) =
  snd (reuseCategory plan ctx
         (snd (reuseTagRelations plan ctx (snd (reuseAIInfo plan ctx w))))).
Proof.
  unfold reuseAnalysisAndVectorForDuplicate.
  rewrite !bind_snd. reflexivity.
Qed.

Lemma preserves_reuseAIInfo_relation plan ctx :
  preserves tbl_file_global_tag_relation (reuseAIInfo plan ctx).
Proof. unfold reuseAIInfo. frame_reuse. Qed.

Lemma preserves_reuseCategory_relation plan ctx :
  preserves tbl_file_global_tag_relation (reuseCategory plan ctx).
Proof. unfold reuseCategory. frame_reuse. Qed.

Lemma forEach_create_relation_run newID rs w :
  forEach (fun r => attempt noReuseFaults ReuseCreateRelation
                      (fun w => with_relation
                                  (tbl_file_global_tag_relation w
                                   ++ [retarget newID r]) w)) rs w =
  (tt, with_relation (tbl_file_global_tag_relation w
                      ++ map (retarget newID) rs) w).
Proof.
  revert w. induction rs as [|r rs IH]; intros w; cbn.
  - rewrite app_nil_r. destruct w; reflexivity.
  - unfold bind, attempt at 1. cbn. rewrite IH. cbn.
    rewrite <- app_assoc. reflexivity.
Qed.

Lemma reuse_relation vectorOn ctx w :
  tbl_file_global_tag_relation
    (snd (reuseAnalysisAndVectorForDuplicate noReuseFaults vectorOn ctx w)) =
  (tbl_file_global_tag_relation w
   ++ map (retarget (Ctx_FileID ctx))
          (relations_of (Ctx_OriginalFileID ctx)
                        (tbl_file_global_tag_relation w)))%list.
Proof.
  rewrite reuse_snd, preserves_reuseCategory_relation.
  generalize (preserves_reuseAIInfo_relation noReuseFaults ctx w).
  generalize (snd (reuseAIInfo noReuseFaults ctx w)). intros w1 E.
  unfold reuseTagRelations. unfold bind, lookup. cbn.
  rewrite forEach_create_relation_run. cbn.
  now rewrite E.
Qed.

Section KeepsRows.
Variable R : File -> File -> Prop.
Hypothesis R_refl : forall r, R r r.
Hypothesis R_trans : forall a b c, R a b -> R b c -> R a c.

Lemma keepsRows_fun {A} (c : M A) :
  (forall w, tbl_file (snd (c w)) = tbl_file w) -> keepsRows R c.
Proof. intros Hc w. rewrite Hc. apply Forall2_pointwise_same. exact R_refl. Qed.

Lemma keepsRows_bind {A B} (c : M A) (k : A -> M B) :
  keepsRows R c -> (forall a, keepsRows R (k a)) -> keepsRows R (bind c k).
Proof.
  intros Hc Hk w. unfold bind. specialize (Hc w).
  destruct (c w) as [a w1]. cbn in Hc.
  eapply Forall2_trans; [exact R_trans|exact Hc|apply Hk].
Qed.

Lemma keepsRows_forEach {A} (body : A -> M unit) l :
  (forall x, keepsRows R (body x)) -> keepsRows R (forEach body l).
Proof.
  intros Hb. induction l as [|x l IH].
  - apply keepsRows_fun. reflexivity.
  - cbn. apply keepsRows_bind; [apply Hb|intros _; exact IH].
Qed.

Lemma keepsRows_attempt_update plan s fileID (f : File -> File) :
  (forall r, has_id fileID r = true -> R r (f r)) ->
  keepsRows R (attempt plan s (update_file (has_id fileID) f)).
Proof.
  intros Hf w. unfold attempt. destruct (plan s); cbn.
  - apply Forall2_pointwise_same. exact R_refl.
  - apply Forall2_map_pointwise. intros r _.
    destruct (has_id fileID r) eqn:E; [apply Hf; exact E|apply R_refl].
Qed.

End KeepsRows.

Lemma sameJob_refl newID r : sameJob newID r r.
Proof. unfold sameJob. repeat split; auto. Qed.

Lemma sameJob_trans newID a b c :
  sameJob newID a b -> sameJob newID b c -> sameJob newID a c.
Proof.
  unfold sameJob, has_id.
  intros (I1 & U1 & O1 & S1 & Rs1 & N1 & Rc1 & J1 & T1 & H1 & X1)
         (I2 & U2 & O2 & S2 & Rs2 & N2 & Rc2 & J2 & T2 & H2 & X2).
  repeat split; try congruence.
  intros E. rewrite X2 by (rewrite I1; exact E). apply X1. exact E.
Qed.

Lemma keepsRows_reuse plan vectorOn ctx :
  keepsRows (sameJob (Ctx_FileID ctx))
            (reuseAnalysisAndVectorForDuplicate plan vectorOn ctx).
Proof.
  pose proof (sameJob_refl (Ctx_FileID ctx)) as Hr.
  pose proof (sameJob_trans (Ctx_FileID ctx)) as Ht.
  unfold reuseAnalysisAndVectorForDuplicate, reuseAIInfo, reuseTagRelations,
    reuseCategory.
  repeat first
    [ apply keepsRows_attempt_update;
      [exact Hr|intros r E; unfold sameJob; cbn; rewrite E;
                repeat split; auto; discriminate]
    | apply keepsRows_forEach; [exact Hr|exact Ht|intros ?]
    | apply keepsRows_bind; [exact Ht| |intros ?]
    | match goal with
      | |- keepsRows _ (match ?x with _ => _ end) => destruct x
      | |- keepsRows _ (if ?x then _ else _) => destruct x
      end
    | apply keepsRows_fun; [exact Hr|];
      first [ apply preserves_ret | apply preserves_lookup
            | apply preserves_attempt; intros; reflexivity ] ].
Qed.

(** X23. Whatever the store does, the reuse at upload time returns nil and
    leaves the job state alone: in every row the job status, the tries
    counter, the heartbeat, the file status and the flags stay, rows of
    other files stay entirely, and neither the global tags, the tagging log
    nor the trace are written. Only the description and the category of the
    new file can change. *)
Theorem reuseAnalysisAndVectorForDuplicate_keeps_job_state
        (plan : ReuseStmt -> option error) (vectorOn : bool)
        (ctx : UploadContext) (w : World) :
  let res := reuseAnalysisAndVectorForDuplicate plan vectorOn ctx w in
  fst (fst res) = None /\
  Forall2 (fun r r' =>
             ID r' = ID r /\ UserID r' = UserID r /\
             OriginalFileID r' = OriginalFileID r /\ Status r' = Status r /\
             Resolution r' = Resolution r /\ NSFW r' = NSFW r /\
             IsRecommended r' = IsRecommended r /\
             AITaggingStatus_ r' = AITaggingStatus_ r /\
             AITaggingTries r' = AITaggingTries r /\
             AILastHeartbeatAt r' = AILastHeartbeatAt r /\
             (has_id (Ctx_FileID ctx) r = false -> r' = r))
          (tbl_file w) (tbl_file (snd res)) /\
  tbl_global_tag (snd res) = tbl_global_tag w /\
  tbl_file_tagging_log (snd res) = tbl_file_tagging_log w /\
  trace (snd res) = trace w.
Proof.
  intros res. split; [|split; [exact (keepsRows_reuse plan vectorOn ctx w)|]].
  - unfold res, reuseAnalysisAndVectorForDuplicate.
    rewrite !bind_snd. reflexivity.
  - unfold res. repeat split;
      match goal with
      | |- ?proj (snd (?c w)) = _ =>
          assert (Hp : preserves proj c);
          [unfold reuseAnalysisAndVectorForDuplicate, reuseAIInfo,
             reuseTagRelations, reuseCategory; frame_reuse|apply Hp]
      end.
Qed.

Lemma reuseAIInfo_ai_info ctx w :
  tbl_file_ai_info (snd (reuseAIInfo noReuseFaults ctx w)) =
  match find (same_file (Ctx_OriginalFileID ctx)) (tbl_file_ai_info w) with
  | Some origAI =>
      create_ai_info (cloneFor (Ctx_FileID ctx) origAI)
                     (delete_ai_info (Ctx_FileID ctx) (tbl_file_ai_info w))
  | None => tbl_file_ai_info w
  end.
Proof.
  unfold reuseAIInfo, bind, lookup, attempt. cbn.
  destruct (find (same_file (Ctx_OriginalFileID ctx)) (tbl_file_ai_info w))
    as [origAI|]; [|reflexivity].
  cbn. destruct (negb _); reflexivity.
Qed.

Lemma reuse_ai_info vectorOn ctx w :
  tbl_file_ai_info
    (snd (reuseAnalysisAndVectorForDuplicate noReuseFaults vectorOn ctx w)) =
  match find (same_file (Ctx_OriginalFileID ctx)) (tbl_file_ai_info w) with
  | Some origAI =>
      create_ai_info (cloneFor (Ctx_FileID ctx) origAI)
                     (delete_ai_info (Ctx_FileID ctx) (tbl_file_ai_info w))
  | None => tbl_file_ai_info w
  end.
Proof.
  rewrite reuse_snd.
  assert (H3 : preserves tbl_file_ai_info (reuseCategory noReuseFaults ctx))
    by (unfold reuseCategory; frame_reuse).
  assert (H2 : preserves tbl_file_ai_info (reuseTagRelations noReuseFaults ctx))
    by (unfold reuseTagRelations; frame_reuse).
  rewrite H3, H2. apply reuseAIInfo_ai_info.
Qed.

Lemma filter_same_deleted newID t :
  filter (same_file newID) (delete_ai_info newID t) = [].
Proof.
  unfold delete_ai_info. induction t as [|r t IH]; [reflexivity|]. cbn.
  destruct (same_file newID r) eqn:E; cbn; rewrite ?E; exact IH.
Qed.

Lemma filter_other_deleted i newID t :
  i <> newID ->
  filter (same_file i) (delete_ai_info newID t) = filter (same_file i) t.
Proof.
  intros Hi. unfold delete_ai_info. induction t as [|r t IH]; [reflexivity|].
  cbn. destruct (same_file newID r) eqn:E; cbn.
  - destruct (same_file i r) eqn:Ei; [|exact IH].
    exfalso. apply Hi. apply same_file_eq in E. apply same_file_eq in Ei.
    congruence.
  - destruct (same_file i r); now rewrite IH.
Qed.

Lemma same_file_cloneFor i d o : same_file i (cloneFor d o) = String.eqb d i.
Proof. reflexivity. Qed.

(** X20. When the original carries AI information, a reuse the store carries
    out leaves the new file with exactly one row of AI information, the
    clone of the original's, whatever rows it had before; the AI information
    of every other file keeps its rows. *)
Theorem reuseAnalysisAndVectorForDuplicate_replaces_ai_info
        (vectorOn : bool) (ctx : UploadContext) (origAI : FileAIInfo)
        (w : World) :
  find (same_file (Ctx_OriginalFileID ctx)) (tbl_file_ai_info w) = Some origAI ->
  let w' := snd (reuseAnalysisAndVectorForDuplicate noReuseFaults vectorOn
                   ctx w) in
  (exists k, filter (same_file (Ctx_FileID ctx)) (tbl_file_ai_info w') =
             [set_AI_ID k (cloneFor (Ctx_FileID ctx) origAI)]) /\
  (forall i, i <> Ctx_FileID ctx ->
             filter (same_file i) (tbl_file_ai_info w') =
             filter (same_file i) (tbl_file_ai_info w)).
Proof.
  intros Hfind w'. unfold w'. rewrite reuse_ai_info, Hfind.
  unfold create_ai_info. split.
  - eexists. rewrite filter_app, filter_same_deleted. cbn [app filter].
    rewrite same_file_set_AI_ID, same_file_cloneFor, String.eqb_refl.
    reflexivity.
  - intros i Hi. rewrite filter_app, filter_other_deleted by exact Hi.
    cbn [app filter]. rewrite same_file_set_AI_ID, same_file_cloneFor.
    destruct (String.eqb (Ctx_FileID ctx) i) eqn:E.
    + apply String.eqb_eq in E. congruence.
    + apply app_nil_r.
Qed.

Lemma reuseAnalysisAndVectorForDuplicate_replaces_ai_info_witness :
  let ctx := mkUploadContext "n" "a" in
  let origAI := mkFileAIInfo 1 "a" "a photo" ["cat"] "" false (1 # 10)%Q "" 0 in
  let w' := snd (reuseAnalysisAndVectorForDuplicate noReuseFaults false ctx
                   reuseWorld) in
  find (same_file (Ctx_OriginalFileID ctx)) (tbl_file_ai_info reuseWorld) =
    Some origAI /\
  (exists k, filter (same_file (Ctx_FileID ctx)) (tbl_file_ai_info w') =
             [set_AI_ID k (cloneFor (Ctx_FileID ctx) origAI)]) /\
  (forall i, i <> Ctx_FileID ctx ->
             filter (same_file i) (tbl_file_ai_info w') =
             filter (same_file i) (tbl_file_ai_info reuseWorld)).
Proof.
  intros ctx origAI w'. split; [reflexivity|].
  exact (reuseAnalysisAndVectorForDuplicate_replaces_ai_info
           false ctx origAI reuseWorld eq_refl).
Defined.

(** X21. The reuse at upload time copies the tags without looking at the new
    file: a run the store carries out appends one relation for each relation
    of the original, also when the new file has tags already. It is
    therefore not repeatable: for a new file other than the original, a
    second run leaves the copies twice. *)
Theorem reuseAnalysisAndVectorForDuplicate_appends_tags
        (vectorOn : bool) (ctx : UploadContext) (w : World) :
  let newID := Ctx_FileID ctx in
  let origID := Ctx_OriginalFileID ctx in
  let once := snd (reuseAnalysisAndVectorForDuplicate noReuseFaults vectorOn
                     ctx w) in
  let twice := snd (reuseAnalysisAndVectorForDuplicate noReuseFaults vectorOn
                      ctx once) in
  let copies := map (retarget newID)
                    (relations_of origID (tbl_file_global_tag_relation w)) in
  tbl_file_global_tag_relation once =
    (tbl_file_global_tag_relation w ++ copies)%list /\
  (newID <> origID ->
   relations_of newID (tbl_file_global_tag_relation once) =
     (relations_of newID (tbl_file_global_tag_relation w) ++ copies)%list /\
   relations_of newID (tbl_file_global_tag_relation twice) =
     (relations_of newID (tbl_file_global_tag_relation w)
      ++ copies ++ copies)%list).
Proof.
  intros newID origID once twice copies.
  assert (H1 : tbl_file_global_tag_relation once =
               (tbl_file_global_tag_relation w ++ copies)%list)
    by apply reuse_relation.
  split; [exact H1|]. intros Hne.
  assert (Hc : relations_of newID copies = copies).
  { unfold copies. rewrite relations_of_retarget. now rewrite String.eqb_refl. }
  assert (Ho : relations_of origID copies = []).
  { unfold copies. rewrite relations_of_retarget.
    destruct (String.eqb newID origID) eqn:E; [|reflexivity].
    apply String.eqb_eq in E. contradiction. }
  split.
  - rewrite H1, relations_of_app, Hc. reflexivity.
  - unfold twice. rewrite reuse_relation. fold newID origID.
    rewrite H1, !relations_of_app, Ho, app_nil_r, Hc.
    fold copies. rewrite Hc, <- app_assoc. reflexivity.
Qed.

Lemma reuse_relations_of vectorOn ctx w :
  Ctx_FileID ctx <> Ctx_OriginalFileID ctx ->
  let reused := snd (reuseAnalysisAndVectorForDuplicate noReuseFaults vectorOn
                       ctx w) in
  relations_of (Ctx_FileID ctx) (tbl_file_global_tag_relation reused) =
    (relations_of (Ctx_FileID ctx) (tbl_file_global_tag_relation w)
     ++ map (retarget (Ctx_FileID ctx))
            (relations_of (Ctx_OriginalFileID ctx)
                          (tbl_file_global_tag_relation w)))%list /\
  relations_of (Ctx_OriginalFileID ctx) (tbl_file_global_tag_relation reused) =
    relations_of (Ctx_OriginalFileID ctx) (tbl_file_global_tag_relation w).
Proof.
  intros Hne reused. unfold reused. rewrite reuse_relation.
  rewrite !relations_of_app, !relations_of_retarget, String.eqb_refl.
  destruct (String.eqb (Ctx_FileID ctx) (Ctx_OriginalFileID ctx)) eqn:E.
  - apply String.eqb_eq in E. contradiction.
  - now rewrite app_nil_r.
Qed.

(** X22. The two copy paths do not double the tags when they run in their
    usual order. After a reuse at upload time that the store carried out,
    a fault-free [propagateAIToDuplicates] for the same original adds no tag
    relation to the new file: it finds the copies there, or finds that the
    original has no tag to copy. *)
Theorem propagateAIToDuplicates_after_reuse_adds_no_tags
        (vectorOn : bool) (ctx : UploadContext) (w : World) :
  no_faults w ->
  db_conn w = true ->
  Ctx_FileID ctx <> Ctx_OriginalFileID ctx ->
  let newID := Ctx_FileID ctx in
  let origID := Ctx_OriginalFileID ctx in
  let reused := snd (reuseAnalysisAndVectorForDuplicate noReuseFaults vectorOn
                       ctx w) in
  let propagated := snd (propagateAIToDuplicates origID reused) in
  relations_of newID (tbl_file_global_tag_relation propagated) =
  relations_of newID (tbl_file_global_tag_relation reused).
Proof.
  intros Hnf Hc Hne newID origID reused propagated.
  assert (Hplan : db_fault reused = db_fault w /\ db_conn reused = db_conn w).
  { unfold reused. split;
      match goal with
      | |- ?proj (snd (?c w)) = _ =>
          assert (Hp : preserves proj c);
          [unfold reuseAnalysisAndVectorForDuplicate, reuseAIInfo,
             reuseTagRelations, reuseCategory; frame_reuse|apply Hp]
      end. }
  destruct Hplan as [Hplan Hconn].
  assert (Hnf' : no_faults reused) by (intros s; rewrite Hplan; apply Hnf).
  destruct (find (has_id origID) (tbl_file reused)) as [orig|] eqn:Hfind.
  - unfold propagated.
    rewrite (propagateAIToDuplicates_run origID orig reused Hnf')
      by congruence.
    cbn [snd]. rewrite fold_step_relation, relations_of_fold_copyTags.
    destruct (existsb (String.eqb newID) (duplicateIDs origID reused)
              && isnil (relations_of newID
                          (tbl_file_global_tag_relation reused))) eqn:E;
      [|reflexivity].
    apply andb_true_iff in E. destruct E as [_ E].
    destruct (reuse_relations_of
                vectorOn ctx w Hne) as [H1 Ho].
    fold newID origID reused in H1, Ho.
    rewrite H1 in E |- *. rewrite Ho.
    destruct (relations_of newID (tbl_file_global_tag_relation w)
              ++ map (retarget newID)
                     (relations_of origID (tbl_file_global_tag_relation w)))%list
      eqn:El; [|discriminate].
    apply app_eq_nil in El. destruct El as [_ El].
    apply map_eq_nil in El. rewrite El. reflexivity.
  - unfold propagated. rewrite propagateAIToDuplicates_noop; [reflexivity|].
    right. right. left.
    destruct (existsb (has_id origID) (tbl_file reused)) eqn:Ex; [|reflexivity].
    apply find_some_existsb in Ex. destruct Ex as [x Ex]. congruence.
Qed.

Lemma propagateAIToDuplicates_after_reuse_adds_no_tags_witness :
  let ctx := mkUploadContext "n" "a" in
  let reused := snd (reuseAnalysisAndVectorForDuplicate noReuseFaults false
                       ctx reuseWorld) in
  let propagated := snd (propagateAIToDuplicates "a" reused) in
  no_faults reuseWorld /\
  db_conn reuseWorld = true /\
  Ctx_FileID ctx <> Ctx_OriginalFileID ctx /\
  relations_of "n" (tbl_file_global_tag_relation propagated) =
  relations_of "n" (tbl_file_global_tag_relation reused).
Proof.
  intros ctx reused propagated. split; [intros s; reflexivity|].
  split; [reflexivity|]. split; [discriminate|].
  exact (propagateAIToDuplicates_after_reuse_adds_no_tags
           false ctx reuseWorld (fun s => eq_refl) eq_refl
           ltac:(discriminate)).
Defined.

(** ** isDeadlockError *)

Lemma prefix_spec (a s : string) :
  String.prefix a s = true <-> exists post, s = (a ++ post)%string.
Proof.
  revert s. induction a as [|c a IH]; intros s; cbn.
  - split; [intros _; exists s; reflexivity|intros _; destruct s; reflexivity].
  - destruct s as [|d s]; [split; [discriminate|intros [p Hp]; discriminate]|].
    cbn [String.prefix].
    destruct (Ascii.ascii_dec c d) as [Ecd|Hcd].
    + rewrite IH. subst d.
      split; intros [p Hp]; exists p; [now rewrite Hp|congruence].
    + split; [discriminate|]. intros [p Hp]. congruence.
Qed.

Lemma Contains_eq (s sub : string) :
  Contains s sub =
  if String.prefix sub s then true
  else match s with
       | EmptyString => false
       | String _ s' => Contains s' sub
       end.
Proof. destruct s; reflexivity. Qed.

Lemma Contains_spec (s sub : string) :
  Contains s sub = true <->
  exists pre post, s = (pre ++ sub ++ post)%string.
Proof.
  induction s as [|c s IH]; rewrite Contains_eq.
  - destruct (String.prefix sub "") eqn:E.
    + apply prefix_spec in E. destruct E as [p Hp].
      split; [intros _; exists "", p; exact Hp|intros _; reflexivity].
    + split; [discriminate|]. intros (pre & post & Hs).
      destruct pre; [|discriminate]. cbn in Hs.
      assert (String.prefix sub "" = true) by (apply prefix_spec; eauto).
      congruence.
  - destruct (String.prefix sub (String c s)) eqn:E.
    + apply prefix_spec in E. destruct E as [p Hp].
      split; [intros _; exists "", p; exact Hp|intros _; reflexivity].
    + rewrite IH. split.
      * intros (pre & post & Hs). exists (String c pre), post. cbn.
        now rewrite Hs.
      * intros (pre & post & Hs). destruct pre as [|d pre].
        -- cbn in Hs.
           assert (String.prefix sub (String c s) = true)
             by (apply prefix_spec; eauto).
           congruence.
        -- cbn in Hs. exists pre, post. congruence.
Qed.

Lemma ToLower_app (a b : string) :
  ToLower (a ++ b) = (ToLower a ++ ToLower b)%string.
Proof. induction a as [|c a IH]; cbn; [reflexivity|now rewrite IH]. Qed.

Lemma ToLower_split (e a b : string) :
  ToLower e = (a ++ b)%string ->
  exists a' b', e = (a' ++ b')%string /\ ToLower a' = a /\ ToLower b' = b.
Proof.
  revert e. induction a as [|c a IH]; intros e He.
  - exists "", e. auto.
  - destruct e as [|d e]; [discriminate|]. cbn in He.
    injection He as Hc He. destruct (IH e He) as (a' & b' & -> & Ha & Hb).
    exists (String d a'), b'. cbn. now rewrite Hc, Ha.
Qed.

(** X24. On a message of ASCII bytes [isDeadlockError] is a substring
    search that ignores the case of letters: the error counts as a deadlock
    exactly when its message holds, somewhere, a piece that reads
    [deadlock found] or [error 1213] once its letters are lowered. No error
    ([nil]) is not a deadlock. *)
Theorem isDeadlockError_spec (e : error) :
  isASCII e = true ->
  isDeadlockError None = false /\
  (isDeadlockError (Some e) = true <->
   exists pre mid post,
     e = (pre ++ mid ++ post)%string /\
     (ToLower mid = "deadlock found" \/ ToLower mid = "error 1213")).
Proof.
  intros _. split; [reflexivity|]. unfold isDeadlockError.
  rewrite orb_true_iff, !Contains_spec. split.
  - intros [(pre & post & Hs)|(pre & post & Hs)];
      apply ToLower_split in Hs; destruct Hs as (pre' & rest & -> & Hp & Hr);
      apply ToLower_split in Hr; destruct Hr as (mid & post' & -> & Hm & Hq);
      exists pre', mid, post'; auto.
  - intros (pre & mid & post & -> & [Hm|Hm]); [left|right];
      exists (ToLower pre), (ToLower post);
      now rewrite !ToLower_app, Hm.
Qed.

Lemma isDeadlockError_spec_witness :
  let e := "Error 1213: Deadlock found when trying to get lock" in
  isASCII e = true /\
  isDeadlockError (Some e) = true /\
  exists pre mid post,
    e = (pre ++ mid ++ post)%string /\
    (ToLower mid = "deadlock found" \/ ToLower mid = "error 1213").
Proof.
  intros e. split; [reflexivity|]. split; [reflexivity|].
  exact (proj1 (proj2 (isDeadlockError_spec e eq_refl)) eq_refl).
Defined.

(** ** The template service *)

Section Templates.
Variable table : Z -> option string.

Lemma getDB_cases (c : Catalog) :
  (exists err, getDB table c = (Some err, c) /\ service_db c = false /\
               database_DB c = false) \/
  (exists c1, getDB table c = (None, c1) /\
              tbl_category_template c1 = tbl_category_template c /\
              next_template_id c1 = next_template_id c /\
              tbl_file_category c1 = tbl_file_category c /\
              catalog_fault c1 = catalog_fault c /\
              service_db c1 = true /\
              getDB table c1 = (None, c1)).
Proof.
  unfold getDB. destruct c as [s d f t n fc]. cbn.
  destruct s; cbn.
  - right. eexists. repeat split; reflexivity.
  - destruct d; cbn.
    + right. eexists. repeat split; reflexivity.
    + left. eexists. repeat split; reflexivity.
Qed.

Lemma getDB_ready (c : Catalog) :
  service_db c = true -> getDB table c = (None, c).
Proof. intros Hs. unfold getDB. rewrite Hs. cbn. now rewrite Hs. Qed.

Lemma max_sort_order_bound rows r :
  In r rows -> T_SortOrder r <= max_sort_order rows.
Proof.
  assert (Hfold : forall l a x, (x <= a \/ In x l) -> x <= fold_left Z.max l a).
  { induction l as [|y l IH]; intros a x [H|H]; cbn.
    - exact H.
    - destruct H.
    - apply IH. left. lia.
    - destruct H as [->|H]; apply IH; [left; lia|right; exact H]. }
  destruct rows as [|t rows]; [intros []|]. intros [->|Hin]; cbn.
  - apply Hfold. left. lia.
  - apply Hfold. right. now apply in_map.
Qed.

Lemma find_has_template_id_last id rows t :
  Forall (fun r => T_ID r < id) rows -> T_ID t = id ->
  find (has_template_id id) (rows ++ [t]) = Some t.
Proof.
  intros Hall Ht. induction Hall as [|r rows Hr _ IH]; cbn.
  - unfold has_template_id. rewrite Ht, Z.eqb_refl. reflexivity.
  - unfold has_template_id at 1. destruct (Z.eqb_spec (T_ID r) id); [lia|].
    exact IH.
Qed.

Lemma wrap_int_in_range z : MinInt <= z <= MaxInt -> wrap_int z = z.
Proof.
  unfold wrap_int, MinInt, MaxInt.
  assert (E63 : 2 ^ 63 = 9223372036854775808) by reflexivity.
  assert (E64 : 2 ^ 64 = 18446744073709551616) by reflexivity.
  rewrite E63, E64. intros Hz. rewrite Z.mod_small; lia.
Qed.

Lemma wrap_int_past_MaxInt : wrap_int (MaxInt + 1) = MinInt.
Proof. reflexivity. Qed.

Lemma max_sort_order_is_int rows :
  Forall (fun r => MinInt <= T_SortOrder r <= MaxInt) rows ->
  MinInt <= max_sort_order rows.
Proof.
  destruct rows as [|r rows]; [intros _; cbn; discriminate|].
  intros Hall. apply Forall_inv in Hall.
  generalize (max_sort_order_bound (r :: rows) r (or_introl eq_refl)). lia.
Qed.

(** X25. A template that [CreateTemplate] has created can be read back:
    in a well-formed store, when a creation succeeds the new row is appended
    under a fresh key with the name of the request and no usage, and
    [GetTemplate] on its key returns it. A sort order of the request other
    than zero is kept. One left at zero becomes the largest sort order in
    use plus one, which puts the new template after every existing one,
    unless that largest one is the largest [int]: then the sum wraps around
    and the new template gets the smallest [int]. *)
Theorem CreateTemplate_then_GetTemplate
        (req : CreateTemplateRequest) (c c' : Catalog) (t : CategoryTemplate) :
  catalog_wf c ->
  catalog_fault c TFirst = None ->
  CreateTemplate table req c = (inr t, c') ->
  GetTemplate table (T_ID t) c' = (inr t, c') /\
  tbl_category_template c' = (tbl_category_template c ++ [t])%list /\
  ~ In (T_ID t) (map T_ID (tbl_category_template c)) /\
  T_Name t = Req_Name req /\
  T_UsageCount t = 0 /\
  (Req_SortOrder req <> 0 -> T_SortOrder t = Req_SortOrder req) /\
  (Req_SortOrder req = 0 -> catalog_fault c TScanMaxOrder = None ->
   Forall (fun r => MinInt <= T_SortOrder r <= MaxInt)
          (tbl_category_template c) ->
   let maxOrder := max_sort_order (tbl_category_template c) in
   (maxOrder < MaxInt ->
    T_SortOrder t = maxOrder + 1 /\
    forall r, In r (tbl_category_template c) ->
              T_SortOrder r < T_SortOrder t) /\
   (maxOrder = MaxInt -> T_SortOrder t = MinInt)).
Proof.
  intros (Hids & Hnames & Hlt) Hf Hcreate.
  unfold CreateTemplate in Hcreate.
  destruct (getDB_cases c) as [(err & Hg & _)|(c1 & Hg & Ht & Hn & Hfc & Hfl & Hs & Hg1)];
    rewrite Hg in Hcreate; [discriminate|].
  unfold First in Hcreate. rewrite Hfl, Ht, Hn in Hcreate.
  destruct (catalog_fault c TFirstByName); [discriminate|].
  destruct (find (has_name (Req_Name req)) (tbl_category_template c));
    [discriminate|].
  destruct (catalog_fault c TCreate); [discriminate|].
  injection Hcreate as <- <-.
  split.
  - unfold GetTemplate. rewrite getDB_ready by (cbn; exact Hs).
    unfold First. cbn. rewrite Hfl, Hf.
    rewrite find_has_template_id_last; [reflexivity|exact Hlt|reflexivity].
  - cbn [tbl_category_template with_next_template_id with_templates
         T_ID T_Name T_UsageCount T_SortOrder].
    split; [reflexivity|]. split.
    { intros Hin. apply in_map_iff in Hin. destruct Hin as (r & Hr & Hin).
      rewrite Forall_forall in Hlt. specialize (Hlt r Hin). lia. }
    split; [reflexivity|]. split; [reflexivity|]. split.
    { intros Hne. destruct (Z.eqb_spec (Req_SortOrder req) 0); [contradiction|].
      reflexivity. }
    intros Hz Hscan Hint. cbv zeta. rewrite Hz, Hscan. cbn [Z.eqb].
    generalize (max_sort_order_is_int _ Hint).
    generalize (max_sort_order_bound (tbl_category_template c)).
    generalize (max_sort_order (tbl_category_template c)).
    intros maxOrder Hbound Hlow. split.
    + intros Hmax. rewrite wrap_int_in_range by lia.
      split; [reflexivity|]. intros r Hin.
      specialize (Hbound r Hin). lia.
    + intros Hmax. rewrite Hmax. exact wrap_int_past_MaxInt.
Qed.

End Templates.

Lemma sampleCatalog_wf : catalog_wf sampleCatalog.
Proof.
  unfold catalog_wf, sampleCatalog. cbn. repeat split.
  - repeat constructor; cbn; intuition discriminate.
  - repeat constructor; cbn; intuition discriminate.
  - repeat constructor; reflexivity.
Qed.

Lemma CreateTemplate_then_GetTemplate_witness :
  let req := mkCreateTemplateRequest "Travel" "" "" false 0 in
  let t := mkCategoryTemplate 3 "Travel" "" "" false 3 0 in
  let c' := with_next_template_id 4
              (with_templates (tbl_category_template sampleCatalog ++ [t])
                              sampleCatalog) in
  catalog_wf sampleCatalog /\
  catalog_fault sampleCatalog TFirst = None /\
  CreateTemplate noMessages req sampleCatalog = (inr t, c') /\
  GetTemplate noMessages (T_ID t) c' = (inr t, c') /\
  T_SortOrder t = max_sort_order (tbl_category_template sampleCatalog) + 1 /\
  forall r, In r (tbl_category_template sampleCatalog) ->
            T_SortOrder r < T_SortOrder t.
Proof.
  intros req t c'. split; [exact sampleCatalog_wf|].
  split; [reflexivity|]. split; [vm_compute; reflexivity|].
  destruct (CreateTemplate_then_GetTemplate noMessages req sampleCatalog
              c' t sampleCatalog_wf eq_refl ltac:(vm_compute; reflexivity))
    as (Hget & _ & _ & _ & _ & _ & Hsort).
  split; [exact Hget|].
  assert (Hint : Forall (fun r => MinInt <= T_SortOrder r <= MaxInt)
                        (tbl_category_template sampleCatalog)).
  { repeat constructor; vm_compute; discriminate. }
  assert (Hmax : max_sort_order (tbl_category_template sampleCatalog) < MaxInt)
    by reflexivity.
  exact (proj1 (Hsort eq_refl eq_refl Hint) Hmax).
Defined.

Section TemplateDeletion.
Variable table : Z -> option string.

Lemma find_has_template_id_deleted id rows :
  find (has_template_id id)
       (filter (fun t => negb (has_template_id id t)) rows) = None.
Proof.
  induction rows as [|r rows IH]; [reflexivity|]. cbn.
  destruct (has_template_id id r) eqn:E; cbn; rewrite ?E; exact IH.
Qed.

Lemma find_has_template_id_eq id rows t :
  find (has_template_id id) rows = Some t -> T_ID t = id.
Proof.
  intros H. apply find_some in H. destruct H as [_ H].
  unfold has_template_id in H. now apply Z.eqb_eq in H.
Qed.

(** X26. [DeleteTemplate] refuses a template that user categories refer to,
    and deletes nothing unless it returns nil: with the template found and
    the count read, a template in use gives an error of code [CodeConflict];
    every call that returns an error leaves the templates as they were; a
    call that returns nil has removed the rows of that key and no other, the
    template was not in use, and [GetTemplate] then answers with
    [CodeNotFound]. *)
Theorem DeleteTemplate_outcomes (id : Z) (c : Catalog) :
  let res := DeleteTemplate table id c in
  (fst res <> None ->
   tbl_category_template (snd res) = tbl_category_template c) /\
  (forall t,
      find (has_template_id id) (tbl_category_template c) = Some t ->
      service_db c || database_DB c = true ->
      catalog_fault c TFirst = None ->
      catalog_fault c TCountCategories = None ->
      existsb (uses_template id) (tbl_file_category c) = true ->
      exists e, fst res = Some e /\ Code e = CodeConflict) /\
  (fst res = None ->
   tbl_category_template (snd res) =
     filter (fun t => negb (has_template_id id t)) (tbl_category_template c) /\
   existsb (uses_template id) (tbl_file_category c) = false /\
   exists e, GetTemplate table id (snd res) = (inl e, snd res) /\
             Code e = CodeNotFound).
Proof.
  intros res. unfold res, DeleteTemplate.
  destruct (getDB_cases table c)
    as [(err & Hg & Hs & Hd)|(c1 & Hg & Ht & Hn & Hfc & Hfl & Hs & Hg1)];
    rewrite Hg.
  { cbn. split; [reflexivity|]. split; [|discriminate].
    intros t _ Hdb. rewrite Hs, Hd in Hdb. discriminate. }
  unfold First. rewrite Hfl, Ht, Hfc.
  destruct (catalog_fault c TFirst) as [e|] eqn:Hf.
  { cbn. split; [auto|]. split; [|discriminate]. intros; discriminate. }
  destruct (find (has_template_id id) (tbl_category_template c)) as [t0|] eqn:Hfind.
  2:{ cbn. split; [auto|]. split; [|discriminate]. intros; discriminate. }
  destruct (catalog_fault c TCountCategories) as [e|] eqn:Hcount.
  { cbn. split; [auto|]. split; [|discriminate]. intros; discriminate. }
  rewrite count_positive_existsb.
  destruct (existsb (uses_template id) (tbl_file_category c)) eqn:Huse.
  { cbn. split; [auto|]. split; [|discriminate].
    intros _ _ _ _ _ _. eexists. split; reflexivity. }
  destruct (catalog_fault c TDelete) as [e|] eqn:Hdel.
  { cbn. split; [auto|]. split; [|discriminate]. intros; discriminate. }
  cbn. rewrite (find_has_template_id_eq _ _ _ Hfind), ?Ht.
  split; [intros E; now contradiction E|]. split; [intros; discriminate|].
  intros _. split; [reflexivity|]. split; [reflexivity|].
  unfold GetTemplate. rewrite getDB_ready by (cbn; exact Hs).
  unfold First. cbn. rewrite Hfl, Hf, find_has_template_id_deleted.
  eexists. split; reflexivity.
Qed.

End TemplateDeletion.

Section TemplateUpdate.
Variable table : Z -> option string.

Lemma find_map_template id (g : CategoryTemplate -> CategoryTemplate) rows :
  (forall t, T_ID (g t) = T_ID t) ->
  find (has_template_id id)
       (map (fun t => if has_template_id id t then g t else t) rows) =
  option_map g (find (has_template_id id) rows).
Proof.
  intros Hg. induction rows as [|r rows IH]; [reflexivity|]. cbn.
  destruct (has_template_id id r) eqn:E.
  - unfold has_template_id in *. now rewrite Hg, E.
  - now rewrite E.
Qed.

Lemma templateUpdates_nothing req t :
  hasUpdates req = false -> templateUpdates req t = t.
Proof.
  unfold hasUpdates, templateUpdates. intros H.
  repeat (apply orb_false_iff in H; destruct H as [H ?]).
  destruct (Upd_IsPopular req); [discriminate|].
  destruct (Upd_SortOrder req); [discriminate|].
  destruct t; cbn.
  repeat match goal with
         | E : negb _ = false |- _ => rewrite E; clear E
         end.
  reflexivity.
Qed.

(** X27. What a successful [UpdateTemplate] returns. The template it read
    under that key, with each field of the request written over it when the
    request gives it, and kept when the request leaves it empty (an empty
    name, description or icon, no popularity, no sort order): a text field
    cannot be emptied this way. The key and the usage count stay, the rows
    of other keys stay, and the stored row is the returned one. *)
Theorem UpdateTemplate_keeps_empty_fields
        (id : Z) (req : UpdateTemplateRequest) (c c' : Catalog)
        (t : CategoryTemplate) :
  UpdateTemplate table id req c = (inr t, c') ->
  exists old,
    find (has_template_id id) (tbl_category_template c) = Some old /\
    T_ID t = id /\
    T_UsageCount t = T_UsageCount old /\
    T_Name t = (if String.eqb (Upd_Name req) "" then T_Name old
                else Upd_Name req) /\
    T_Description t = (if String.eqb (Upd_Description req) ""
                       then T_Description old else Upd_Description req) /\
    T_Icon t = (if String.eqb (Upd_Icon req) "" then T_Icon old
                else Upd_Icon req) /\
    T_IsPopular t = (match Upd_IsPopular req with
                     | Some b => b
                     | None => T_IsPopular old
                     end) /\
    T_SortOrder t = (match Upd_SortOrder req with
                     | Some n => n
                     | None => T_SortOrder old
                     end) /\
    find (has_template_id id) (tbl_category_template c') = Some t /\
    Forall2 (fun r r' => has_template_id id r = false -> r' = r)
            (tbl_category_template c) (tbl_category_template c').
Proof.
  intros Hupd. unfold UpdateTemplate in Hupd.
  destruct (getDB_cases table c)
    as [(err & Hg & _)|(c1 & Hg & Ht & Hn & Hfc & Hfl & Hs & Hg1)];
    rewrite Hg in Hupd; [discriminate|].
  unfold First in Hupd. rewrite Hfl, Ht in Hupd.
  destruct (catalog_fault c TFirst); [discriminate|].
  destruct (find (has_template_id id) (tbl_category_template c))
    as [old|] eqn:Hfind; [|discriminate].
  assert (Hid : T_ID old = id) by exact (find_has_template_id_eq _ _ _ Hfind).
  match type of Hupd with
  | match ?nc with _ => _ end = _ => destruct nc; [discriminate|]
  end.
  assert (Hfields :
            T_ID (templateUpdates req old) = id /\
            T_UsageCount (templateUpdates req old) = T_UsageCount old /\
            T_Name (templateUpdates req old) =
              (if String.eqb (Upd_Name req) "" then T_Name old
               else Upd_Name req) /\
            T_Description (templateUpdates req old) =
              (if String.eqb (Upd_Description req) ""
               then T_Description old else Upd_Description req) /\
            T_Icon (templateUpdates req old) =
              (if String.eqb (Upd_Icon req) "" then T_Icon old
               else Upd_Icon req) /\
            T_IsPopular (templateUpdates req old) =
              (match Upd_IsPopular req with
               | Some b => b
               | None => T_IsPopular old
               end) /\
            T_SortOrder (templateUpdates req old) =
              (match Upd_SortOrder req with
               | Some n => n
               | None => T_SortOrder old
               end)).
  { unfold templateUpdates. cbn.
    destruct (String.eqb (Upd_Name req) ""),
      (String.eqb (Upd_Description req) ""), (String.eqb (Upd_Icon req) "");
      cbn; repeat split; auto. }
  destruct (hasUpdates req) eqn:Hhas.
  - destruct (catalog_fault c TUpdates); [discriminate|].
    unfold First in Hupd. cbn in Hupd. rewrite Hfl, Ht, Hid in Hupd.
    destruct (catalog_fault c TReread); [discriminate|].
    rewrite find_map_template in Hupd by reflexivity.
    rewrite Hfind in Hupd. cbn in Hupd. injection Hupd as <- <-.
    exists old. destruct Hfields as (F1 & F2 & F3 & F4 & F5 & F6 & F7).
    repeat split; auto.
    + cbn. rewrite ?Ht, find_map_template by reflexivity. now rewrite Hfind.
    + cbn. rewrite ?Ht. apply Forall2_map_pointwise. intros r _.
      destruct (has_template_id id r); [discriminate|reflexivity].
  - unfold First in Hupd. rewrite Hfl, Ht in Hupd.
    destruct (catalog_fault c TReread); [discriminate|].
    rewrite Hfind in Hupd. injection Hupd as <- <-.
    exists old. rewrite (templateUpdates_nothing req old Hhas) in Hfields.
    destruct Hfields as (F1 & F2 & F3 & F4 & F5 & F6 & F7).
    repeat split; auto.
    + now rewrite Ht.
    + rewrite Ht. apply Forall2_pointwise_same. auto.
Qed.

End TemplateUpdate.

Lemma UpdateTemplate_keeps_empty_fields_witness :
  let req := mkUpdateTemplateRequest "" "" "camera" None (Some 7) in
  let t := mkCategoryTemplate 2 "People" "portraits" "camera" false 7 5 in
  let c' := with_templates [mkCategoryTemplate 1 "Nature" "" "" true 1 0; t]
                           sampleCatalog in
  UpdateTemplate noMessages 2 req sampleCatalog = (inr t, c') /\
  T_Description t = "portraits" /\ T_Icon t = "camera".
Proof.
  intros req t c'. split; [reflexivity|].
  destruct (UpdateTemplate_keeps_empty_fields noMessages 2 req sampleCatalog
              c' t eq_refl)
    as (old & Hfind & _ & _ & _ & Hd & Hi & _).
  injection Hfind as <-. split; [exact Hd|exact Hi].
Defined.

(** ** The template store stays well formed *)

Lemma NoDup_column_filter {B} (col : CategoryTemplate -> B)
      (keep : CategoryTemplate -> bool) (rows : list CategoryTemplate) :
  NoDup (map col rows) -> NoDup (map col (filter keep rows)).
Proof.
  induction rows as [|t rows IH]; cbn; intros Hnd; [exact Hnd|].
  apply NoDup_cons_iff in Hnd. destruct Hnd as [Hfresh Hrest].
  destruct (keep t); cbn; [|exact (IH Hrest)].
  constructor; [|exact (IH Hrest)].
  intros Hin. apply Hfresh. apply in_map_iff in Hin.
  destruct Hin as (x & Hx & Hin). apply filter_In in Hin.
  apply in_map_iff. exists x. tauto.
Qed.

Lemma NoDup_snoc {A} (l : list A) (a : A) :
  NoDup l -> ~ In a l -> NoDup (l ++ [a]).
Proof.
  intros Hl Ha. apply (NoDup_Add (a := a) (l := l)).
  - rewrite <- (app_nil_r l) at 1. apply Add_app.
  - split; assumption.
Qed.

Lemma map_keeps {A B} (f : A -> B) (g : A -> A) (p : A -> bool) (l : list A) :
  (forall a, f (g a) = f a) ->
  map f (map (fun a => if p a then g a else a) l) = map f l.
Proof.
  intros Hg. rewrite map_map. apply map_ext. intros a.
  destruct (p a); auto.
Qed.

Lemma find_has_name_none n rows :
  find (has_name n) rows = None -> ~ In n (map T_Name rows).
Proof.
  intros Hf Hin. apply in_map_iff in Hin. destruct Hin as (r & Hr & Hin).
  apply (find_none _ _ Hf) in Hin. unfold has_name in Hin.
  rewrite Hr, String.eqb_refl in Hin. discriminate.
Qed.

Lemma NoDup_rename id (g : CategoryTemplate -> CategoryTemplate) n' rows :
  (forall t, T_Name (g t) = n') ->
  NoDup (map T_ID rows) ->
  NoDup (map T_Name rows) ->
  (forall r, In r rows -> has_template_id id r = false -> T_Name r <> n') ->
  NoDup (map T_Name (map (fun t => if has_template_id id t then g t else t)
                         rows)).
Proof.
  intros Hg. induction rows as [|r rows IH]; intros Hids Hnames Hother;
    [constructor|].
  cbn in *. apply NoDup_cons_iff in Hids. destruct Hids as [Hid Hids].
  apply NoDup_cons_iff in Hnames. destruct Hnames as [Hname Hnames].
  destruct (has_template_id id r) eqn:E.
  - assert (Hrest : forall x, In x rows -> has_template_id id x = false).
    { intros x Hx. unfold has_template_id in *.
      destruct (Z.eqb_spec (T_ID x) id) as [Ex|]; [|reflexivity].
      exfalso. apply Hid. apply Z.eqb_eq in E. rewrite E, <- Ex.
      now apply in_map. }
    assert (Hsame : map (fun t => if has_template_id id t then g t else t) rows
                    = rows).
    { rewrite <- (map_id rows) at 2. apply map_ext_in. intros x Hx.
      now rewrite (Hrest x Hx). }
    rewrite Hsame. constructor; [|exact Hnames].
    rewrite Hg. intros Hin. apply in_map_iff in Hin.
    destruct Hin as (x & Hx & Hin).
    exact (Hother x (or_intror Hin) (Hrest x Hin) Hx).
  - constructor; [|apply IH; auto].
    intros Hin. rewrite map_map in Hin. apply in_map_iff in Hin.
    destruct Hin as (x & Hx & Hin).
    destruct (has_template_id id x).
    + rewrite Hg in Hx. exact (Hother r (or_introl eq_refl) E (eq_sym Hx)).
    + apply Hname. apply in_map_iff. eauto.
Qed.

Lemma updateSortOrders_keeps m c :
  let c' := snd (updateSortOrders m c) in
  map T_ID (tbl_category_template c') = map T_ID (tbl_category_template c) /\
  map T_Name (tbl_category_template c') = map T_Name (tbl_category_template c) /\
  next_template_id c' = next_template_id c /\
  catalog_fault c' = catalog_fault c /\
  tbl_file_category c' = tbl_file_category c /\
  service_db c' = service_db c.
Proof.
  revert c. induction m as [|[id o] m IH]; intros c; cbn.
  - repeat split.
  - destruct (catalog_fault c (TUpdateSortOrder id)); cbn; [repeat split|].
    destruct (IH (update_template id (set_T_SortOrder o) c))
      as (H1 & H2 & H3 & H4 & H5 & H6).
    cbn in *. rewrite H1, H2, H3, H4, H5, H6.
    rewrite !map_keeps by reflexivity. repeat split.
Qed.

Section TemplateInvariant.
Variable table : Z -> option string.

Lemma catalog_wf_same (c c1 : Catalog) :
  map T_ID (tbl_category_template c1) = map T_ID (tbl_category_template c) ->
  map T_Name (tbl_category_template c1) = map T_Name (tbl_category_template c) ->
  next_template_id c1 = next_template_id c ->
  catalog_wf c -> catalog_wf c1.
Proof.
  intros Hi Hn Hx (W1 & W2 & W3). unfold catalog_wf.
  rewrite Hi, Hn, Hx. repeat split; auto.
  apply Forall_forall. intros t Ht.
  assert (Hin : In (T_ID t) (map T_ID (tbl_category_template c)))
    by (rewrite <- Hi; now apply in_map).
  apply in_map_iff in Hin. destruct Hin as (r & Hr & Hin).
  rewrite Forall_forall in W3. rewrite <- Hr. exact (W3 r Hin).
Qed.

Lemma CreateTemplate_wf req c :
  catalog_wf c -> catalog_wf (snd (CreateTemplate table req c)).
Proof.
  intros Hwf. unfold CreateTemplate.
  destruct (getDB_cases table c)
    as [(err & Hg & _)|(c1 & Hg & Ht & Hn & Hfc & Hfl & Hs & Hg1)];
    rewrite Hg; cbn [snd]; [exact Hwf|].
  assert (Hwf1 : catalog_wf c1)
    by (apply (catalog_wf_same c); [now rewrite Ht|now rewrite Ht|exact Hn|exact Hwf]).
  unfold First.
  destruct (catalog_fault c1 TFirstByName); [exact Hwf1|].
  destruct (find (has_name (Req_Name req)) (tbl_category_template c1)) eqn:Hfind;
    [exact Hwf1|].
  destruct (catalog_fault c1 TCreate); [exact Hwf1|].
  destruct Hwf1 as (W1 & W2 & W3). unfold catalog_wf. cbn.
  rewrite !map_app. cbn. repeat split.
  - apply NoDup_snoc; [exact W1|]. intros Hin. apply in_map_iff in Hin.
    destruct Hin as (r & Hr & Hin). rewrite Forall_forall in W3.
    specialize (W3 r Hin). lia.
  - apply NoDup_snoc; [exact W2|]. now apply find_has_name_none.
  - apply Forall_app. split.
    + eapply Forall_impl; [|exact W3]. cbn. intros; lia.
    + constructor; [cbn; lia|constructor].
Qed.

Lemma update_wf_same (id : Z) (g : CategoryTemplate -> CategoryTemplate) c :
  (forall t, T_ID (g t) = T_ID t) -> (forall t, T_Name (g t) = T_Name t) ->
  catalog_wf c -> catalog_wf (update_template id g c).
Proof.
  intros Hi Hn. apply catalog_wf_same; cbn;
    [apply map_keeps; exact Hi|apply map_keeps; exact Hn|reflexivity].
Qed.

Lemma NoDup_map_inj {A B} (f : A -> B) (l : list A) (a b : A) :
  NoDup (map f l) -> In a l -> In b l -> f a = f b -> a = b.
Proof.
  induction l as [|x l IH]; [intros _ []|]. cbn. intros Hnd Ha Hb Hf.
  apply NoDup_cons_iff in Hnd. destruct Hnd as [Hx Hnd].
  destruct Ha as [->|Ha], Hb as [->|Hb]; auto.
  - exfalso. apply Hx. rewrite Hf. now apply in_map.
  - exfalso. apply Hx. rewrite <- Hf. now apply in_map.
Qed.

Lemma UpdateTemplate_wf id req c :
  catalog_wf c -> catalog_wf (snd (UpdateTemplate table id req c)).
Proof.
  intros Hwf. unfold UpdateTemplate.
  destruct (getDB_cases table c)
    as [(err & Hg & _)|(c1 & Hg & Ht & Hn & Hfc & Hfl & Hs & Hg1)];
    rewrite Hg; cbn [snd]; [exact Hwf|].
  assert (Hwf1 : catalog_wf c1)
    by (apply (catalog_wf_same c); [now rewrite Ht|now rewrite Ht|exact Hn|exact Hwf]).
  clear Hwf Hg Ht Hn Hfc Hfl Hg1. unfold First at 1.
  destruct (catalog_fault c1 TFirst); [exact Hwf1|].
  destruct (find (has_template_id id) (tbl_category_template c1))
    as [old|] eqn:Hfind; [|exact Hwf1].
  assert (Hid : T_ID old = id) by exact (find_has_template_id_eq _ _ _ Hfind).
  assert (Hold : In old (tbl_category_template c1))
    by (apply find_some in Hfind; tauto).
  assert (Hreread : forall c2,
             catalog_wf c2 ->
             catalog_wf
               (snd (match First c2 TReread (has_template_id id)
                                 (tbl_category_template c2) with
                     | Found t => (inr t, c2)
                     | NotFound =>
                         (inl (Wrap table (PlainError ErrRecordNotFound)
                                    CodeDBQueryFailed
                                    "获取更新后的分类模板失败"), c2)
                     | Failed e =>
                         (inl (Wrap table (PlainError e) CodeDBQueryFailed
                                    "获取更新后的分类模板失败"), c2)
                     end))).
  { intros c2 H2. destruct (First c2 TReread _ _); exact H2. }
  assert (Hwrite :
             (forall r, In r (tbl_category_template c1) ->
                        has_template_id id r = false ->
                        String.eqb (Upd_Name req) "" = false ->
                        T_Name r <> Upd_Name req) ->
             catalog_wf
               (snd (match
                      (if hasUpdates req
                       then match catalog_fault c1 TUpdates with
                            | Some e =>
                                inl (Wrap table (PlainError e)
                                          CodeDBUpdateFailed "更新分类模板失败")
                            | None =>
                                inr (update_template (T_ID old)
                                       (templateUpdates req) c1)
                            end
                       else inr c1) with
                     | inl err => (inl err, c1)
                     | inr c2 =>
                         match First c2 TReread (has_template_id id)
                                     (tbl_category_template c2) with
                         | Found t => (inr t, c2)
                         | NotFound =>
                             (inl (Wrap table (PlainError ErrRecordNotFound)
                                        CodeDBQueryFailed
                                        "获取更新后的分类模板失败"), c2)
                         | Failed e =>
                             (inl (Wrap table (PlainError e) CodeDBQueryFailed
                                        "获取更新后的分类模板失败"), c2)
                         end
                     end))).
  { intros Hother.
    destruct (hasUpdates req); [|apply Hreread; exact Hwf1].
    destruct (catalog_fault c1 TUpdates); [exact Hwf1|].
    apply Hreread. rewrite Hid.
    destruct (String.eqb (Upd_Name req) "") eqn:Ename.
    - apply update_wf_same; [reflexivity| |exact Hwf1].
      intros t. unfold templateUpdates. cbn. now rewrite Ename.
    - destruct Hwf1 as (W1 & W2 & W3). unfold catalog_wf. cbn.
      rewrite map_keeps by reflexivity. repeat split; [exact W1| |].
      + apply (NoDup_rename id (templateUpdates req) (Upd_Name req)); auto.
        intros t. unfold templateUpdates. cbn. now rewrite Ename.
      + apply Forall_forall. intros t Hin. apply in_map_iff in Hin.
        destruct Hin as (r & Hr & Hin). rewrite Forall_forall in W3.
        specialize (W3 r Hin). subst t.
        destruct (has_template_id id r); [exact W3|exact W3]. }
  destruct (negb (String.eqb (Upd_Name req) "")
            && negb (String.eqb (Upd_Name req) (T_Name old))) eqn:Echeck.
  - unfold First at 1.
    destruct (catalog_fault c1 TFirstOtherByName); [exact Hwf1|].
    destruct (find (fun t => has_name (Upd_Name req) t
                             && negb (has_template_id id t))
                   (tbl_category_template c1)) eqn:Hother; [exact Hwf1|].
    apply Hwrite.
    intros r Hin Hr _ Hname.
    apply (find_none _ _ Hother) in Hin. unfold has_name in Hin.
    rewrite Hname, String.eqb_refl, Hr in Hin. discriminate.
  - apply Hwrite.
    intros r Hin Hr Ename Hname. rewrite Ename in Echeck. cbn in Echeck.
    apply negb_false_iff, String.eqb_eq in Echeck.
    destruct Hwf1 as (_ & W2 & _).
    assert (r = old)
      by (apply (NoDup_map_inj T_Name (tbl_category_template c1)); auto;
          congruence).
    subst r. unfold has_template_id in Hr. rewrite Hid, Z.eqb_refl in Hr.
    discriminate.
Qed.

Lemma DeleteTemplate_wf id c :
  catalog_wf c -> catalog_wf (snd (DeleteTemplate table id c)).
Proof.
  intros Hwf. unfold DeleteTemplate.
  destruct (getDB_cases table c)
    as [(err & Hg & _)|(c1 & Hg & Ht & Hn & Hfc & Hfl & Hs & Hg1)];
    rewrite Hg; cbn [snd]; [exact Hwf|].
  assert (Hwf1 : catalog_wf c1)
    by (apply (catalog_wf_same c); [now rewrite Ht|now rewrite Ht|exact Hn|exact Hwf]).
  destruct (First c1 TFirst _ _); try exact Hwf1.
  destruct (catalog_fault c1 TCountCategories); [exact Hwf1|].
  destruct (0 <? _); [exact Hwf1|].
  destruct (catalog_fault c1 TDelete); [exact Hwf1|].
  destruct Hwf1 as (W1 & W2 & W3). unfold catalog_wf. cbn.
  repeat split; try (apply NoDup_column_filter; assumption).
  apply Forall_forall. intros t Hin. apply filter_In in Hin.
  rewrite Forall_forall in W3. apply W3. tauto.
Qed.

Lemma IncrementUsageCount_wf id c :
  catalog_wf c -> catalog_wf (snd (IncrementUsageCount table id c)).
Proof.
  intros Hwf. unfold IncrementUsageCount.
  destruct (getDB_cases table c)
    as [(err & Hg & _)|(c1 & Hg & Ht & Hn & Hfc & Hfl & Hs & Hg1)];
    rewrite Hg; cbn [snd]; [exact Hwf|].
  assert (Hwf1 : catalog_wf c1)
    by (apply (catalog_wf_same c); [now rewrite Ht|now rewrite Ht|exact Hn|exact Hwf]).
  destruct (catalog_fault c1 TIncrement); [exact Hwf1|].
  apply update_wf_same; auto.
Qed.

Lemma BatchUpdateSortOrder_wf m c :
  catalog_wf c -> catalog_wf (snd (BatchUpdateSortOrder table m c)).
Proof.
  intros Hwf. unfold BatchUpdateSortOrder.
  destruct (getDB_cases table c)
    as [(err & Hg & _)|(c1 & Hg & Ht & Hn & Hfc & Hfl & Hs & Hg1)];
    rewrite Hg; cbn [snd]; [exact Hwf|].
  assert (Hwf1 : catalog_wf c1)
    by (apply (catalog_wf_same c); [now rewrite Ht|now rewrite Ht|exact Hn|exact Hwf]).
  destruct (catalog_fault c1 TBegin); [exact Hwf1|].
  destruct (updateSortOrders_keeps m c1) as (H1 & H2 & H3 & _).
  destruct (updateSortOrders m c1) as [[e|] c2]; [exact Hwf1|].
  destruct (catalog_fault c1 TCommit); [exact Hwf1|].
  cbn in *. exact (catalog_wf_same c1 c2 H1 H2 H3 Hwf1).
Qed.

End TemplateInvariant.

(** X28. The template service keeps its store well formed, whatever the
    store does and whatever the request: after [CreateTemplate],
    [UpdateTemplate], [DeleteTemplate], [IncrementUsageCount] and
    [BatchUpdateSortOrder] the keys are still distinct and below the
    counter, and no two templates share a name: a creation or a renaming
    that would clash is refused. *)
Theorem template_service_keeps_names_unique
        (table : Z -> option string) (c : Catalog) :
  catalog_wf c ->
  (forall req, catalog_wf (snd (CreateTemplate table req c))) /\
  (forall id req, catalog_wf (snd (UpdateTemplate table id req c))) /\
  (forall id, catalog_wf (snd (DeleteTemplate table id c))) /\
  (forall id, catalog_wf (snd (IncrementUsageCount table id c))) /\
  (forall sortOrders,
      catalog_wf (snd (BatchUpdateSortOrder table sortOrders c))).
Proof.
  intros Hwf. split; [|split; [|split; [|split]]]; intros.
  - now apply CreateTemplate_wf.
  - now apply UpdateTemplate_wf.
  - now apply DeleteTemplate_wf.
  - now apply IncrementUsageCount_wf.
  - now apply BatchUpdateSortOrder_wf.
Qed.

Lemma template_service_keeps_names_unique_witness :
  catalog_wf sampleCatalog /\
  catalog_wf (snd (UpdateTemplate noMessages 2
                     (mkUpdateTemplateRequest "Nature" "" "" None None)
                     sampleCatalog)).
Proof.
  split; [exact sampleCatalog_wf|].
  exact (proj1 (proj2 (template_service_keeps_names_unique
                         noMessages sampleCatalog sampleCatalog_wf)) 2
               (mkUpdateTemplateRequest "Nature" "" "" None None)).
Defined.

(** ** BatchUpdateSortOrder *)

Lemma updateSortOrders_run m c :
  updatesGoThrough c m = true ->
  updateSortOrders m c =
  (None, with_templates (map (fun t => fold_left sortOrderStep m t)
                             (tbl_category_template c)) c).
Proof.
  revert c. induction m as [|[id o] m IH]; intros c Hok; cbn.
  - rewrite map_id. destruct c; reflexivity.
  - cbn in Hok. destruct (catalog_fault c (TUpdateSortOrder id)); [discriminate|].
    rewrite IH by exact Hok. cbn. rewrite map_map. reflexivity.
Qed.

Lemma updateSortOrders_fails m c :
  updatesGoThrough c m = false -> fst (updateSortOrders m c) <> None.
Proof.
  revert c. induction m as [|[id o] m IH]; intros c Hok; cbn in *.
  - discriminate.
  - destruct (catalog_fault c (TUpdateSortOrder id)); [discriminate|].
    apply IH. exact Hok.
Qed.

Lemma forallb_Permutation {A} (p : A -> bool) (l l' : list A) :
  Permutation l l' -> forallb p l = forallb p l'.
Proof.
  induction 1; cbn; try congruence.
  destruct (p x), (p y); reflexivity.
Qed.

Lemma fold_sortOrderStep_other m t :
  (forall p, In p m -> has_key (T_ID t) p = false) ->
  fold_left sortOrderStep m t = t.
Proof.
  revert t. induction m as [|p m IH]; intros t Hno; [reflexivity|]. cbn.
  assert (Hp : has_template_id (fst p) t = false).
  { generalize (Hno p (or_introl eq_refl)). unfold has_key, has_template_id.
    rewrite Z.eqb_sym. auto. }
  unfold sortOrderStep at 2. rewrite Hp. apply IH.
  intros q Hq. apply Hno. now right.
Qed.

Lemma fold_sortOrderStep m t :
  NoDup (map fst m) -> fold_left sortOrderStep m t = sortOrderFrom m t.
Proof.
  revert t. induction m as [|p m IH]; intros t Hnd; [reflexivity|].
  cbn in Hnd. apply NoDup_cons_iff in Hnd. destruct Hnd as [Hp Hnd].
  unfold sortOrderFrom. cbn. unfold sortOrderStep at 2.
  unfold has_template_id, has_key. rewrite (Z.eqb_sym (T_ID t)).
  destruct (Z.eqb_spec (fst p) (T_ID t)) as [E|E].
  - apply fold_sortOrderStep_other. intros q Hq. cbn.
    unfold has_key. apply Z.eqb_neq. intros Eq. apply Hp.
    rewrite E, <- Eq. now apply in_map.
  - rewrite IH by exact Hnd. reflexivity.
Qed.

Lemma find_has_key_Permutation k (m m' : list (Z * Z)) :
  NoDup (map fst m) -> Permutation m m' ->
  find (has_key k) m = find (has_key k) m'.
Proof.
  intros Hnd Hperm. induction Hperm as [|x l l' Hp IH|x y l|l l' l'' H1 IH1 H2 IH2].
  - reflexivity.
  - cbn in *. apply NoDup_cons_iff in Hnd. destruct Hnd as [_ Hnd].
    now rewrite IH.
  - cbn in *. apply NoDup_cons_iff in Hnd. destruct Hnd as [Hy _].
    unfold has_key.
    destruct (Z.eqb_spec (fst x) k), (Z.eqb_spec (fst y) k); try reflexivity.
    exfalso. apply Hy. left. congruence.
  - rewrite IH1 by exact Hnd. apply IH2.
    apply (Permutation_NoDup (l := map fst l)); [|exact Hnd].
    now apply Permutation_map.
Qed.

Section TemplateBatch.
Variable table : Z -> option string.

Lemma BatchUpdateSortOrder_run m c :
  NoDup (map fst m) ->
  let ok := (service_db c || database_DB c)
            && match catalog_fault c TBegin with Some _ => false | None => true end
            && updatesGoThrough c m
            && match catalog_fault c TCommit with Some _ => false | None => true end in
  let res := BatchUpdateSortOrder table m c in
  (fst res = None <-> ok = true) /\
  snd res =
    with_templates (if ok then map (sortOrderFrom m) (tbl_category_template c)
                    else tbl_category_template c)
                   (with_service_db (service_db c || database_DB c) c).
Proof.
  intros Hnd ok res. unfold res, ok, BatchUpdateSortOrder, getDB. clear ok res.
  assert (Hrun : forall s d f t n fc,
             s || d = true ->
             let c1 := mkCatalog true d f t n fc in
             let ok := match f TBegin with Some _ => false | None => true end
                       && updatesGoThrough (mkCatalog s d f t n fc) m
                       && match f TCommit with Some _ => false | None => true end in
             let res :=
               match f TBegin with
               | Some e => (Some (PlainError e), c1)
               | None =>
                   match updateSortOrders m c1 with
                   | (Some e, _) => (Some (PlainError e), c1)
                   | (None, c2) =>
                       match f TCommit with
                       | Some e => (Some (PlainError e), c1)
                       | None => (None, c2)
                       end
                   end
               end in
             (fst res = None <-> ok = true) /\
             snd res = mkCatalog true d f
                                 (if ok then map (sortOrderFrom m) t else t)
                                 n fc).
  { intros s d f t n fc _ c1 ok res. unfold res, ok, c1. clear res ok c1.
    change (updatesGoThrough (mkCatalog s d f t n fc) m)
      with (updatesGoThrough (mkCatalog true d f t n fc) m).
    destruct (f TBegin); cbn [andb];
      [split; [split; intros E; discriminate E|reflexivity]|].
    destruct (updatesGoThrough _ m) eqn:Hok; cbn [andb].
    - rewrite updateSortOrders_run by exact Hok.
      destruct (f TCommit);
        [split; [split; intros E; discriminate E|reflexivity]|].
      split; [split; reflexivity|]. cbn. unfold with_templates. cbn. f_equal.
      apply map_ext. intros r. now apply fold_sortOrderStep.
    - generalize (updateSortOrders_fails m _ Hok).
      destruct (updateSortOrders m _) as [[e|] c2]; cbn; [|congruence].
      intros _. split; [split; intros E; discriminate E|reflexivity]. }
  destruct c as [s d f t n fc]. cbn.
  destruct s; cbn; [apply (Hrun true d f t n fc); reflexivity|].
  destruct d; cbn; [apply (Hrun false true f t n fc); reflexivity|].
  split; [split; intros E; discriminate E|reflexivity].
Qed.

End TemplateBatch.

(** X29. [BatchUpdateSortOrder] is all or nothing, and the order in which
    the map is iterated does not matter. For a map (distinct keys), a call
    that returns nil has given every template the sort order the map holds
    under its key and left the others alone; a call that returns an error
    has changed no template; and iterating the same entries in another order
    gives the same final store and succeeds or fails alike. *)
Theorem BatchUpdateSortOrder_order_independent
        (table : Z -> option string) (sortOrders sortOrders' : list (Z * Z))
        (c : Catalog) :
  NoDup (map fst sortOrders) ->
  Permutation sortOrders sortOrders' ->
  let res := BatchUpdateSortOrder table sortOrders c in
  let res' := BatchUpdateSortOrder table sortOrders' c in
  snd res = snd res' /\
  (fst res = None <-> fst res' = None) /\
  (fst res = None ->
   tbl_category_template (snd res) =
     map (sortOrderFrom sortOrders) (tbl_category_template c)) /\
  (fst res <> None ->
   tbl_category_template (snd res) = tbl_category_template c).
Proof.
  intros Hnd Hperm res res'.
  assert (Hnd' : NoDup (map fst sortOrders')).
  { apply (Permutation_NoDup (l := map fst sortOrders)); [|exact Hnd].
    now apply Permutation_map. }
  destruct (BatchUpdateSortOrder_run table sortOrders c Hnd) as [Hok Hsnd].
  destruct (BatchUpdateSortOrder_run table sortOrders' c Hnd') as [Hok' Hsnd'].
  fold res in Hok, Hsnd. fold res' in Hok', Hsnd'.
  assert (Hsame : updatesGoThrough c sortOrders = updatesGoThrough c sortOrders')
    by (apply forallb_Permutation; exact Hperm).
  assert (Hmap : map (sortOrderFrom sortOrders) (tbl_category_template c) =
                 map (sortOrderFrom sortOrders') (tbl_category_template c)).
  { apply map_ext. intros t. unfold sortOrderFrom.
    now rewrite (find_has_key_Permutation (T_ID t) _ _ Hnd Hperm). }
  rewrite <- Hsame in Hok', Hsnd'. rewrite <- Hmap in Hsnd'.
  split; [congruence|]. split; [rewrite Hok, Hok'; tauto|].
  split.
  - intros E. apply Hok in E. rewrite Hsnd, E. reflexivity.
  - intros E. rewrite Hsnd.
    match goal with
    | |- context [if ?b then _ else _] => destruct b eqn:Eb
    end; [|reflexivity].
    exfalso. apply E. apply Hok. reflexivity.
Qed.

Lemma BatchUpdateSortOrder_order_independent_witness :
  let m := [(1, 20); (2, 10)] in
  let m' := [(2, 10); (1, 20)] in
  NoDup (map fst m) /\
  Permutation m m' /\
  snd (BatchUpdateSortOrder noMessages m sampleCatalog) =
  snd (BatchUpdateSortOrder noMessages m' sampleCatalog).
Proof.
  intros m m'.
  assert (Hnd : NoDup (map fst m))
    by (repeat constructor; cbn; intuition discriminate).
  assert (Hperm : Permutation m m') by apply perm_swap.
  split; [exact Hnd|]. split; [exact Hperm|].
  exact (proj1 (BatchUpdateSortOrder_order_independent
                  noMessages m m' sampleCatalog Hnd Hperm)).
Defined.

(** ** Package errors *)

(** X30. What [errors.New] and [errors.Wrap] build. The message of a new
    error is always its detail, whatever default message the table holds for
    the code, so that its text names the detail twice. [Wrap] gives a plain
    error the code and the detail of the call, with the cause appended to
    the detail; it returns an [*Error] as it is, dropping the code and the
    detail of the call, so that wrapping twice is wrapping once. *)
Theorem errors_New_and_Wrap
        (errorCodeToMessage : Z -> option string) (code code' : Z)
        (detail detail' : string) (err : GoError) :
  New errorCodeToMessage code detail = mkError code detail detail /\
  (detail <> "" ->
   ErrorText (New errorCodeToMessage code detail) =
     "[" ++ itoa code ++ "] " ++ detail ++ ": " ++ detail) /\
  (forall msg,
      Wrap errorCodeToMessage (PlainError msg) code detail =
      mkError code detail (detail ++ ": " ++ msg)) /\
  (forall e, Wrap errorCodeToMessage (CodedError e) code detail = e) /\
  Wrap errorCodeToMessage
       (CodedError (Wrap errorCodeToMessage err code detail)) code' detail' =
  Wrap errorCodeToMessage err code detail.
Proof.
  assert (Hnew : New errorCodeToMessage code detail = mkError code detail detail).
  { unfold New.
    destruct (String.eqb _ detail) eqn:E; [|reflexivity].
    apply String.eqb_eq in E. now rewrite E. }
  split; [exact Hnew|]. split.
  - intros Hne. rewrite Hnew. unfold ErrorText. cbn.
    destruct (String.eqb detail "") eqn:E; [|reflexivity].
    apply String.eqb_eq in E. contradiction.
  - split; [|split; [reflexivity|reflexivity]].
    intros msg. unfold Wrap. rewrite Hnew. reflexivity.
Qed.
